(** * Regnum forum archive: the query, formatting and pagination layer

    A shallow embedding of the helper module (timestamp normaliser, path
    taxonomy, pagination, result formatters, text helpers), of the SQL
    queries of the database module and of the routes of the threads, the
    users and the statistics, with the properties the specification
    states about them and further properties of the code.

    Modelling conventions.
    - A JavaScript string is a [string] holding its UTF-8 bytes.  The
      operations used ([includes], [split] on the ASCII slash, [LIKE],
      byte-wise comparison) agree with their code-unit versions on
      well-formed text.
    - A JavaScript number is a [Z]: ids, counts, page numbers.  Doubles agree
      with these integers below 2^53; [NaN] appears only as the result of
      [parseInt], which is an [option Z].  Beyond 2^53 a double rounds, from
      10^21 it prints with an exponent, and from 2^63 the engine refuses it
      as an offset: the statements about requests take the numbers of a
      request within these bounds ([safe_integer], [safe_pagination],
      [safe_id]).
    - The engine reads a text up to its first byte 0; the statements about
      the search take texts without one ([nul_free]).
    - A call that may throw returns a [completion].
    - A query is a function on the lists of rows of the three tables;
      where the engine leaves the order of rows with equal keys open,
      the model has the order of the merge sort, and no statement
      depends on it.  [LENGTH] and [SUBSTR] count characters as the
      engine does, [truncateText] counts code units. *)

From Stdlib Require Import ZArith Ascii String Bool Lia.
From stdpp Require Import base option list strings pretty gmap sorting.

Local Open Scope string_scope.
Local Open Scope Z_scope.

(** ** JavaScript values and completions *)

Inductive value : Type :=
  | VUndefined
  | VNull
  | VBool (b : bool)
  | VNum (n : Z)
  | VStr (s : string).

#[global] Instance value_eq_dec : EqDecision value.
Proof. solve_decision. Defined.

Inductive exn : Type :=
  | TypeError (msg : string)
  | LibraryError (msg : string).

Inductive completion (A : Type) : Type :=
  | Normal (a : A)
  | Throw (e : exn).
Arguments Normal {A} a.
Arguments Throw {A} e.

#[global] Instance completion_ret : MRet completion := fun A a => Normal a.

#[global] Instance completion_bind : MBind completion := fun A B k c =>
  match c with
  | Normal a => k a
  | Throw e => Throw e
  end.

(** [try { body } catch (error) { handler }] *)
Definition try_catch {A} (body : completion A) (handler : exn -> completion A) : completion A :=
  match body with
  | Normal a => Normal a
  | Throw e => handler e
  end.

(** [xs.map(f)], stopping at the first element on which [f] throws. *)
Fixpoint cmap {A B} (f : A -> completion B) (xs : list A) : completion (list B) :=
  match xs with
  | [] => Normal []
  | x :: xs' => y ← f x; ys ← cmap f xs'; Normal (y :: ys)
  end.

(** ToBoolean *)
Definition truthy (v : value) : bool :=
  match v with
  | VUndefined | VNull => false
  | VBool b => b
  | VNum n => negb (n =? 0)
  | VStr s => negb (String.eqb s "")
  end.

(** [a || b] *)
Definition js_or (a b : value) : value := if truthy a then a else b.

(** ** String primitives *)

(** [s.includes(needle)] *)
Fixpoint includes (s needle : string) : bool :=
  String.prefix needle s ||
  match s with
  | EmptyString => false
  | String _ s' => includes s' needle
  end.

(** [s.split(sep)] for a one-character separator: never empty, the
    empty string splits into one empty part. *)
Fixpoint split (sep : ascii) (s : string) : list string :=
  match s with
  | EmptyString => [""]
  | String c s' =>
      if Ascii.eqb c sep then "" :: split sep s'
      else match split sep s' with
           | part :: parts => String c part :: parts
           | [] => [String c ""]
           end
  end.

(** [parts[i]] of an array of strings: [undefined] out of range. *)
Definition at_index (parts : list string) (i : Z) : value :=
  if i <? 0 then VUndefined
  else match parts !! Z.to_nat i with
       | Some p => VStr p
       | None => VUndefined
       end.

(** ** Path taxonomy *)

(** Calling a string method on a value: only a string has it. *)
Definition as_string_receiver (method : string) (v : value) : completion string :=
  match v with
  | VStr s => Normal s
  | VUndefined | VNull =>
      Throw (TypeError ("Cannot read properties of undefined or null, reading " +:+ method))
  | VBool _ | VNum _ => Throw (TypeError ("path." +:+ method +:+ " is not a function"))
  end.

Definition language_of (path : string) : string :=
  if includes path "/Español/" then "Español"
  else if includes path "/English/" then "English"
  else if includes path "/Português/" then "Português"
  else if includes path "/Deutsch/" then "Deutsch"
  else if includes path "/Français/" then "Français"
  else if includes path "/Italiano/" then "Italiano"
  else "Other".

Definition getLanguageFromPath (path : value) : completion string :=
  p ← as_string_receiver "includes" path; Normal (language_of p).

Definition slash : ascii := "/"%char.

Definition getCategoryFromPath (path : value) : completion value :=
  p ← as_string_receiver "split" path;
  let parts := split slash p in
  if 4 <=? Z.of_nat (length parts)
  then Normal (at_index parts (Z.of_nat (length parts) - 1))
  else Normal (VStr "General").

(** ** Number parsing *)

Definition byte_of (c : ascii) : N := N_of_ascii c.

(** Width in bytes of the white space character at the head of [s]
    (StrWhiteSpaceChar: TAB, LF, VT, FF, CR, SP, U+00A0, U+1680,
    U+2000..U+200A, U+2028, U+2029, U+202F, U+205F, U+3000, U+FEFF),
    and the rest of [s] behind it. *)
Definition ascii_space (c : ascii) : bool :=
  let b := byte_of c in ((9 <=? b) && (b <=? 13) || (b =? 32))%N.

Definition two_byte_space (c1 c2 : ascii) : bool :=
  ((byte_of c1 =? 194) && (byte_of c2 =? 160))%N.

Definition three_byte_space (c1 c2 c3 : ascii) : bool :=
  let '(b1, b2, b3) := (byte_of c1, byte_of c2, byte_of c3) in
  ((b1 =? 225) && (b2 =? 154) && (b3 =? 128)
   || (b1 =? 226) && (b2 =? 128)
      && ((128 <=? b3) && (b3 <=? 138) || (b3 =? 168) || (b3 =? 169) || (b3 =? 175))
   || (b1 =? 226) && (b2 =? 129) && (b3 =? 159)
   || (b1 =? 227) && (b2 =? 128) && (b3 =? 128)
   || (b1 =? 239) && (b2 =? 187) && (b3 =? 191))%N.

Fixpoint trim_start (s : string) : string :=
  match s with
  | EmptyString => s
  | String c1 s1 =>
      if ascii_space c1 then trim_start s1
      else match s1 with
           | EmptyString => s
           | String c2 s2 =>
               if two_byte_space c1 c2 then trim_start s2
               else match s2 with
                    | EmptyString => s
                    | String c3 s3 =>
                        if three_byte_space c1 c2 c3 then trim_start s3 else s
                    end
           end
  end.

Definition digit_of (radix : Z) (c : ascii) : option Z :=
  let b := Z.of_N (byte_of c) in
  let d := if (48 <=? b) && (b <=? 57) then Some (b - 48)
           else if (97 <=? b) && (b <=? 122) then Some (b - 87)
           else if (65 <=? b) && (b <=? 90) then Some (b - 55)
           else None in
  match d with
  | Some k => if k <? radix then Some k else None
  | None => None
  end.

(** The longest prefix of digits, read in [radix]; [acc] is [None]
    until a digit has been seen. *)
Fixpoint parse_digits (radix : Z) (acc : option Z) (s : string) : option Z :=
  match s with
  | EmptyString => acc
  | String c s' =>
      match digit_of radix c with
      | Some d => parse_digits radix (Some (radix * default 0 acc + d)) s'
      | None => acc
      end
  end.

Definition strip_sign (s : string) : Z * string :=
  match s with
  | String "-" r => (-1, r)
  | String "+" r => (1, r)
  | _ => (1, s)
  end.

Definition strip_radix_prefix (s : string) : Z * string :=
  match s with
  | String "0" (String "x" r) | String "0" (String "X" r) => (16, r)
  | _ => (10, s)
  end.

(** [parseInt(s)] with no radix argument; [None] is [NaN]. *)
Definition parseInt_string (s : string) : option Z :=
  let '(sign, s1) := strip_sign (trim_start s) in
  let '(radix, s2) := strip_radix_prefix s1 in
  match parse_digits radix None s2 with
  | Some n => Some (sign * n)
  | None => None
  end.

(** ToString; a number prints in decimal, as the numbers of a
    magnitude below 10^21 do. *)
Definition to_string (v : value) : string :=
  match v with
  | VUndefined => "undefined"
  | VNull => "null"
  | VBool true => "true"
  | VBool false => "false"
  | VNum n => pretty n
  | VStr s => s
  end.

(** [parseInt(v)]; the result is exact, as the double of the program
    is up to 2^53. *)
Definition parseInt (v : value) : option Z := parseInt_string (to_string v).

(** [n || d] for a number [n] that may be [NaN]. *)
Definition num_or (n : option Z) (d : Z) : Z :=
  match n with
  | Some k => if k =? 0 then d else k
  | None => d
  end.

(** [Math.ceil(a / b)], for [b] other than zero. *)
Definition ceil_div (a b : Z) : Z := - ((- a) / b).

(** ** Pagination *)

Record Pagination : Type := {
  page : Z;
  limit : Z;
  offset : Z
}.

Definition validatePagination (page limit : value) : Pagination :=
  let validatedPage := Z.max 1 (num_or (parseInt page) 1) in
  let validatedLimit := Z.min 100 (Z.max 1 (num_or (parseInt limit) 20)) in
  {| page := validatedPage;
     limit := validatedLimit;
     offset := (validatedPage - 1) * validatedLimit |}.

Record PageLink : Type := {
  link_page : Z;
  link_url : string;
  link_active : bool
}.

Record PageWindow : Type := {
  pages : list PageLink;
  prev : option string;
  next : option string;
  totalPages : Z;
  currentPage : Z;
  totalItems : Z;
  itemsPerPage : Z;
  hasNext : bool;
  hasPrev : bool;
  startItem : Z;
  endItem : Z
}.

Definition page_url (baseUrl : string) (i : Z) : string :=
  baseUrl +:+ "&page=" +:+ pretty i.

Definition getPagination (currentPage totalItems itemsPerPage : Z) (baseUrl : string)
  : PageWindow :=
  let totalPages := ceil_div totalItems itemsPerPage in
  let startPage := Z.max 1 (currentPage - 2) in
  let endPage := Z.min totalPages (currentPage + 2) in
  let pagination :=
    (fun i => {| link_page := i;
                 link_url := page_url baseUrl i;
                 link_active := i =? currentPage |})
      <$> seqZ startPage (endPage - startPage + 1) in
  {| pages := pagination;
     prev := if 1 <? currentPage then Some (page_url baseUrl (currentPage - 1)) else None;
     next := if currentPage <? totalPages
             then Some (page_url baseUrl (currentPage + 1)) else None;
     totalPages := totalPages;
     currentPage := currentPage;
     totalItems := totalItems;
     itemsPerPage := itemsPerPage;
     hasNext := currentPage <? totalPages;
     hasPrev := 1 <? currentPage;
     startItem := (currentPage - 1) * itemsPerPage + 1;
     endItem := Z.min (currentPage * itemsPerPage) totalItems |}.

(** The pagination calculator of the specification, a function of
    (requestedPage, requestedLimit, totalItemCount): [validatePagination]
    on the two requested values, then [getPagination] on the validated
    page and limit. *)
Record Calculated : Type := {
  calc_page : Z;
  calc_limit : Z;
  calc_offset : Z;
  calc_totalPages : Z;
  calc_hasNext : bool;
  calc_hasPrev : bool;
  calc_startItem : Z;
  calc_endItem : Z
}.

Definition paginationCalculator (requestedPage requestedLimit : value) (total : Z)
  : Calculated :=
  let v := validatePagination requestedPage requestedLimit in
  let w := getPagination (page v) total (limit v) "" in
  {| calc_page := page v;
     calc_limit := limit v;
     calc_offset := offset v;
     calc_totalPages := totalPages w;
     calc_hasNext := hasNext w;
     calc_hasPrev := hasPrev w;
     calc_startItem := startItem w;
     calc_endItem := endItem w |}.

(** ** Timestamp normalisation *)

(** The date library: [moment(input, format)], [dt.isValid()] and
    [dt.format(pattern)].  Its parser is outside this repository; the
    normaliser is modelled over any implementation of it, including
    one whose calls throw. *)
Class MomentLib : Type := {
  moment_t : Type;
  moment : value -> string -> completion moment_t;
  isValid : moment_t -> bool;
  format : moment_t -> string -> completion string
}.

Definition primaryFormat : string := "DD-MM-YYYY, hh:mm A".

Definition alternativeFormats : list string :=
  [ "MM-DD-YYYY, hh:mm A";
    "DD/MM/YYYY, hh:mm A";
    "MM/DD/YYYY, hh:mm A";
    "YYYY-MM-DD hh:mm A" ].

Definition canonicalFormat : string := "MMM D, YYYY \a\t h:mm A".

(** The [for (const format of formats)] loop: [Some] is the value of
    the [return] inside it, [None] is falling out of the loop. *)
Fixpoint try_formats `{MomentLib} (timestamp : value) (formats : list string)
  : completion (option string) :=
  match formats with
  | [] => Normal None
  | fmt :: rest =>
      dt ← moment timestamp fmt;
      if isValid dt then s ← format dt canonicalFormat; Normal (Some s)
      else try_formats timestamp rest
  end.

Definition formatTimestamp `{MomentLib} (timestamp : value) : completion value :=
  if negb (truthy timestamp) then Normal (VStr "Unknown")
  else
    try_catch
      (dt ← moment timestamp primaryFormat;
       if isValid dt then s ← format dt canonicalFormat; Normal (VStr s)
       else
         r ← try_formats timestamp alternativeFormats;
         match r with
         | Some s => Normal (VStr s)
         | None => Normal timestamp
         end)
      (fun _ => Normal timestamp).

(** The normaliser as the specification words it: one ordered list of
    known formats, each attempted in order, the first successful parse
    rendered in the canonical format, the original string otherwise. *)
Definition knownFormats : list string := primaryFormat :: alternativeFormats.

Fixpoint first_parse `{MomentLib} (timestamp : value) (formats : list string)
  : completion (option moment_t) :=
  match formats with
  | [] => Normal None
  | fmt :: rest =>
      dt ← moment timestamp fmt;
      if isValid dt then Normal (Some dt) else first_parse timestamp rest
  end.

Definition formatTimestamp_spec `{MomentLib} (timestamp : string) : value :=
  match first_parse (VStr timestamp) knownFormats with
  | Normal (Some dt) =>
      match format dt canonicalFormat with
      | Normal s => VStr s
      | Throw _ => VStr timestamp
      end
  | Normal None | Throw _ => VStr timestamp
  end.

(** A format that the date library reads without a valid result. *)
Definition rejects `{MomentLib} (timestamp : value) (fmt : string) : Prop :=
  ∃ dt, moment timestamp fmt = Normal dt ∧ isValid dt = false.

(** ** Message sanitisation *)

Record SanitizeOptions : Type := {
  allowedTags : list string;
  allowedAttributes : list (string * list string);
  allowedSchemes : list string;
  allowedIframeHostnames : list string
}.

(** The HTML allow-list filter, a library outside this repository. *)
Class SanitizeHtmlLib : Type := {
  sanitizeHtml : value -> SanitizeOptions -> string
}.

Definition sanitizeOptions : SanitizeOptions :=
  {| allowedTags :=
       [ "p"; "br"; "b"; "strong"; "i"; "em"; "u"; "a"; "img"; "div"; "span";
         "ul"; "ol"; "li"; "blockquote"; "h1"; "h2"; "h3"; "h4"; "h5"; "h6";
         "pre"; "code"; "hr"; "table"; "thead"; "tbody"; "tr"; "td"; "th" ];
     allowedAttributes :=
       [ ("a", ["href"; "title"; "target"]);
         ("img", ["src"; "alt"; "title"; "width"; "height"]);
         ("*", ["class"; "style"]) ];
     allowedSchemes := ["http"; "https"; "mailto"];
     allowedIframeHostnames := [] |}.

Definition sanitizeHtmlContent `{SanitizeHtmlLib} (html : value) : string :=
  if negb (truthy html) then "" else sanitizeHtml html sanitizeOptions.

(** ** Result formatters *)

(** What a formatter receives: a primitive, or a row object.  A row
    is the map of its columns; reading a property it does not have
    gives [undefined]. *)
Inductive js : Type :=
  | Prim (v : value)
  | Obj (fields : gmap string value).

Definition js_truthy (x : js) : bool :=
  match x with
  | Prim v => truthy v
  | Obj _ => true
  end.

(** [x.k], for [x] other than [null] and [undefined]. *)
Definition prop (x : js) (k : string) : value :=
  match x with
  | Obj fields => default VUndefined (fields !! k)
  | Prim _ => VUndefined
  end.

Module ThreadApi.
Record t : Type := {
  id : value;
  name : value;
  path : value;
  language : string;
  category : value;
  postCount : value;
  lastPoster : value;
  lastPostTime : value;
  createdTime : value;
  threadCreator : value
}.
End ThreadApi.

Module UserApi.
Record t : Type := {
  id : value;
  name : value;
  postCount : value;
  threadCount : value;
  firstPost : value;
  lastPost : value
}.
End UserApi.

Module PostApi.
Record t : Type := {
  id : value;
  threadId : value;
  postNo : value;
  userId : value;
  username : value;
  timestamp : value;
  message : string;
  threadName : value;
  threadPath : value
}.
End PostApi.

(** [v ? formatTimestamp(v) : null] *)
Definition timestamp_or_null `{MomentLib} (v : value) : completion value :=
  if truthy v then formatTimestamp v else Normal VNull.

(** A formatter returns [None] for the JavaScript [null]. *)
Definition formatThreadForApi `{MomentLib} (thread : js) : completion (option ThreadApi.t) :=
  if negb (js_truthy thread) then Normal None
  else
    language ← getLanguageFromPath (prop thread "path");
    category ← getCategoryFromPath (prop thread "path");
    lastPostTime ← timestamp_or_null (prop thread "last_post_time");
    createdTime ← timestamp_or_null (prop thread "created_time");
    Normal (Some
      {| ThreadApi.id := prop thread "id";
         ThreadApi.name := prop thread "name";
         ThreadApi.path := prop thread "path";
         ThreadApi.language := language;
         ThreadApi.category := category;
         ThreadApi.postCount := js_or (prop thread "post_count") (VNum 0);
         ThreadApi.lastPoster := prop thread "last_poster";
         ThreadApi.lastPostTime := lastPostTime;
         ThreadApi.createdTime := createdTime;
         ThreadApi.threadCreator := prop thread "thread_creator" |}).

Definition formatUserForApi `{MomentLib} (user : js) : completion (option UserApi.t) :=
  if negb (js_truthy user) then Normal None
  else
    firstPost ← timestamp_or_null (prop user "first_post");
    lastPost ← timestamp_or_null (prop user "last_post");
    Normal (Some
      {| UserApi.id := prop user "id";
         UserApi.name := prop user "name";
         UserApi.postCount :=
           js_or (js_or (prop user "post_count") (prop user "total_posts")) (VNum 0);
         UserApi.threadCount :=
           js_or (js_or (prop user "thread_count") (prop user "total_threads")) (VNum 0);
         UserApi.firstPost := firstPost;
         UserApi.lastPost := lastPost |}).

Definition formatPostForApi `{MomentLib} `{SanitizeHtmlLib} (post : js)
  : completion (option PostApi.t) :=
  if negb (js_truthy post) then Normal None
  else
    timestamp ← timestamp_or_null (prop post "timestamp");
    Normal (Some
      {| PostApi.id := prop post "id";
         PostApi.threadId := prop post "thread_id";
         PostApi.postNo := prop post "post_no";
         PostApi.userId := prop post "user_id";
         PostApi.username := js_or (prop post "username") (VStr "Guest");
         PostApi.timestamp := timestamp;
         PostApi.message := sanitizeHtmlContent (prop post "message");
         PostApi.threadName := prop post "thread_name";
         PostApi.threadPath := prop post "thread_path" |}).

(** A stored field that is absent: the column is missing from the
    row, or holds NULL. *)
Definition absent (v : value) : Prop := v = VUndefined ∨ v = VNull.

(** ** The archive database *)

(** The three tables.  A thread has a name and a path; the user, the
    timestamp and the message of a post, and the name of a user, may
    be NULL. *)
Record thread_row : Type := {
  t_id : Z;
  t_name : string;
  t_path : string
}.

Record post_row : Type := {
  p_id : Z;
  p_thread_id : Z;
  p_post_no : Z;
  p_user_id : option Z;
  p_timestamp : option string;
  p_message : option string
}.

Record user_row : Type := {
  u_id : Z;
  u_name : option string
}.

Record Database : Type := {
  threads : list thread_row;
  posts : list post_row;
  users : list user_row
}.

#[global] Instance thread_row_eq_dec : EqDecision thread_row.
Proof. solve_decision. Defined.

(** *** SQL primitives *)

Definition to_lower (c : ascii) : ascii :=
  let b := byte_of c in
  if ((65 <=? b) && (b <=? 90))%N then ascii_of_N (b + 32) else c.

Definition is_continuation (c : ascii) : bool :=
  let b := byte_of c in ((128 <=? b) && (b <? 192))%N.

(** A byte from 0xC0 up opens a character of several bytes. *)
Definition is_lead (c : ascii) : bool := (192 <=? byte_of c)%N.

Fixpoint skip_continuation (s : string) : string :=
  match s with
  | EmptyString => s
  | String c s' => if is_continuation c then skip_continuation s' else s
  end.

(** [text LIKE pattern] on a text that is not NULL: [%] stands for
    any run of characters, [_] for one character (a byte, and behind
    a byte from 0xC0 up the continuation bytes that follow it),
    letters of ASCII compare without case.  The engine reads pattern
    and text up to their first byte 0; this is [LIKE] on texts
    without one. *)
Fixpoint like (pattern : string) : string -> bool :=
  match pattern with
  | EmptyString => fun text => String.eqb text ""
  | String p pattern' =>
      if Ascii.eqb p "%" then
        fix any (text : string) : bool :=
          like pattern' text ||
          match text with
          | EmptyString => false
          | String _ text' => any text'
          end
      else if Ascii.eqb p "_" then
        fun text =>
          match text with
          | EmptyString => false
          | String c text' =>
              like pattern' (if is_lead c then skip_continuation text' else text')
          end
      else
        fun text =>
          match text with
          | EmptyString => false
          | String c text' => Ascii.eqb (to_lower c) (to_lower p) && like pattern' text'
          end
  end.

(** [column LIKE pattern] on a nullable column: NULL is not a match. *)
Definition like_null (column : option string) (pattern : string) : bool :=
  match column with
  | Some text => like pattern text
  | None => false
  end.

(** The order of nullable text columns: NULL below every text, texts
    by their bytes. *)
Definition text_le (a b : option string) : Prop :=
  match a, b with
  | None, _ => True
  | Some _, None => False
  | Some x, Some y => String.leb x y = true
  end.

#[global] Instance text_le_dec : RelDecision text_le.
Proof.
intros [x|] [y|]; simpl; try (left; exact I); try (right; tauto).
destruct (String.leb x y); [left; reflexivity | right; discriminate].
Defined.

Definition text_max (a b : option string) : option string :=
  if decide (text_le a b) then b else a.

(** [MAX(column)] and [MIN(column)]: NULLs are skipped, and the
    aggregate of no text is NULL. *)
Definition sql_max (column : list (option string)) : option string :=
  foldr text_max None column.

Definition text_min (a b : option string) : option string :=
  match a, b with
  | None, _ => b
  | _, None => a
  | Some x, Some y => if String.leb x y then a else b
  end.

Definition sql_min (column : list (option string)) : option string :=
  foldr text_min None column.

(** [ORDER BY key DESC], which puts NULL keys last; rows with equal
    keys keep an order the engine does not promise, here the one of
    the merge sort. *)
Definition desc_by {A} (key : A -> option string) : relation A :=
  fun a b => text_le (key b) (key a).

#[global] Instance desc_by_dec {A} (key : A -> option string) : RelDecision (desc_by key).
Proof. intros a b. unfold desc_by. apply _. Defined.

Definition order_by_desc {A} (key : A -> option string) (rows : list A) : list A :=
  merge_sort (desc_by key) rows.

(** [ORDER BY key ASC]: NULL keys first. *)
Definition asc_by {A} (key : A -> option string) : relation A :=
  fun a b => text_le (key a) (key b).

#[global] Instance asc_by_dec {A} (key : A -> option string) : RelDecision (asc_by key).
Proof. intros a b. unfold asc_by. apply _. Defined.

Definition order_by_asc {A} (key : A -> option string) (rows : list A) : list A :=
  merge_sort (asc_by key) rows.

Definition num_asc {A} (key : A -> Z) : relation A := fun a b => key a <= key b.

#[global] Instance num_asc_dec {A} (key : A -> Z) : RelDecision (num_asc key).
Proof. intros a b. unfold num_asc. apply _. Defined.

(** [LIMIT n OFFSET k]: a negative limit is no limit, a negative
    offset is none.  The engine refuses an offset from 2^63 up, which
    a page within [safe_pagination] does not reach. *)
Definition limit_offset {A} (n k : Z) (rows : list A) : list A :=
  let rest := drop (Z.to_nat k) rows in
  if n <? 0 then rest else take (Z.to_nat n) rest.

(** *** Queries *)

Definition posts_of (db : Database) (tid : Z) : list post_row :=
  filter (fun p => p_thread_id p = tid) (posts db).

(** [posts p JOIN users u ON p.user_id = u.id] within one thread. *)
Definition posts_with_user (db : Database) (tid : Z) : list (post_row * user_row) :=
  p ← posts_of db tid;
  u ← filter (fun u => p_user_id p = Some (u_id u)) (users db);
  [(p, u)].

Definition first_name (rows : list (post_row * user_row)) : option string :=
  match rows with
  | (_, u) :: _ => u_name u
  | [] => None
  end.

Record thread_list_row : Type := {
  r_id : Z;
  r_name : string;
  r_path : string;
  r_post_count : Z;
  r_last_poster : option string;
  r_last_post_time : option string;
  r_created_time : option string;
  r_thread_creator : option string
}.

Definition thread_list_row_of (db : Database) (t : thread_row) : thread_list_row :=
  let ps := posts_of db (t_id t) in
  {| r_id := t_id t;
     r_name := t_name t;
     r_path := t_path t;
     r_post_count := Z.of_nat (length ps);
     r_last_poster :=
       first_name (order_by_desc (fun pu => p_timestamp pu.1) (posts_with_user db (t_id t)));
     r_last_post_time := sql_max (p_timestamp <$> ps);
     r_created_time := sql_min (p_timestamp <$> ps);
     r_thread_creator :=
       first_name (merge_sort (num_asc (fun pu => p_post_no pu.1))
                     (posts_with_user db (t_id t))) |}.

(** The optional [AND t.path LIKE ?] of a filter: absent when the
    parameter is falsy. *)
Definition path_filter (param : value) (pattern : string) (t : thread_row) : bool :=
  if truthy param then like pattern (t_path t) else true.

Definition language_pattern (language : value) : string :=
  "%/" +:+ to_string language +:+ "/%".

Definition category_pattern (category : value) : string :=
  "%/" +:+ to_string category.

Definition getThreads (db : Database) (language category : value) (limit offset : Z)
  : list thread_list_row :=
  let selected :=
    filter (fun t => path_filter language (language_pattern language) t
                     && path_filter category (category_pattern category) t)
           (threads db) in
  limit_offset limit offset
    (order_by_desc r_last_post_time (thread_list_row_of db <$> selected)).

(** [a LEFT JOIN b]: the matching rows of [b], or one NULL row. *)
Definition left_join {A} (rows : list A) : list (option A) :=
  match rows with
  | [] => [None]
  | _ => Some <$> rows
  end.

Record search_join : Type := {
  j_post : option post_row;
  j_u : option user_row;
  j_u2 : option user_row
}.

Definition j_timestamp (j : search_join) : option string := j_post j ≫= p_timestamp.

(** [(SELECT user_id FROM posts WHERE thread_id = t.id ORDER BY timestamp ASC LIMIT 1)] *)
Definition first_user_id (db : Database) (tid : Z) : option Z :=
  match order_by_asc p_timestamp (posts_of db tid) with
  | p :: _ => p_user_id p
  | [] => None
  end.

(** [ON p.user_id = u.id AND p.timestamp = (SELECT MAX(timestamp) ...)];
    a comparison with NULL does not hold. *)
Definition last_poster_on (latest : option string) (p : option post_row) (u : user_row)
  : bool :=
  match p with
  | Some p => bool_decide (p_user_id p = Some (u_id u))
              && bool_decide (is_Some (p_timestamp p))
              && bool_decide (p_timestamp p = latest)
  | None => false
  end.

(** The rows that the three LEFT JOINs of the search give one thread. *)
Definition search_join_rows (db : Database) (t : thread_row) : list search_join :=
  let latest := sql_max (p_timestamp <$> posts_of db (t_id t)) in
  p ← left_join (posts_of db (t_id t));
  u ← left_join (filter (fun u => last_poster_on latest p u) (users db));
  u2 ← left_join
         (filter (fun u2 => first_user_id db (t_id t) = Some (u_id u2)) (users db));
  [ {| j_post := p; j_u := u; j_u2 := u2 |} ].

(** The row of a group that lends its values to the columns outside
    the aggregates.  The engine leaves the choice open when a query
    has both MAX and MIN; the model takes the first row holding the
    maximum, and the first row when there is no maximum. *)
Definition bare_row (rows : list search_join) : option search_join :=
  let latest := sql_max (j_timestamp <$> rows) in
  match list_find (fun j => is_Some latest ∧ j_timestamp j = latest) rows with
  | Some (_, j) => Some j
  | None => head rows
  end.

(** One result row of the search: the group of [t] under
    [GROUP BY t.id, t.name, t.path]. *)
Definition search_row_of (db : Database) (matching : list thread_row) (t : thread_row)
  : thread_list_row :=
  let rows : list search_join :=
    t' ← filter (fun t' => t' = t) matching; search_join_rows db t' in
  let stamps := j_timestamp <$> rows in
  {| r_id := t_id t;
     r_name := t_name t;
     r_path := t_path t;
     r_post_count := Z.of_nat (length (filter (fun j => is_Some (j_post j)) rows));
     r_last_poster := (bare_row rows ≫= j_u) ≫= u_name;
     r_last_post_time := sql_max stamps;
     r_created_time := sql_min stamps;
     r_thread_creator := (bare_row rows ≫= j_u2) ≫= u_name |}.

Definition search_pattern (query : value) : string := "%" +:+ to_string query +:+ "%".

(** [t.name LIKE ? OR EXISTS (SELECT 1 FROM posts p2 WHERE p2.thread_id = t.id AND p2.message LIKE ?)] *)
Definition search_matches (db : Database) (query : value) (t : thread_row) : bool :=
  like (search_pattern query) (t_name t)
  || existsb (fun p2 => like_null (p_message p2) (search_pattern query))
             (posts_of db (t_id t)).

Definition search_selected (db : Database) (query language : value) : list thread_row :=
  filter (fun t => search_matches db query t
                   && path_filter language (language_pattern language) t)
         (threads db).

Definition searchThreads (db : Database) (query language : value) : list thread_list_row :=
  let matching := search_selected db query language in
  take 50
    (order_by_desc r_last_post_time (search_row_of db matching <$> remove_dups matching)).

(** A nullable column as the database driver hands it over. *)
Definition null_or_text (column : option string) : value :=
  match column with
  | Some s => VStr s
  | None => VNull
  end.

Definition null_or_num (column : option Z) : value :=
  match column with
  | Some n => VNum n
  | None => VNull
  end.

(** *** The posts of a thread *)

Record post_list_row : Type := {
  pl_post : post_row;
  pl_username : option string
}.

(** [SELECT p.*, u.name as username FROM posts p LEFT JOIN users u ON p.user_id = u.id] *)
Definition posts_left_join_users (db : Database) (threadId : Z) : list post_list_row :=
  p ← posts_of db threadId;
  u ← left_join (filter (fun u => p_user_id p = Some (u_id u)) (users db));
  [ {| pl_post := p; pl_username := u ≫= u_name |} ].

Definition getPosts (db : Database) (threadId limit offset : Z) : list post_list_row :=
  limit_offset limit offset
    (merge_sort (num_asc (fun r => p_post_no (pl_post r))) (posts_left_join_users db threadId)).

Definition post_row_object (r : post_list_row) : js :=
  Obj (list_to_map
         [ ("id", VNum (p_id (pl_post r)));
           ("thread_id", VNum (p_thread_id (pl_post r)));
           ("post_no", VNum (p_post_no (pl_post r)));
           ("user_id", null_or_num (p_user_id (pl_post r)));
           ("timestamp", null_or_text (p_timestamp (pl_post r)));
           ("message", null_or_text (p_message (pl_post r)));
           ("username", null_or_text (pl_username r)) ]).

(** ** The thread-list route *)

(** A result row as the database driver hands it over. *)
Definition row_object (r : thread_list_row) : js :=
  Obj (list_to_map
         [ ("id", VNum (r_id r));
           ("name", VStr (r_name r));
           ("path", VStr (r_path r));
           ("post_count", VNum (r_post_count r));
           ("last_poster", null_or_text (r_last_poster r));
           ("last_post_time", null_or_text (r_last_post_time r));
           ("created_time", null_or_text (r_created_time r));
           ("thread_creator", null_or_text (r_thread_creator r)) ]).

(** [req.query]: a parameter the request leaves out is [undefined]. *)
Record ThreadsQuery : Type := {
  q_language : value;
  q_category : value;
  q_search : value;
  q_page : value;
  q_limit : value
}.

(** The default of a destructuring pattern, [{ page = 1 }]. *)
Definition with_default (v d : value) : value :=
  match v with
  | VUndefined => d
  | _ => v
  end.

Record ThreadsFilters : Type := {
  f_language : value;
  f_category : value;
  f_search : value
}.

Record ThreadsData : Type := {
  d_threads : list (option ThreadApi.t);
  d_pagination : gmap string value;
  d_filters : ThreadsFilters
}.

(** The response envelope, without its wall-clock [timestamp]. *)
Record ApiResponse (A : Type) : Type := {
  success : bool;
  status : Z;
  message : string;
  data : option A;
  error : option string
}.
Arguments success {A} _.
Arguments status {A} _.
Arguments message {A} _.
Arguments data {A} _.
Arguments error {A} _.

Definition createApiResponse {A} (data : A) (message : string) (status : Z) : ApiResponse A :=
  {| success := (200 <=? status) && (status <? 300);
     status := status;
     message := message;
     data := Some data;
     error := None |}.

Definition createErrorResponse {A} (message : string) (status : Z) (details : option string)
  : ApiResponse A :=
  {| success := false;
     status := status;
     message := message;
     data := None;
     error := details |}.

Definition exn_message (e : exn) : string :=
  match e with
  | TypeError msg | LibraryError msg => msg
  end.

(** [router.get('/')] of the threads router. *)
Definition threadsRoute `{MomentLib} (db : Database) (query : ThreadsQuery)
  : ApiResponse ThreadsData :=
  let requestedPage := with_default (q_page query) (VNum 1) in
  let requestedLimit := with_default (q_limit query) (VNum 20) in
  let pagination := validatePagination requestedPage requestedLimit in
  let threads :=
    if truthy (q_search query)
    then searchThreads db (q_search query) (q_language query)
    else getThreads db (q_language query) (q_category query)
           (limit pagination) (offset pagination) in
  match cmap formatThreadForApi (row_object <$> threads) with
  | Normal formattedThreads =>
      createApiResponse
        {| d_threads := formattedThreads;
           d_pagination :=
             {[ "page" := VNum (page pagination);
                "limit" := VNum (limit pagination);
                "hasMore" := VBool (Z.of_nat (length formattedThreads)
                                    =? limit pagination) ]};
           d_filters := {| f_language := q_language query;
                           f_category := q_category query;
                           f_search := q_search query |} |}
        "Success" 200
  | Throw e =>
      createErrorResponse "Failed to fetch threads" 500 (Some (exn_message e))
  end.

(** The ids of the threads of a response, in order. *)
Definition response_ids (r : ApiResponse ThreadsData) : list value :=
  match data r with
  | Some d => (fun o => from_option ThreadApi.id VUndefined o) <$> d_threads d
  | None => []
  end.

Definition response_pagination (r : ApiResponse ThreadsData) : gmap string value :=
  match data r with
  | Some d => d_pagination d
  | None => ∅
  end.

(** How a formatted thread answers for its row. *)
Definition formats (r : thread_list_row) (o : option ThreadApi.t) : Prop :=
  ∃ a, o = Some a
       ∧ ThreadApi.id a = VNum (r_id r)
       ∧ ThreadApi.language a = language_of (r_path r).

(** The rows the route asks the database for. *)
Definition route_rows (db : Database) (query : ThreadsQuery) : list thread_list_row :=
  let pagination :=
    validatePagination (with_default (q_page query) (VNum 1))
                       (with_default (q_limit query) (VNum 20)) in
  if truthy (q_search query)
  then searchThreads db (q_search query) (q_language query)
  else getThreads db (q_language query) (q_category query)
         (limit pagination) (offset pagination).

(** ** The statements of the specification *)

(** [needle] occurs in [s]. *)
Definition substring_of (needle s : string) : Prop :=
  ∃ pre post, s = pre +:+ needle +:+ post.

(** The recognised language segments, in the order they are checked. *)
Definition languageTokens : list (string * string) :=
  [ ("/Español/", "Español");
    ("/English/", "English");
    ("/Português/", "Português");
    ("/Deutsch/", "Deutsch");
    ("/Français/", "Français");
    ("/Italiano/", "Italiano") ].

Definition no_slash (s : string) : Prop := ¬ substring_of "/" s.

(** Category resolution as the specification words it: the path
    without the constant prefix and the resolved language segment,
    as the category queries of the database module cut it,
    [SUBSTR(path, LENGTH(prefix) + LENGTH(language) + 2)]. *)
Definition categoryPrefix : string := "Calendar/Champions of Regnum/".

Definition drop_string (n : nat) (s : string) : string :=
  String.substring n (String.length s - n) s.

Definition category_remainder (path : string) : string :=
  drop_string (String.length categoryPrefix + String.length (language_of path) + 1) path.

Definition category_claimed (path : string) : value :=
  if decide (4 ≤ length (split slash path))%nat
  then VStr (category_remainder path)
  else VStr "General".


(** The sort key the specification names for a search: the latest
    timestamp among the posts of the thread that match the term. *)
Definition latest_matching_time (db : Database) (query : value) (r : thread_list_row)
  : option string :=
  sql_max (p_timestamp <$>
           filter (fun p => like_null (p_message p) (search_pattern query))
                  (posts_of db (r_id r))).


(** The pagination object the specification expects for page 2 of 45
    threads at 20 a page. *)
Definition claimed_pagination : gmap string value :=
  {[ "page" := VNum 2; "limit" := VNum 20; "totalPages" := VNum 3;
     "hasNext" := VBool true; "hasPrev" := VBool true ]}.

(** [s] has the character [sep]. *)
Definition has_char (sep : ascii) (s : string) : Prop :=
  ∃ pre post, s = pre +:+ String sep post.

(** A guest post: no user row carries its user id. *)
Definition guest_post (db : Database) (p : post_row) : Prop :=
  ∀ u, u ∈ users db → p_user_id p ≠ Some (u_id u).

Definition digit_at (s : string) (i : nat) : option Z :=
  c ← String.get i s; digit_of 10 c.

Definition two_digits (s : string) (i : nat) : option Z :=
  a ← digit_at s i; b ← digit_at s (i + 1); Some (10 * a + b).

(** The instant a timestamp text of the archive's shape,
    "05-09-2008, 09:39 PM" (day, month, year, 12-hour time), stands
    for, as a number that grows with time; [None] for another shape. *)
Definition timestamp_instant (s : string) : option Z :=
  day ← two_digits s 0;
  month ← two_digits s 3;
  century ← two_digits s 6;
  year ← two_digits s 8;
  hour ← two_digits s 12;
  minute ← two_digits s 15;
  meridiem ← String.get 18 s;
  let afternoon := if Ascii.eqb meridiem "P" then 12 else 0 in
  Some (((((100 * century + year) * 12 + month) * 31 + day) * 24
         + (hour mod 12 + afternoon)) * 60 + minute).



(** ** Sample data *)

(** A date library that knows a table of inputs: an entry
    (timestamp, format, rendering) is a successful parse. *)
Definition table_moment (table : list (string * string * string)) : MomentLib :=
  {| moment_t := option string;
     moment := fun input fmt =>
       Normal (snd <$> list_find (fun e => VStr e.1.1 = input ∧ e.1.2 = fmt) table
               ≫= fun e => Some e.2);
     isValid := fun dt => bool_decide (is_Some dt);
     format := fun dt _ => Normal (default "Invalid date" dt) |}.

(** A date library whose parser always throws. *)
Definition throwing_moment : MomentLib :=
  {| moment_t := unit;
     moment := fun _ _ => Throw (LibraryError "parse");
     isValid := fun _ => true;
     format := fun _ _ => Throw (LibraryError "format") |}.

(** A sanitiser that keeps nothing of its input. *)
Definition blank_sanitizer : SanitizeHtmlLib :=
  {| sanitizeHtml := fun _ _ => "" |}.

Definition sample_moment : MomentLib :=
  table_moment
    [ ("05-09-2008, 09:39 PM", "DD-MM-YYYY, hh:mm A", "Sep 5, 2008 at 9:39 PM");
      ("2008-09-05 09:39 PM", "YYYY-MM-DD hh:mm A", "Sep 5, 2008 at 9:39 PM") ].

Definition english_path : string := "Calendar/Champions of Regnum/English/General discussion".

(** 45 threads of the English forum, one post each, thread [i] last
    active at minute [60 - i], and 5 threads of the Spanish forum. *)
Definition sample_threads : list thread_row :=
  ((fun i => {| t_id := i; t_name := "Thread " +:+ pretty i; t_path := english_path |})
     <$> seqZ 1 45)
  ++ ((fun i => {| t_id := i; t_name := "Hilo " +:+ pretty i;
                   t_path := "Calendar/Champions of Regnum/Español/Discusión general" |})
        <$> seqZ 46 5).

Definition sample_posts : list post_row :=
  (fun i => {| p_id := 1000 + i; p_thread_id := i; p_post_no := 1;
               p_user_id := Some 7;
               p_timestamp := Some ("05-09-2008, 09:" +:+ pretty (60 - i) +:+ " PM");
               p_message := Some "<p>hello</p>" |})
    <$> seqZ 1 50.

Definition sample_db : Database :=
  {| threads := sample_threads;
     posts := sample_posts;
     users := [ {| u_id := 7; u_name := Some "Kailer" |} ] |}.

Definition english_page_two : ThreadsQuery :=
  {| q_language := VStr "English";
     q_category := VUndefined;
     q_search := VUndefined;
     q_page := VStr "2";
     q_limit := VStr "20" |}.

(** Two threads for the search: the first matches in an old post and
    has a later post that does not match, the second matches in a
    post between the two. *)
Definition search_db : Database :=
  {| threads :=
       [ {| t_id := 1; t_name := "Trade"; t_path := english_path |};
         {| t_id := 2; t_name := "Guilds"; t_path := english_path |} ];
     posts :=
       [ {| p_id := 1; p_thread_id := 1; p_post_no := 1; p_user_id := Some 7;
            p_timestamp := Some "01-01-2008, 09:00 PM"; p_message := Some "dragon sword" |};
         {| p_id := 2; p_thread_id := 1; p_post_no := 2; p_user_id := None;
            p_timestamp := Some "09-01-2008, 09:00 PM"; p_message := Some "sold" |};
         {| p_id := 3; p_thread_id := 2; p_post_no := 1; p_user_id := Some 7;
            p_timestamp := Some "05-01-2008, 09:00 PM"; p_message := Some "dragon raid" |} ];
     users := [ {| u_id := 7; u_name := Some "Kailer" |} ] |}.

(** The row of a guest post: the join found no user. *)
Definition guest_fields : gmap string value :=
  list_to_map
    [ ("id", VNum 2); ("thread_id", VNum 1); ("post_no", VNum 2); ("user_id", VNull);
      ("timestamp", VStr "05-09-2008, 09:39 PM"); ("message", VStr "sold");
      ("username", VNull) ].

(** Two threads with one matching post each: the first posted on
    6 January 2007, the second on 5 September 2008. *)
Definition calendar_db : Database :=
  {| threads :=
       [ {| t_id := 1; t_name := "Old dragon"; t_path := english_path |};
         {| t_id := 2; t_name := "New dragon"; t_path := english_path |} ];
     posts :=
       [ {| p_id := 1; p_thread_id := 1; p_post_no := 1; p_user_id := Some 7;
            p_timestamp := Some "06-01-2007, 10:15 AM"; p_message := Some "dragon" |};
         {| p_id := 2; p_thread_id := 2; p_post_no := 1; p_user_id := Some 7;
            p_timestamp := Some "05-09-2008, 09:39 PM"; p_message := Some "dragon" |} ];
     users := [ {| u_id := 7; u_name := Some "Kailer" |} ] |}.

(** ** Text helpers of the helper module and of the client *)

(** [truncateText] counts in UTF-16 code units ([length], [substr]):
    there a text is the list of its code units. *)
Inductive text_arg : Type :=
  | TextUndefined
  | TextNull
  | Text (units : list N).

Definition less_than_sign : N := 60.
Definition greater_than_sign : N := 62.
Definition full_stop : N := 46.

(** The rest of a text behind its first [>], if it has one. *)
Fixpoint behind_greater_than (s : list N) : option (list N) :=
  match s with
  | [] => None
  | c :: s' => if (c =? greater_than_sign)%N then Some s' else behind_greater_than s'
  end.

(** [text.replace(/<[^>]*>/g, '')], read from left to right.
    [pending] holds, last unit first, what has been read since a [<]
    that no [>] has closed yet: a [>] drops it, the end of the text
    gives it back, since no match starts at a [<] without a later [>]. *)
Fixpoint strip_tags_from (pending : option (list N)) (s : list N) : list N :=
  match s with
  | [] =>
      match pending with
      | Some held => rev held
      | None => []
      end
  | c :: s' =>
      match pending with
      | None =>
          if (c =? less_than_sign)%N then strip_tags_from (Some [c]) s'
          else c :: strip_tags_from None s'
      | Some held =>
          if (c =? greater_than_sign)%N then strip_tags_from None s'
          else strip_tags_from (Some (c :: held)) s'
      end
  end.

Definition strip_tags (s : list N) : list N := strip_tags_from None s.

(** [truncateText(text, length = 100)]; an omitted [length] is [None]. *)
Definition truncateText (text : text_arg) (length : option Z) : list N :=
  let length := default 100 length in
  match text with
  | TextUndefined | TextNull | Text [] => []
  | Text s =>
      let plainText := strip_tags s in
      if Z.of_nat (List.length plainText) <=? length then plainText
      else take (Z.to_nat length) plainText ++ [full_stop; full_stop; full_stop]
  end.

(** The syntax characters of a regular expression,
    [. * + ? ^ $ { } ( ) | [ ] \]. *)
Definition regex_special (c : ascii) : bool :=
  bool_decide (c ∈ list_ascii_of_string ".*+?^${}()|[]\").

(** [string.replace(/[.*+?^${}()|[\]\\]/g, '\\$&')] *)
Fixpoint escapeRegex (s : string) : string :=
  match s with
  | EmptyString => EmptyString
  | String c s' =>
      if regex_special c then String "\" (String c (escapeRegex s'))
      else String c (escapeRegex s')
  end.

(** The text that a pattern made of pattern characters and of escaped
    syntax characters matches; [None] for a pattern with other syntax. *)
Fixpoint literal_of_pattern (pattern : string) : option string :=
  match pattern with
  | EmptyString => Some EmptyString
  | String c rest =>
      if Ascii.eqb c "\" then
        match rest with
        | String d rest' =>
            if regex_special d then String d <$> literal_of_pattern rest' else None
        | EmptyString => None
        end
      else if regex_special c then None
      else String c <$> literal_of_pattern rest
  end.

(** A text in two parts, the first without [<], the second without [>]. *)
Definition tagless (out : list N) : Prop :=
  ∃ a b, out = (a ++ b)%list ∧ (less_than_sign ∉ a) ∧ (greater_than_sign ∉ b).

(** The code units of a text of ASCII characters. *)
Definition ascii_units (s : string) : list N := N_of_ascii <$> list_ascii_of_string s.

(** ** Further statements about the queries *)

(** The thread list before [LIMIT] and [OFFSET]. *)
Definition thread_listing (db : Database) (language category : value) : list thread_list_row :=
  order_by_desc r_last_post_time
    (thread_list_row_of db
       <$> filter (fun t => path_filter language (language_pattern language) t
                            && path_filter category (category_pattern category) t)
                  (threads db)).

(** The wildcards of [LIKE]. *)
Definition wildcard (c : ascii) : bool := Ascii.eqb c "%" || Ascii.eqb c "_".

(** A text without wildcards. *)
Fixpoint literal (s : string) : bool :=
  match s with
  | EmptyString => true
  | String c s' => negb (wildcard c) && literal s'
  end.

(** ** The routes of one thread *)

(** [SELECT * FROM threads WHERE id = ?], the first row; a row has
    the columns that the code reads. *)
Definition getThread (db : Database) (threadId : Z) : option thread_row :=
  head (filter (fun t => t_id t = threadId) (threads db)).

(** [SELECT COUNT( * ) as count FROM posts WHERE thread_id = ?] *)
Definition getPostCount (db : Database) (threadId : Z) : Z :=
  Z.of_nat (length (posts_of db threadId)).

Definition thread_object (t : thread_row) : js :=
  Obj (list_to_map
         [ ("id", VNum (t_id t)); ("name", VStr (t_name t)); ("path", VStr (t_path t)) ]).

(** [!id || id < 1], for the result of [parseInt]. *)
Definition invalid_id (id : option Z) : bool :=
  match id with
  | Some n => (n =? 0) || (n <? 1)
  | None => true
  end.

(** The properties of a formatted thread, as the spread copies them. *)
Definition thread_api_object (a : ThreadApi.t) : gmap string value :=
  list_to_map
    [ ("id", ThreadApi.id a); ("name", ThreadApi.name a); ("path", ThreadApi.path a);
      ("language", VStr (ThreadApi.language a)); ("category", ThreadApi.category a);
      ("postCount", ThreadApi.postCount a); ("lastPoster", ThreadApi.lastPoster a);
      ("lastPostTime", ThreadApi.lastPostTime a); ("createdTime", ThreadApi.createdTime a);
      ("threadCreator", ThreadApi.threadCreator a) ].

(** [{ ...formatted, postCount }]; the spread of [null] adds nothing. *)
Definition spread_with_postCount (formatted : option ThreadApi.t) (postCount : Z)
  : gmap string value :=
  <[ "postCount" := VNum postCount ]> (from_option thread_api_object ∅ formatted).

(** [router.get('/:id')] of the threads router; [id] is the text of
    the route parameter. *)
Definition threadRoute `{MomentLib} (db : Database) (id : string)
  : ApiResponse (gmap string value) :=
  let threadId := parseInt (VStr id) in
  if invalid_id threadId then createErrorResponse "Invalid thread ID" 400 None
  else
    match getThread db (default 0 threadId) with
    | None => createErrorResponse "Thread not found" 404 None
    | Some thread =>
        let postCount := getPostCount db (default 0 threadId) in
        match formatThreadForApi (thread_object thread) with
        | Normal formatted =>
            createApiResponse (spread_with_postCount formatted postCount) "Success" 200
        | Throw e =>
            createErrorResponse "Failed to fetch thread" 500 (Some (exn_message e))
        end
    end.

Record PostsData : Type := {
  pd_posts : list (option PostApi.t);
  pd_thread : option ThreadApi.t;
  pd_pagination : gmap string value
}.

(** [router.get('/:id/posts')] of the threads router. *)
Definition threadPostsRoute `{MomentLib} `{SanitizeHtmlLib} (db : Database) (id : string)
    (q_page q_limit : value) : ApiResponse PostsData :=
  let threadId := parseInt (VStr id) in
  let requestedPage := with_default q_page (VNum 1) in
  let requestedLimit := with_default q_limit (VNum 20) in
  if invalid_id threadId then createErrorResponse "Invalid thread ID" 400 None
  else
    let pagination := validatePagination requestedPage requestedLimit in
    match getThread db (default 0 threadId) with
    | None => createErrorResponse "Thread not found" 404 None
    | Some thread =>
        let posts := getPosts db (default 0 threadId) (limit pagination) (offset pagination) in
        let totalPosts := getPostCount db (default 0 threadId) in
        match formattedPosts ← cmap formatPostForApi (post_row_object <$> posts);
              formattedThread ← formatThreadForApi (thread_object thread);
              Normal (formattedPosts, formattedThread) with
        | Normal (formattedPosts, formattedThread) =>
            createApiResponse
              {| pd_posts := formattedPosts;
                 pd_thread := formattedThread;
                 pd_pagination :=
                   {[ "page" := VNum (page pagination);
                      "limit" := VNum (limit pagination);
                      "totalPages" := VNum (ceil_div totalPosts (limit pagination));
                      "totalPosts" := VNum totalPosts;
                      "hasMore" := VBool (offset pagination + Z.of_nat (length posts)
                                          <? totalPosts);
                      "hasPrev" := VBool (1 <? page pagination) ]} |}
              "Success" 200
        | Throw e =>
            createErrorResponse "Failed to fetch thread posts" 500 (Some (exn_message e))
        end
    end.

(** ** Users *)

#[global] Instance user_row_eq_dec : EqDecision user_row.
Proof. solve_decision. Defined.

Record user_list_row : Type := {
  ul_id : Z;
  ul_name : option string;
  ul_thread_count : Z;
  ul_post_count : Z;
  ul_first_post : option string;
  ul_last_post : option string
}.

(** [u.name IS NOT NULL AND u.name != '' AND u.id > 0], and
    [AND u.name LIKE ?] when there is a search term. *)
Definition user_listed (search : value) (u : user_row) : bool :=
  match u_name u with
  | Some name =>
      negb (String.eqb name "") && (0 <? u_id u)
      && (if truthy search then like (search_pattern search) name else true)
  | None => false
  end.

Definition posts_by (db : Database) (userId : Z) : list post_row :=
  filter (fun p => p_user_id p = Some userId) (posts db).

(** [users u INNER JOIN posts p ON u.id = p.user_id WHERE ...] *)
Definition users_join_posts (db : Database) (search : value) : list (user_row * post_row) :=
  u ← filter (fun u => user_listed search u) (users db);
  p ← posts_by db (u_id u);
  [(u, p)].

(** The row of the group of [u] under [GROUP BY u.id, u.name]. *)
Definition user_list_row_of (joined : list (user_row * post_row)) (u : user_row)
  : user_list_row :=
  let ps := snd <$> filter (fun up => up.1 = u) joined in
  {| ul_id := u_id u;
     ul_name := u_name u;
     ul_thread_count := Z.of_nat (length (remove_dups (p_thread_id <$> ps)));
     ul_post_count := Z.of_nat (length ps);
     ul_first_post := sql_min (p_timestamp <$> ps);
     ul_last_post := sql_max (p_timestamp <$> ps) |}.

(** [ORDER BY key DESC] on a number. *)
Definition num_desc {A} (key : A -> Z) : relation A := fun a b => key b <= key a.

#[global] Instance num_desc_dec {A} (key : A -> Z) : RelDecision (num_desc key).
Proof. intros a b. unfold num_desc. apply _. Defined.

(** The user list before [LIMIT] and [OFFSET]. *)
Definition user_listing (db : Database) (search : value) : list user_list_row :=
  let joined := users_join_posts db search in
  merge_sort (num_desc ul_post_count)
    (user_list_row_of joined <$> remove_dups (fst <$> joined)).

Definition getUserList (db : Database) (limit offset : Z) (search : value)
  : list user_list_row :=
  limit_offset limit offset (user_listing db search).

(** [SELECT COUNT(DISTINCT u.id)] over the same join. *)
Definition getUserCount (db : Database) (search : value) : Z :=
  Z.of_nat (length (remove_dups ((fun up => u_id up.1) <$> users_join_posts db search))).

Record user_stats_row : Type := {
  us_id : Z;
  us_name : option string;
  us_total_posts : Z;
  us_total_threads : Z;
  us_first_post : option string;
  us_last_post : option string
}.

(** The user row, and the statistics of the posts with that user id
    spread over it; [None] is [null]. *)
Definition getUserWithStats (db : Database) (userId : Z) : option user_stats_row :=
  match head (filter (fun u => u_id u = userId) (users db)) with
  | None => None
  | Some user =>
      let ps := posts_by db userId in
      Some {| us_id := u_id user;
              us_name := u_name user;
              us_total_posts := Z.of_nat (length ps);
              us_total_threads := Z.of_nat (length (remove_dups (p_thread_id <$> ps)));
              us_first_post := sql_min (p_timestamp <$> ps);
              us_last_post := sql_max (p_timestamp <$> ps) |}
  end.


Definition user_stats_object (r : user_stats_row) : js :=
  Obj (list_to_map
         [ ("id", VNum (us_id r));
           ("name", null_or_text (us_name r));
           ("total_posts", VNum (us_total_posts r));
           ("total_threads", VNum (us_total_threads r));
           ("first_post", null_or_text (us_first_post r));
           ("last_post", null_or_text (us_last_post r)) ]).



(** [router.get('/:id')] of the users router. *)
Definition userRoute `{MomentLib} (db : Database) (id : string)
  : ApiResponse (option UserApi.t) :=
  let userId := parseInt (VStr id) in
  if invalid_id userId then createErrorResponse "Invalid user ID" 400 None
  else
    match getUserWithStats db (default 0 userId) with
    | None => createErrorResponse "User not found" 404 None
    | Some user =>
        match formatUserForApi (user_stats_object user) with
        | Normal formattedUser => createApiResponse formattedUser "Success" 200
        | Throw e => createErrorResponse "Failed to fetch user" 500 (Some (exn_message e))
        end
    end.


(** ** The posts and the threads of a user *)

Record user_post_row : Type := {
  up_post : post_row;
  up_thread : thread_row
}.

(** [posts p INNER JOIN threads t ON p.thread_id = t.id WHERE p.user_id = ?
    ORDER BY p.timestamp DESC LIMIT ? OFFSET ?] *)
Definition getUserPosts (db : Database) (userId limit offset : Z) : list user_post_row :=
  limit_offset limit offset
    (order_by_desc (fun r => p_timestamp (up_post r))
       (p ← posts_by db userId;
        t ← filter (fun t => p_thread_id p = t_id t) (threads db);
        [ {| up_post := p; up_thread := t |} ])).

(** The columns that the query selects: neither the user id nor a
    user name is among them. *)
Definition user_post_object (r : user_post_row) : js :=
  Obj (list_to_map
         [ ("id", VNum (p_id (up_post r)));
           ("thread_id", VNum (p_thread_id (up_post r)));
           ("post_no", VNum (p_post_no (up_post r)));
           ("timestamp", null_or_text (p_timestamp (up_post r)));
           ("message", null_or_text (p_message (up_post r)));
           ("thread_name", VStr (t_name (up_thread r)));
           ("thread_path", VStr (t_path (up_thread r))) ]).

(** [user.total_posts || 0] *)
Definition count_or_zero (n : Z) : Z := if n =? 0 then 0 else n.

Record UserPostsData : Type := {
  upd_posts : list (option PostApi.t);
  upd_user : option UserApi.t;
  upd_pagination : gmap string value
}.

(** [router.get('/:id/posts')] of the users router. *)
Definition userPostsRoute `{MomentLib} `{SanitizeHtmlLib} (db : Database) (id : string)
    (q_page q_limit : value) : ApiResponse UserPostsData :=
  let userId := parseInt (VStr id) in
  let requestedPage := with_default q_page (VNum 1) in
  let requestedLimit := with_default q_limit (VNum 20) in
  if invalid_id userId then createErrorResponse "Invalid user ID" 400 None
  else
    let pagination := validatePagination requestedPage requestedLimit in
    match getUserWithStats db (default 0 userId) with
    | None => createErrorResponse "User not found" 404 None
    | Some user =>
        let posts := getUserPosts db (default 0 userId) (limit pagination) (offset pagination) in
        let totalPosts := count_or_zero (us_total_posts user) in
        match formattedPosts ← cmap formatPostForApi (user_post_object <$> posts);
              formattedUser ← formatUserForApi (user_stats_object user);
              Normal (formattedPosts, formattedUser) with
        | Normal (formattedPosts, formattedUser) =>
            createApiResponse
              {| upd_posts := formattedPosts;
                 upd_user := formattedUser;
                 upd_pagination :=
                   {[ "page" := VNum (page pagination);
                      "limit" := VNum (limit pagination);
                      "totalPages" := VNum (ceil_div totalPosts (limit pagination));
                      "totalPosts" := VNum totalPosts;
                      "hasMore" := VBool (offset pagination + Z.of_nat (length posts)
                                          <? totalPosts);
                      "hasPrev" := VBool (1 <? page pagination) ]} |}
              "Success" 200
        | Throw e =>
            createErrorResponse "Failed to fetch user posts" 500 (Some (exn_message e))
        end
    end.

Record user_thread_row : Type := {
  ut_thread : thread_row;
  ut_post_count : Z;
  ut_first_post : option string;
  ut_last_post : option string
}.

(** [SELECT thread_id, MIN(timestamp) as first_post FROM posts
    WHERE user_id = ? GROUP BY thread_id] *)
Definition user_thread_groups (db : Database) (userId : Z) : list (Z * option string) :=
  (fun tid =>
     (tid, sql_min (p_timestamp <$> filter (fun p => p_thread_id p = tid)
                                      (posts_by db userId))))
    <$> remove_dups (p_thread_id <$> posts_by db userId).

(** [SELECT thread_id, COUNT( * ) as post_count, MAX(timestamp) as last_post
    FROM posts GROUP BY thread_id] *)
Definition thread_counts (db : Database) : list (Z * Z * option string) :=
  (fun tid => (tid, Z.of_nat (length (posts_of db tid)),
               sql_max (p_timestamp <$> posts_of db tid)))
    <$> remove_dups (p_thread_id <$> posts db).

Definition getUserThreads (db : Database) (userId limit offset : Z) : list user_thread_row :=
  let up := limit_offset limit offset (order_by_desc snd (user_thread_groups db userId)) in
  order_by_desc ut_first_post
    (g ← up;
     t ← filter (fun t => g.1 = t_id t) (threads db);
     tc ← filter (fun tc => t_id t = tc.1.1) (thread_counts db);
     [ {| ut_thread := t; ut_post_count := tc.1.2;
          ut_first_post := g.2; ut_last_post := tc.2 |} ]).

(** The columns that the query selects; the times are under
    [first_post] and [last_post]. *)
Definition user_thread_object (r : user_thread_row) : js :=
  Obj (list_to_map
         [ ("id", VNum (t_id (ut_thread r)));
           ("name", VStr (t_name (ut_thread r)));
           ("path", VStr (t_path (ut_thread r)));
           ("post_count", VNum (ut_post_count r));
           ("first_post", null_or_text (ut_first_post r));
           ("last_post", null_or_text (ut_last_post r)) ]).

Record UserThreadsData : Type := {
  utd_threads : list (option ThreadApi.t);
  utd_user : option UserApi.t;
  utd_pagination : gmap string value
}.

(** [router.get('/:id/threads')] of the users router. *)
Definition userThreadsRoute `{MomentLib} (db : Database) (id : string)
    (q_page q_limit : value) : ApiResponse UserThreadsData :=
  let userId := parseInt (VStr id) in
  let requestedPage := with_default q_page (VNum 1) in
  let requestedLimit := with_default q_limit (VNum 20) in
  if invalid_id userId then createErrorResponse "Invalid user ID" 400 None
  else
    let pagination := validatePagination requestedPage requestedLimit in
    match getUserWithStats db (default 0 userId) with
    | None => createErrorResponse "User not found" 404 None
    | Some user =>
        let threads :=
          getUserThreads db (default 0 userId) (limit pagination) (offset pagination) in
        let totalThreads := count_or_zero (us_total_threads user) in
        match formattedThreads ← cmap formatThreadForApi (user_thread_object <$> threads);
              formattedUser ← formatUserForApi (user_stats_object user);
              Normal (formattedThreads, formattedUser) with
        | Normal (formattedThreads, formattedUser) =>
            createApiResponse
              {| utd_threads := formattedThreads;
                 utd_user := formattedUser;
                 utd_pagination :=
                   {[ "page" := VNum (page pagination);
                      "limit" := VNum (limit pagination);
                      "totalPages" := VNum (ceil_div totalThreads (limit pagination));
                      "totalThreads" := VNum totalThreads;
                      "hasMore" := VBool (offset pagination + Z.of_nat (length threads)
                                          <? totalThreads);
                      "hasPrev" := VBool (1 <? page pagination) ]} |}
              "Success" 200
        | Throw e =>
            createErrorResponse "Failed to fetch user threads" 500 (Some (exn_message e))
        end
    end.

(** What the users router makes of a post of a user. *)
Definition user_post_formats (db : Database) (o : option PostApi.t) : Prop :=
  ∃ a, o = Some a
       ∧ PostApi.username a = VStr "Guest"
       ∧ PostApi.userId a = VUndefined
       ∧ ∃ t, t ∈ threads db
              ∧ PostApi.threadId a = VNum (t_id t)
              ∧ PostApi.threadName a = VStr (t_name t)
              ∧ PostApi.threadPath a = VStr (t_path t).

(** What the users router makes of a thread of a user with the id
    [userId]. *)
Definition user_thread_formats (db : Database) (userId : Z) (o : option ThreadApi.t) : Prop :=
  ∃ a t, o = Some a
         ∧ t ∈ threads db
         ∧ ThreadApi.id a = VNum (t_id t)
         ∧ ThreadApi.language a = language_of (t_path t)
         ∧ ThreadApi.postCount a = VNum (Z.of_nat (length (posts_of db (t_id t))))
         ∧ (∃ p, p ∈ posts db ∧ p_thread_id p = t_id t ∧ p_user_id p = Some userId)
         ∧ ThreadApi.lastPostTime a = VNull
         ∧ ThreadApi.createdTime a = VNull
         ∧ ThreadApi.lastPoster a = VUndefined
         ∧ ThreadApi.threadCreator a = VUndefined.

(** A user who answered in a thread of another: the thread is among
    the threads of the user, with both posts counted and no times,
    and the post of the user is labelled "Guest". *)
Definition reply_db : Database :=
  {| threads := [ {| t_id := 1; t_name := "Trade"; t_path := english_path |} ];
     posts :=
       [ {| p_id := 1; p_thread_id := 1; p_post_no := 1; p_user_id := Some 3;
            p_timestamp := Some "01-01-2008, 09:00 PM"; p_message := Some "selling" |};
         {| p_id := 2; p_thread_id := 1; p_post_no := 2; p_user_id := Some 7;
            p_timestamp := Some "02-01-2008, 09:00 PM"; p_message := Some "buying" |} ];
     users := [ {| u_id := 3; u_name := Some "Anpu" |};
                {| u_id := 7; u_name := Some "Kailer" |} ] |}.

(** ** The languages of the archive *)

(** The [CASE] of the queries: the language of the first pattern
    that the path is [LIKE]. *)
Definition sql_language (path : string) : string :=
  if like "%/Español/%" path then "Español"
  else if like "%/English/%" path then "English"
  else if like "%/Português/%" path then "Português"
  else if like "%/Deutsch/%" path then "Deutsch"
  else if like "%/Français/%" path then "Français"
  else if like "%/Italiano/%" path then "Italiano"
  else "Other".

(** The order of texts, by their bytes. *)
Definition text_asc : relation string := fun a b => String.leb a b = true.

#[global] Instance text_asc_dec : RelDecision text_asc.
Proof. intros a b. unfold text_asc. apply _. Defined.

(** [SELECT DISTINCT CASE ... END as language FROM threads
    WHERE language != 'Other' ORDER BY language]; the table has no
    column of the name [language], which so is the [CASE]. *)
Definition getLanguages (db : Database) : list string :=
  merge_sort text_asc
    (remove_dups (filter (fun l => l ≠ "Other") (sql_language <$> (t_path <$> threads db)))).

(** ** The categories of a language *)

(** [LENGTH] and [SUBSTR] count in characters: a character is a
    byte and, behind a byte from 0xC0 up, the continuation bytes that
    follow it.  [absorbing] says that such a run is going on. *)

Fixpoint sql_length_from (absorbing : bool) (s : string) : nat :=
  match s with
  | EmptyString => 0%nat
  | String c s' =>
      if absorbing && is_continuation c then sql_length_from true s'
      else S (sql_length_from (is_lead c) s')
  end.

Definition sql_length (s : string) : Z := Z.of_nat (sql_length_from false s).

(** The text behind the first [n] characters. *)
Fixpoint sql_drop_from (absorbing : bool) (n : nat) (s : string) : string :=
  match s with
  | EmptyString => s
  | String c s' =>
      if absorbing && is_continuation c then sql_drop_from true n s'
      else match n with
           | O => s
           | S n' => sql_drop_from (is_lead c) n' s'
           end
  end.

(** [SUBSTR(s, start)], for [start] from 1 up. *)
Definition sql_substr (s : string) (start : Z) : string :=
  sql_drop_from false (Z.to_nat (start - 1)) s.

Record category_row : Type := {
  c_category : string;
  c_thread_count : Z
}.

(** [ORDER BY key] on a text that is not NULL. *)
Definition asc_on {A} (key : A -> string) : relation A :=
  fun a b => text_asc (key a) (key b).

#[global] Instance asc_on_dec {A} (key : A -> string) : RelDecision (asc_on key).
Proof. intros a b. unfold asc_on. apply _. Defined.

Definition categories_pattern (language : value) : string :=
  "Calendar/Champions of Regnum/"
  +:+ (if truthy language then to_string language else "%") +:+ "/%".

(** [SUBSTR(path, LENGTH('Calendar/Champions of Regnum/') + LENGTH(?) + 2)],
    with [language || ''] for the parameter. *)
Definition category_column (language : value) (path : string) : string :=
  sql_substr path
    (sql_length "Calendar/Champions of Regnum/"
     + sql_length (if truthy language then to_string language else "") + 2).

(** [SELECT DISTINCT SUBSTR(...) as category, COUNT( * ) as thread_count
    FROM threads WHERE path LIKE ? GROUP BY category ORDER BY category] *)
Definition getCategories (db : Database) (language : value) : list category_row :=
  let selected :=
    filter (fun t => like (categories_pattern language) (t_path t)) (threads db) in
  merge_sort (asc_on c_category)
    ((fun c =>
        {| c_category := c;
           c_thread_count :=
             Z.of_nat (length (filter (fun t => category_column language (t_path t) = c)
                                      selected)) |})
       <$> remove_dups (category_column language <$> (t_path <$> selected))).

(** The sum of a column of numbers. *)
Definition total_of (counts : list Z) : Z := foldr Z.add 0 counts.

(** ** The activity of the years *)

(** [SUBSTR(s, -k)]: the last [k] characters, or all of a shorter
    text. *)
Definition sql_substr_last (s : string) (k : nat) : string :=
  sql_drop_from false (sql_length_from false s - k) s.

(** The [CASE] of the yearly statistics; a NULL timestamp is not
    [LIKE] anything. *)
Definition year_of (timestamp : option string) : string :=
  match timestamp with
  | Some ts =>
      if like "%-%-%" ts && (10 <=? sql_length ts) then sql_substr_last ts 4 else "Unknown"
  | None => "Unknown"
  end.

(** [year != 'Unknown' AND year BETWEEN '2005' AND '2025'], on
    texts. *)
Definition year_counted (year : string) : bool :=
  negb (String.eqb year "Unknown") && String.leb "2005" year && String.leb year "2025".

Record year_row : Type := {
  y_year : string;
  y_post_count : Z
}.

(** [SELECT CASE ... END as year, COUNT( * ) as post_count FROM posts
    WHERE ... GROUP BY year ORDER BY year]; the table has no column
    of the name [year], which so is the [CASE]. *)
Definition getYearlyStats (db : Database) : list year_row :=
  let years := filter (fun y => year_counted y) (year_of <$> (p_timestamp <$> posts db)) in
  merge_sort (asc_on y_year)
    ((fun y => {| y_year := y;
                  y_post_count := Z.of_nat (length (filter (fun y' => y' = y) years)) |})
       <$> remove_dups years).

Record ActivityInsights : Type := {
  totalYears : Z;
  totalPosts : Z;
  peakYear : string;
  peakYearPosts : Z;
  averagePostsPerYear : Z
}.

(** [Math.round(a / b)] for [a] from 0 up and [b] above 0: the
    nearest whole number, the upper one of two. *)
Definition round_div (a b : Z) : Z := (2 * a + b) / (2 * b).

(** The insights of [router.get('/activity')] of the statistics
    router, from the rows of the yearly statistics. *)
Definition activityInsights (yearlyStats : list year_row) : ActivityInsights :=
  let totalActivityPosts :=
    fold_left (fun sum year => sum + y_post_count year) yearlyStats 0 in
  let peak :=
    fold_left (fun peak year => if y_post_count peak <? y_post_count year then year else peak)
      yearlyStats {| y_year := "N/A"; y_post_count := 0 |} in
  {| totalYears := Z.of_nat (length yearlyStats);
     totalPosts := totalActivityPosts;
     peakYear := y_year peak;
     peakYearPosts := y_post_count peak;
     averagePostsPerYear :=
       if 0 <? Z.of_nat (length yearlyStats)
       then round_div totalActivityPosts (Z.of_nat (length yearlyStats))
       else 0 |}.

(** A database with timestamps that end in the year. *)
Definition dated_db : Database :=
  {| threads := [ {| t_id := 1; t_name := "Trade"; t_path := english_path |} ];
     posts :=
       (fun '(i, ts) =>
          {| p_id := i; p_thread_id := 1; p_post_no := i; p_user_id := Some 7;
             p_timestamp := ts; p_message := None |})
         <$> [ (1, Some "09:39 PM 05-09-2008"); (2, Some "10:15 AM 06-01-2007");
               (3, Some "11:00 AM 07-01-2007"); (4, Some "05-09-2008, 09:39 PM");
               (5, None); (6, Some "08:00 AM 01-02-2008"); (7, Some "08:00 AM 01-02-1999");
               (8, Some "2009") ];
     users := [ {| u_id := 7; u_name := Some "Kailer" |} ] |}.

(** A timestamp that is NULL or ends in AM or PM, as the primary
    format has it. *)
Definition meridiem_time (timestamp : option string) : Prop :=
  timestamp = None
  ∨ ∃ body, timestamp = Some (body +:+ " AM") ∨ timestamp = Some (body +:+ " PM").

(** ** Validation on the client *)

Record ClientPagination : Type := {
  cp_page : Z;
  cp_limit : Z
}.

(** [validatePagination(page, limit = 20)] of the client. *)
Definition clientValidatePagination (page limit : value) : ClientPagination :=
  let limit := with_default limit (VNum 20) in
  {| cp_page := Z.max 1 (num_or (parseInt page) 1);
     cp_limit := Z.min 100 (Z.max 1 (num_or (parseInt limit) 20)) |}.

(** ** The ranking of the users *)

Record active_user_row : Type := {
  au_name : option string;
  au_post_count : Z
}.

(** [u.name IS NOT NULL AND u.name != ''] *)
Definition user_named (u : user_row) : bool :=
  match u_name u with
  | Some name => negb (String.eqb name "")
  | None => false
  end.

(** [SELECT u.name, COUNT(p.id) as post_count FROM users u
    JOIN posts p ON u.id = p.user_id WHERE ... GROUP BY u.id, u.name
    ORDER BY post_count DESC LIMIT ?] *)
Definition getMostActiveUsers (db : Database) (limit : Z) : list active_user_row :=
  let joined : list (user_row * post_row) :=
    u ← filter (fun u => user_named u) (users db);
    p ← posts_by db (u_id u);
    [(u, p)] in
  limit_offset limit 0
    (merge_sort (num_desc au_post_count)
       ((fun u => {| au_name := u_name u;
                     au_post_count :=
                       Z.of_nat (length (filter (fun up => up.1 = u) joined)) |})
          <$> remove_dups (fst <$> joined))).

Record RankedUser : Type := {
  ru_name : value;
  ru_post_count : Z;
  ru_rank : Z;
  ru_medal : option string
}.

Definition medals : list string := ["🥇"; "🥈"; "🥉"].

(** [router.get('/users')] of the statistics router; a medal of
    [None] is [null]. *)
Definition statsUsersRoute (db : Database) (q_limit : value) : ApiResponse (list RankedUser) :=
  let requestedLimit := with_default q_limit (VNum 20) in
  let validatedLimit := Z.min 100 (Z.max 1 (num_or (parseInt requestedLimit) 20)) in
  let mostActiveUsers := getMostActiveUsers db validatedLimit in
  createApiResponse
    (imap (fun index user =>
             {| ru_name := null_or_text (au_name user);
                ru_post_count := au_post_count user;
                ru_rank := Z.of_nat index + 1;
                ru_medal := if (index <? 3)%nat then medals !! index else None |})
          mostActiveUsers)
    "Success" 200.

(** ** The categories of all languages *)

Record all_category_row : Type := {
  ac_language : string;
  ac_category : string;
  ac_thread_count : Z;
  ac_post_count : Z
}.

(** The two columns that the overview groups by: the [CASE] and the
    path behind the prefix, as many characters as the [CASE] has,
    and one more. *)
Definition overview_key (t : thread_row) : string * string :=
  (sql_language (t_path t),
   sql_substr (t_path t)
     (sql_length "Calendar/Champions of Regnum/"
      + sql_length (sql_language (t_path t)) + 2)).

(** [threads t LEFT JOIN posts p ON t.id = p.thread_id
    WHERE language != 'Other'] *)
Definition threads_join_posts (db : Database) : list (thread_row * option post_row) :=
  t ← filter (fun t => sql_language (t_path t) ≠ "Other") (threads db);
  p ← left_join (posts_of db (t_id t));
  [(t, p)].

(** [ORDER BY language, thread_count DESC] *)
Definition overview_order : relation all_category_row :=
  fun a b =>
    if String.eqb (ac_language a) (ac_language b)
    then ac_thread_count b <= ac_thread_count a
    else text_asc (ac_language a) (ac_language b).

#[global] Instance overview_order_dec : RelDecision overview_order.
Proof.
intros a b. unfold overview_order.
destruct (String.eqb (ac_language a) (ac_language b)); apply _.
Defined.

(** [SELECT DISTINCT CASE ... END as language, SUBSTR(...) as category,
    COUNT( * ) as thread_count,
    COUNT(CASE WHEN p.id IS NOT NULL THEN 1 END) as post_count
    ... GROUP BY language, category]: both counts are taken over the
    rows of the join; the tables have no columns of the names
    [language] and [category], which so are the two expressions. *)
Definition getAllCategories (db : Database) : list all_category_row :=
  let joined := threads_join_posts db in
  merge_sort overview_order
    ((fun k =>
        let group := filter (fun tp => overview_key tp.1 = k) joined in
        {| ac_language := k.1;
           ac_category := k.2;
           ac_thread_count := Z.of_nat (length group);
           ac_post_count :=
             Z.of_nat (length (filter (fun tp => is_Some tp.2) group)) |})
       <$> remove_dups ((fun tp => overview_key tp.1) <$> joined)).

(** ** The bounds of a request *)

(** [Number.MAX_SAFE_INTEGER]: up to it a double holds every integer,
    prints it in decimal, and [parseInt] is exact. *)
Definition max_safe_integer : Z := 2 ^ 53 - 1.

Definition safe_integer (n : Z) : Prop := - max_safe_integer ≤ n ≤ max_safe_integer.

(** A page whose item numbers are safe integers; its offset is far
    below 2^63. *)
Definition safe_pagination (v : Pagination) : Prop :=
  page v * limit v ≤ max_safe_integer.

(** A route parameter that does not parse to a number above the safe
    integers. *)
Definition safe_id (id : string) : Prop :=
  ∀ n, parseInt (VStr id) = Some n → n ≤ max_safe_integer.

(** A text without the byte 0. *)
Fixpoint nul_free (s : string) : bool :=
  match s with
  | EmptyString => true
  | String c s' => negb (N_of_ascii c =? 0)%N && nul_free s'
  end.


(** A value whose number, if it is one, is a safe integer: a
    parameter of a query string is a text or [undefined]. *)
Definition safe_value (v : value) : Prop :=
  match v with
  | VNum n => safe_integer n
  | _ => True
  end.



(** * Properties *)

(** ** Strings *)

Lemma append_cons (c : ascii) (s1 s2 : string) :
  String c s1 +:+ s2 = String c (s1 +:+ s2).
Proof. reflexivity. Qed.

Lemma append_empty_l (s : string) : "" +:+ s = s.
Proof. reflexivity. Qed.

Lemma prefix_spec (p s : string) :
  String.prefix p s = true ↔ ∃ post, s = p +:+ post.
Proof.
revert s. induction p as [|c p IH]; intros s.
- destruct s; simpl; split; eauto.
- destruct s as [|d s]; simpl.
  + split; [discriminate | intros [post H]; discriminate].
  + setoid_rewrite append_cons.
    destruct (ascii_dec c d) as [->|Hne].
    * rewrite IH. split; intros [post H]; exists post; congruence.
    * split; [discriminate | intros [post H]; congruence].
Qed.

Lemma includes_spec (s needle : string) :
  includes s needle = true ↔ substring_of needle s.
Proof.
unfold substring_of. induction s as [|c s IH]; cbn [includes].
- rewrite orb_false_r, prefix_spec. split.
  + intros [post H]. exists "", post. exact H.
  + intros ([|d pre] & post & H); [eauto | discriminate].
- rewrite orb_true_iff, prefix_spec, IH. split.
  + intros [[post H] | (pre & post & H)].
    * exists "", post. exact H.
    * exists (String c pre), post. rewrite append_cons. congruence.
  + intros ([|d pre] & post & H).
    * left. eauto.
    * right. exists pre, post. rewrite append_cons in H. congruence.
Qed.

Lemma includes_false (s needle : string) :
  includes s needle = false ↔ ¬ substring_of needle s.
Proof. rewrite <- includes_spec. destruct (includes s needle); intuition congruence. Qed.

(** ** Language resolution *)

Lemma getLanguageFromPath_string (path : string) :
  getLanguageFromPath (VStr path) = Normal (language_of path).
Proof. reflexivity. Qed.

(** The chain of tests is a first-match search in the token table. *)
Lemma language_of_find (path : string) :
  language_of path
  = match list_find (fun e => includes path e.1 = true) languageTokens with
    | Some (_, e) => e.2
    | None => "Other"
    end.
Proof.
unfold language_of, languageTokens. cbn [list_find fst snd].
repeat match goal with
       | |- context [includes path ?tok] => destruct (includes path tok)
       end; reflexivity.
Qed.

(** C2: for a path string containing a recognised language segment,
    resolution returns the language of the first token, in the fixed
    order Español, English, Português, Deutsch, Français, Italiano,
    that occurs in the path; for a path containing none of the six it
    returns "Other"; on a string it always returns a string and does
    not throw. *)
Theorem getLanguageFromPath_first_match (path : string) :
  (∀ (i : nat) tok lang,
     languageTokens !! i = Some (tok, lang) →
     substring_of tok path →
     (∀ (j : nat) tok' lang', (j < i)%nat → languageTokens !! j = Some (tok', lang') →
        ¬ substring_of tok' path) →
     getLanguageFromPath (VStr path) = Normal lang)
  ∧ ((∀ tok lang, (tok, lang) ∈ languageTokens → ¬ substring_of tok path) →
     getLanguageFromPath (VStr path) = Normal "Other")
  ∧ (∃ lang, getLanguageFromPath (VStr path) = Normal lang).
Proof.
rewrite getLanguageFromPath_string, language_of_find.
split; [|split].
- intros i tok lang Hi Hin Hbefore.
  assert (Hfind : list_find (fun e => includes path e.1 = true) languageTokens
                  = Some (i, (tok, lang))).
  { apply list_find_Some. split; [exact Hi|]. split.
    - apply includes_spec. exact Hin.
    - intros j [tok' lang'] Hj Hlt. rewrite includes_spec. eauto. }
  rewrite Hfind. reflexivity.
- intros Hnone.
  assert (Hfind : list_find (fun e => includes path e.1 = true) languageTokens = None).
  { apply list_find_None, Forall_forall. intros [tok lang] Hel.
    rewrite includes_spec. eauto. }
  rewrite Hfind. reflexivity.
- eauto.
Qed.

(** The two-token case: a path with both the Spanish and the English
    segment, in either order of appearance, resolves to Español. *)
Example getLanguageFromPath_two_tokens :
  getLanguageFromPath (VStr "Calendar/English/Español/x") = Normal "Español"
  ∧ getLanguageFromPath (VStr "Calendar/Español/English/x") = Normal "Español"
  ∧ getLanguageFromPath (VStr "Calendar/english/x") = Normal "Other"
  ∧ getLanguageFromPath VNull
    = Throw (TypeError "Cannot read properties of undefined or null, reading includes").
Proof. repeat split; vm_compute; reflexivity. Qed.

(** Three paths of the archive: both segments present, one present, none. *)
Lemma getLanguageFromPath_first_match_witness :
  getLanguageFromPath (VStr "Calendar/Champions of Regnum/English/Español/Trade")
  = Normal "Español"
  ∧ getLanguageFromPath (VStr "Calendar/Champions of Regnum/English/General discussion")
    = Normal "English"
  ∧ getLanguageFromPath (VStr "Calendar/Champions of Regnum/Nederlands/Algemeen")
    = Normal "Other".
Proof.
split; [|split].
- apply (proj1 (getLanguageFromPath_first_match _) 0%nat "/Español/" "Español").
  + reflexivity.
  + exists "Calendar/Champions of Regnum/English", "Trade". reflexivity.
  + intros j tok' lang' Hlt. lia.
- apply (proj1 (getLanguageFromPath_first_match _) 1%nat "/English/" "English").
  + reflexivity.
  + exists "Calendar/Champions of Regnum", "General discussion". reflexivity.
  + intros [|j] tok' lang' Hlt Hj; [|lia]. injection Hj as <- <-.
    apply includes_false. reflexivity.
- apply (proj1 (proj2 (getLanguageFromPath_first_match _))).
  intros tok lang Hel. apply includes_false.
  repeat (apply elem_of_cons in Hel as [Heq | Hel]; [injection Heq as -> ->; reflexivity|]).
  inversion Hel.
Defined.

(** ** Category resolution *)

Section Split.
Variable sep : ascii.

Lemma has_char_cons (c : ascii) (s : string) :
  has_char sep (String c s) ↔ c = sep ∨ has_char sep s.
Proof.
unfold has_char. split.
- intros ([|d pre] & post & H).
  + left. rewrite append_empty_l in H. congruence.
  + right. rewrite append_cons in H. exists pre, post. congruence.
- intros [-> | (pre & post & ->)].
  + exists "", s. reflexivity.
  + exists (String c pre), post. reflexivity.
Qed.

Lemma has_char_empty : ¬ has_char sep "".
Proof. intros ([|d pre] & post & H); discriminate. Qed.

Lemma split_not_nil (s : string) : split sep s ≠ [].
Proof.
induction s as [|c s IH]; cbn [split]; [discriminate|].
destruct (Ascii.eqb c sep); [discriminate|].
destruct (split sep s); [congruence | discriminate].
Qed.

Lemma split_length_pos (s : string) : (1 ≤ length (split sep s))%nat.
Proof. pose proof (split_not_nil s). destruct (split sep s); simpl; [congruence | lia]. Qed.

Lemma split_cons_sep (s : string) : split sep (String sep s) = "" :: split sep s.
Proof. cbn [split]. rewrite Ascii.eqb_refl. reflexivity. Qed.

Lemma split_cons_other (c : ascii) (s : string) :
  c ≠ sep →
  ∃ part parts, split sep s = part :: parts ∧ split sep (String c s) = String c part :: parts.
Proof.
intros Hne. cbn [split]. apply Ascii.eqb_neq in Hne. rewrite Hne.
pose proof (split_not_nil s). destruct (split sep s) as [|part parts]; [congruence|].
eauto.
Qed.

(** A string without the separator is one part. *)
Lemma split_without (s : string) : ¬ has_char sep s → split sep s = [s].
Proof.
induction s as [|c s IH]; intros Hno; [reflexivity|].
rewrite has_char_cons in Hno.
destruct (split_cons_other c s) as (part & parts & Hs & Hcs); [tauto|].
rewrite Hcs. rewrite IH in Hs by tauto. congruence.
Qed.

(** The part before the first separator. *)
Lemma split_app (a b : string) :
  ¬ has_char sep a → split sep (a +:+ String sep b) = a :: split sep b.
Proof.
induction a as [|c a IH]; intros Hno.
- rewrite append_empty_l. apply split_cons_sep.
- rewrite has_char_cons in Hno. rewrite append_cons.
  destruct (split_cons_other c (a +:+ String sep b)) as (part & parts & Hs & Hcs); [tauto|].
  rewrite Hcs. rewrite IH in Hs by tauto. congruence.
Qed.

(** The last part: it has no separator, and it is what follows the
    last separator of the string. *)
Lemma split_last (s : string) :
  ∃ cat, last (split sep s) = Some cat
         ∧ ¬ has_char sep cat
         ∧ ((length (split sep s) = 1%nat ∧ s = cat)
            ∨ ((2 ≤ length (split sep s))%nat ∧ ∃ pre, s = pre +:+ String sep cat)).
Proof.
induction s as [|c s (cat & Hlast & Hno & Hshape)].
- exists "". split; [reflexivity|]. split; [apply has_char_empty|]. left. split; reflexivity.
- destruct (decide (c = sep)) as [->|Hne].
  + rewrite split_cons_sep. exists cat. split.
    * pose proof (split_not_nil s). destruct (split sep s); [congruence | exact Hlast].
    * split; [exact Hno|]. right. split.
      { pose proof (split_length_pos s). simpl. lia. }
      destruct Hshape as [[_ ->] | [_ [pre ->]]].
      -- exists "". reflexivity.
      -- exists (String sep pre). reflexivity.
  + destruct (split_cons_other c s Hne) as (part & parts & Hs & Hcs).
    rewrite Hcs. rewrite Hs in Hlast, Hshape.
    destruct parts as [|part' parts].
    * simpl in Hlast. injection Hlast as ->.
      exists (String c cat). split; [reflexivity|]. split.
      { rewrite has_char_cons. tauto. }
      left. split; [reflexivity|].
      destruct Hshape as [[_ ->] | [Hlen _]]; [reflexivity | simpl in Hlen; lia].
    * exists cat. split; [exact Hlast|]. split; [exact Hno|]. right. split.
      { simpl. lia. }
      destruct Hshape as [[Hlen _] | [_ [pre ->]]]; [simpl in Hlen; lia|].
      exists (String c pre). reflexivity.
Qed.

End Split.

Lemma at_index_last (parts : list string) (cat : string) :
  last parts = Some cat → at_index parts (Z.of_nat (length parts) - 1) = VStr cat.
Proof.
intros Hlast. unfold at_index. rewrite last_lookup in Hlast.
destruct parts as [|p parts]; [discriminate|].
rewrite (proj2 (Z.ltb_ge _ _)) by (simpl length; lia).
replace (Z.to_nat (Z.of_nat (length (p :: parts)) - 1)) with (pred (length (p :: parts)))
  by (simpl length; lia).
rewrite Hlast. reflexivity.
Qed.

Lemma getCategoryFromPath_string (path : string) :
  getCategoryFromPath (VStr path)
  = Normal (if decide (4 ≤ length (split slash path))%nat
            then from_option VStr VUndefined (last (split slash path))
            else VStr "General").
Proof.
unfold getCategoryFromPath. cbn [as_string_receiver mbind completion_bind].
destruct (split_last slash path) as (cat & Hlast & _).
destruct (decide (4 ≤ length (split slash path))%nat) as [Hge|Hlt].
- rewrite (proj2 (Z.leb_le _ _)) by lia.
  rewrite (at_index_last _ cat Hlast), Hlast. reflexivity.
- rewrite (proj2 (Z.leb_gt _ _)) by lia.
  reflexivity.
Qed.

Lemma no_slash_has_char (s : string) : no_slash s ↔ ¬ has_char slash s.
Proof. reflexivity. Qed.

(** C3, as the code has it: a path of at least four slash-delimited
    segments resolves to its last segment, the text after the last
    slash; a path of fewer than four resolves to "General".  Under
    the constant prefix and one language segment, that last segment is
    the remainder of the path whenever the remainder has no slash. *)
Theorem getCategoryFromPath_last_segment (path : string) :
  ((4 ≤ length (split slash path))%nat →
     ∃ pre cat, path = pre +:+ "/" +:+ cat ∧ no_slash cat
                ∧ getCategoryFromPath (VStr path) = Normal (VStr cat))
  ∧ ((length (split slash path) < 4)%nat →
     getCategoryFromPath (VStr path) = Normal (VStr "General"))
  ∧ (∀ lang cat, no_slash lang → no_slash cat →
       path = categoryPrefix +:+ lang +:+ "/" +:+ cat →
       getCategoryFromPath (VStr path) = Normal (VStr cat)).
Proof.
rewrite getCategoryFromPath_string. split; [|split].
- intros Hge. rewrite decide_True by exact Hge.
  destruct (split_last slash path) as (cat & Hlast & Hno & [[Hlen _] | [_ [pre Hpath]]]);
    [lia|].
  exists pre, cat. rewrite Hlast. auto.
- intros Hlt. rewrite decide_False by lia. reflexivity.
- intros lang cat Hlang Hcat ->.
  change (categoryPrefix +:+ lang +:+ "/" +:+ cat)
    with ("Calendar" +:+ String slash ("Champions of Regnum" +:+ String slash
            (lang +:+ String slash cat))).
  assert (Hfixed : ∀ a, includes a "/" = false → ¬ has_char slash a).
  { intros a Ha. apply includes_false in Ha. exact Ha. }
  rewrite (split_app slash "Calendar") by (apply Hfixed; reflexivity).
  rewrite (split_app slash "Champions of Regnum") by (apply Hfixed; reflexivity).
  rewrite (split_app slash lang) by exact Hlang.
  rewrite split_without by exact Hcat. reflexivity.
Qed.

(** A path one level deeper than the four segments: the code returns
    the last segment, not the remainder behind the language segment. *)
Lemma getCategoryFromPath_remainder_counterexample :
  getCategoryFromPath (VStr "Calendar/Champions of Regnum/English/Guilds/Recruitment")
  ≠ Normal (category_claimed "Calendar/Champions of Regnum/English/Guilds/Recruitment").
Proof. vm_compute. discriminate. Qed.

Example getCategoryFromPath_samples :
  getCategoryFromPath (VStr "Calendar/Champions of Regnum/English/Guilds/Recruitment")
    = Normal (VStr "Recruitment")
  ∧ category_claimed "Calendar/Champions of Regnum/English/Guilds/Recruitment"
    = VStr "Guilds/Recruitment"
  ∧ getCategoryFromPath (VStr "Calendar/Champions of Regnum/Español/Discusión general")
    = Normal (VStr "Discusión general")
  ∧ getCategoryFromPath (VStr "a/b/c") = Normal (VStr "General")
  ∧ getCategoryFromPath (VStr "a/b/c/") = Normal (VStr "").
Proof. repeat split; vm_compute; reflexivity. Qed.

(** A path of four segments under the constant prefix, and a path of two. *)
Lemma getCategoryFromPath_last_segment_witness :
  getCategoryFromPath (VStr "Calendar/Champions of Regnum/English/General discussion")
  = Normal (VStr "General discussion")
  ∧ getCategoryFromPath (VStr "Calendar/Champions of Regnum") = Normal (VStr "General").
Proof.
split.
- apply (proj2 (proj2 (getCategoryFromPath_last_segment _)) "English" "General discussion").
  + apply includes_false. reflexivity.
  + apply includes_false. reflexivity.
  + reflexivity.
- apply (proj1 (proj2 (getCategoryFromPath_last_segment _))). vm_compute. lia.
Defined.

(** ** Pagination *)

Lemma ceil_div_bounds (a b : Z) :
  0 < b → (ceil_div a b - 1) * b < a ≤ ceil_div a b * b.
Proof.
intros Hb. unfold ceil_div.
pose proof (Z.div_mod (- a) b ltac:(lia)) as Hdm.
pose proof (Z.mod_pos_bound (- a) b Hb) as Hr.
nia.
Qed.

(** [Math.ceil(a / b)] is the least count of pages of [b] that hold [a]. *)
Lemma ceil_div_least (a b q : Z) : 0 < b → a ≤ q * b → ceil_div a b ≤ q.
Proof. intros Hb Hq. pose proof (ceil_div_bounds a b Hb). nia. Qed.


Lemma validatePagination_bounds (requestedPage requestedLimit : value) :
  let v := validatePagination requestedPage requestedLimit in
  1 ≤ page v ∧ 1 ≤ limit v ≤ 100 ∧ offset v = (page v - 1) * limit v ∧ 0 ≤ offset v.
Proof. unfold validatePagination. cbn [page limit offset]. nia. Qed.

Example validatePagination_samples :
  (parseInt (VStr "2"), parseInt (VStr " -7px"), parseInt (VStr "0x1f"), parseInt (VStr "1e3"),
   parseInt (VStr "abc"), parseInt (VStr ""), parseInt (VNum 20), parseInt VUndefined,
   parseInt (VStr (String (ascii_of_N 194) (String (ascii_of_N 160) "12"))))
  = (Some 2, Some (-7), Some 31, Some 1, None, None, Some 20, None, Some 12)
  ∧ validatePagination VUndefined VUndefined = {| page := 1; limit := 20; offset := 0 |}
  ∧ validatePagination (VNum 1) (VNum 20) = {| page := 1; limit := 20; offset := 0 |}
  ∧ validatePagination (VStr "0") (VStr "0") = {| page := 1; limit := 20; offset := 0 |}
  ∧ validatePagination (VStr "-4") (VStr "-4") = {| page := 1; limit := 1; offset := 0 |}
  ∧ validatePagination (VStr "3") (VStr "250") = {| page := 3; limit := 100; offset := 200 |}.
Proof. repeat split; vm_compute; reflexivity. Qed.



Example paginationCalculator_samples :
  paginationCalculator (VStr "2") (VStr "20") 45
  = {| calc_page := 2; calc_limit := 20; calc_offset := 20; calc_totalPages := 3;
       calc_hasNext := true; calc_hasPrev := true;
       calc_startItem := 21; calc_endItem := 40 |}
  ∧ paginationCalculator (VStr "-3") (VStr "1000") 45
    = {| calc_page := 1; calc_limit := 100; calc_offset := 0; calc_totalPages := 1;
         calc_hasNext := false; calc_hasPrev := false;
         calc_startItem := 1; calc_endItem := 45 |}
  ∧ paginationCalculator VUndefined (VStr "0") 0
    = {| calc_page := 1; calc_limit := 20; calc_offset := 0; calc_totalPages := 0;
         calc_hasNext := false; calc_hasPrev := false;
         calc_startItem := 1; calc_endItem := 0 |}.
Proof. repeat split; vm_compute; reflexivity. Qed.

(** ** Timestamp normalisation *)

Section Formatting.
Context {date_library : MomentLib} {sanitizer : SanitizeHtmlLib}.

Lemma first_parse_none (timestamp : value) (formats : list string) :
  Forall (rejects timestamp) formats → first_parse timestamp formats = Normal None.
Proof.
induction 1 as [|fmt rest (dt & Hdt & Hinv) _ IH]; [reflexivity|].
cbn [first_parse]. rewrite Hdt. cbn [mbind completion_bind]. rewrite Hinv. exact IH.
Qed.

Lemma first_parse_first (timestamp : value) (before after : list string) fmt dt :
  Forall (rejects timestamp) before →
  moment timestamp fmt = Normal dt →
  isValid dt = true →
  first_parse timestamp (before ++ fmt :: after)%list = Normal (Some dt).
Proof.
intros Hbefore Hdt Hvalid.
induction Hbefore as [|fmt' rest (dt' & Hdt' & Hinv) _ IH]; cbn [first_parse app].
- rewrite Hdt. cbn [mbind completion_bind]. rewrite Hvalid. reflexivity.
- rewrite Hdt'. cbn [mbind completion_bind]. rewrite Hinv. exact IH.
Qed.

(** The loop over the alternative formats is a first-match search
    followed by one rendering. *)
Lemma try_formats_first_parse (timestamp : value) (formats : list string) :
  try_formats timestamp formats
  = (r ← first_parse timestamp formats;
     match r with
     | Some dt => s ← format dt canonicalFormat; Normal (Some s)
     | None => Normal None
     end).
Proof.
induction formats as [|fmt rest IH]; [reflexivity|].
cbn [try_formats first_parse mbind completion_bind].
destruct (moment timestamp fmt) as [dt|e]; [|reflexivity].
cbn [mbind completion_bind]. destruct (isValid dt); [reflexivity | exact IH].
Qed.

Lemma formatTimestamp_falsy (timestamp : value) :
  truthy timestamp = false → formatTimestamp timestamp = Normal (VStr "Unknown").
Proof. intros Hf. unfold formatTimestamp. rewrite Hf. reflexivity. Qed.

(** The [try]/[catch] makes the normaliser total. *)
Lemma formatTimestamp_returns (timestamp : value) :
  ∃ v, formatTimestamp timestamp = Normal v.
Proof.
unfold formatTimestamp. destruct (truthy timestamp); cbn [negb]; [|eauto].
unfold try_catch.
match goal with |- ∃ v, match ?body with _ => _ end = _ => destruct body end; eauto.
Qed.

Lemma formatTimestamp_refines (timestamp : string) :
  timestamp ≠ "" →
  formatTimestamp (VStr timestamp) = Normal (formatTimestamp_spec timestamp).
Proof.
intros Hne.
assert (Htruthy : truthy (VStr timestamp) = true).
{ cbn [truthy]. apply negb_true_iff, String.eqb_neq. exact Hne. }
unfold formatTimestamp, formatTimestamp_spec, knownFormats.
rewrite Htruthy. cbn [negb first_parse].
destruct (moment (VStr timestamp) primaryFormat) as [dt|e];
  cbn [mbind completion_bind try_catch]; [|reflexivity].
destruct (isValid dt).
- destruct (format dt canonicalFormat); reflexivity.
- rewrite try_formats_first_parse.
  destruct (first_parse (VStr timestamp) alternativeFormats) as [[dt'|]|e];
    cbn [mbind completion_bind]; try reflexivity.
  destruct (format dt' canonicalFormat); reflexivity.
Qed.

(** C7, as the code has it: for every timestamp string other than the
    empty one, the normaliser tries the five formats in their fixed
    order, the day-month-year format with an AM/PM time first; at the
    first format that parses it returns the rendering in the one
    canonical format; when none parses it returns the string
    unchanged; it never throws. *)
Theorem formatTimestamp_ordered_formats (timestamp : string) :
  timestamp ≠ "" →
  knownFormats = [ "DD-MM-YYYY, hh:mm A"; "MM-DD-YYYY, hh:mm A"; "DD/MM/YYYY, hh:mm A";
                   "MM/DD/YYYY, hh:mm A"; "YYYY-MM-DD hh:mm A" ]
  ∧ formatTimestamp (VStr timestamp) = Normal (formatTimestamp_spec timestamp)
  ∧ (∀ (before : list string) fmt after dt s,
       knownFormats = (before ++ fmt :: after)%list →
       Forall (rejects (VStr timestamp)) before →
       moment (VStr timestamp) fmt = Normal dt →
       isValid dt = true →
       format dt canonicalFormat = Normal s →
       formatTimestamp (VStr timestamp) = Normal (VStr s))
  ∧ (Forall (rejects (VStr timestamp)) knownFormats →
     formatTimestamp (VStr timestamp) = Normal (VStr timestamp))
  ∧ (∃ v, formatTimestamp (VStr timestamp) = Normal v).
Proof.
intros Hne. rewrite (formatTimestamp_refines timestamp Hne).
split; [reflexivity|]. split; [reflexivity|]. split; [|split].
- intros before fmt after dt s Hformats Hbefore Hdt Hvalid Hrender.
  unfold formatTimestamp_spec.
  rewrite Hformats, (first_parse_first _ before after fmt dt Hbefore Hdt Hvalid), Hrender.
  reflexivity.
- intros Hnone. unfold formatTimestamp_spec.
  rewrite (first_parse_none _ _ Hnone). reflexivity.
- eauto.
Qed.

(** ** Result formatters *)

Lemma timestamp_or_null_returns (v : value) : ∃ r, timestamp_or_null v = Normal r.
Proof. unfold timestamp_or_null. destruct (truthy v); [apply formatTimestamp_returns | eauto]. Qed.

Lemma timestamp_or_null_falsy (v : value) :
  truthy v = false → timestamp_or_null v = Normal VNull.
Proof. intros Hf. unfold timestamp_or_null. rewrite Hf. reflexivity. Qed.

(** C6: each of the three formatters returns null for [null] and for
    [undefined], without throwing. *)
Theorem formatters_null_input :
  formatThreadForApi (Prim VNull) = Normal None
  ∧ formatThreadForApi (Prim VUndefined) = Normal None
  ∧ formatUserForApi (Prim VNull) = Normal None
  ∧ formatUserForApi (Prim VUndefined) = Normal None
  ∧ formatPostForApi (Prim VNull) = Normal None
  ∧ formatPostForApi (Prim VUndefined) = Normal None.
Proof. repeat split; reflexivity. Qed.

Lemma absent_falsy (v : value) : absent v → truthy v = false.
Proof. intros [-> | ->]; reflexivity. Qed.

Lemma formatPostForApi_object (fields : gmap string value) :
  ∃ timestamp,
    timestamp_or_null (prop (Obj fields) "timestamp") = Normal timestamp
    ∧ formatPostForApi (Obj fields)
      = Normal (Some
          {| PostApi.id := prop (Obj fields) "id";
             PostApi.threadId := prop (Obj fields) "thread_id";
             PostApi.postNo := prop (Obj fields) "post_no";
             PostApi.userId := prop (Obj fields) "user_id";
             PostApi.username := js_or (prop (Obj fields) "username") (VStr "Guest");
             PostApi.timestamp := timestamp;
             PostApi.message := sanitizeHtmlContent (prop (Obj fields) "message");
             PostApi.threadName := prop (Obj fields) "thread_name";
             PostApi.threadPath := prop (Obj fields) "thread_path" |}).
Proof.
destruct (timestamp_or_null_returns (prop (Obj fields) "timestamp")) as [ts Hts].
exists ts. split; [exact Hts|].
unfold formatPostForApi. cbn [js_truthy negb]. rewrite Hts. reflexivity.
Qed.

Lemma formatPostForApi_absent_username (fields : gmap string value) :
  absent (prop (Obj fields) "username") →
  ∃ r, formatPostForApi (Obj fields) = Normal (Some r)
       ∧ PostApi.username r = VStr "Guest".
Proof.
intros Habsent.
destruct (formatPostForApi_object fields) as (ts & _ & ->).
eexists. split; [reflexivity|].
cbn [PostApi.username]. unfold js_or. rewrite (absent_falsy _ Habsent). reflexivity.
Qed.

(** C9: a post row whose [username] is NULL or missing, as the join
    leaves it for a guest post, is formatted with the username
    "Guest", not with [null] or [undefined]. *)
Theorem formatPostForApi_guest (fields : gmap string value) :
  absent (prop (Obj fields) "username") →
  ∃ r, formatPostForApi (Obj fields) = Normal (Some r)
       ∧ PostApi.username r = VStr "Guest"
       ∧ PostApi.username r ≠ VNull ∧ PostApi.username r ≠ VUndefined.
Proof.
intros Habsent.
destruct (formatPostForApi_absent_username fields Habsent) as (r & Hr & Hguest).
exists r. rewrite Hguest. repeat split; [exact Hr | discriminate | discriminate].
Qed.

Lemma formatUserForApi_object (fields : gmap string value) :
  ∃ firstPost lastPost,
    timestamp_or_null (prop (Obj fields) "first_post") = Normal firstPost
    ∧ timestamp_or_null (prop (Obj fields) "last_post") = Normal lastPost
    ∧ ∃ r, formatUserForApi (Obj fields) = Normal (Some r)
           ∧ UserApi.firstPost r = firstPost ∧ UserApi.lastPost r = lastPost.
Proof.
destruct (timestamp_or_null_returns (prop (Obj fields) "first_post")) as [fp Hfp].
destruct (timestamp_or_null_returns (prop (Obj fields) "last_post")) as [lp Hlp].
exists fp, lp. split; [exact Hfp|]. split; [exact Hlp|].
unfold formatUserForApi. cbn [js_truthy negb]. rewrite Hfp, Hlp.
eexists. split; [reflexivity|]. split; reflexivity.
Qed.

Lemma formatThreadForApi_object (fields : gmap string value) (p : string) :
  prop (Obj fields) "path" = VStr p →
  ∃ lastPostTime createdTime,
    timestamp_or_null (prop (Obj fields) "last_post_time") = Normal lastPostTime
    ∧ timestamp_or_null (prop (Obj fields) "created_time") = Normal createdTime
    ∧ ∃ r, formatThreadForApi (Obj fields) = Normal (Some r)
           ∧ ThreadApi.id r = prop (Obj fields) "id"
           ∧ ThreadApi.language r = language_of p
           ∧ ThreadApi.lastPostTime r = lastPostTime
           ∧ ThreadApi.createdTime r = createdTime.
Proof.
intros Hpath.
destruct (timestamp_or_null_returns (prop (Obj fields) "last_post_time")) as [lt Hlt].
destruct (timestamp_or_null_returns (prop (Obj fields) "created_time")) as [ct Hct].
exists lt, ct. split; [exact Hlt|]. split; [exact Hct|].
unfold formatThreadForApi. cbn [js_truthy negb].
rewrite Hpath, getLanguageFromPath_string, getCategoryFromPath_string.
cbn [mbind completion_bind]. rewrite Hlt, Hct. cbn [mbind completion_bind].
eexists. split; [reflexivity|]. repeat split; reflexivity.
Qed.

(** C10: on [null], [undefined] and the empty string the normaliser
    returns "Unknown"; the formatters do not call it for an absent
    timestamp field and put [null] in its place. *)
Theorem absent_timestamp_fields :
  formatTimestamp VNull = Normal (VStr "Unknown")
  ∧ formatTimestamp VUndefined = Normal (VStr "Unknown")
  ∧ formatTimestamp (VStr "") = Normal (VStr "Unknown")
  ∧ (∀ fields p, prop (Obj fields) "path" = VStr p →
       ∃ r, formatThreadForApi (Obj fields) = Normal (Some r)
            ∧ (absent (prop (Obj fields) "last_post_time") → ThreadApi.lastPostTime r = VNull)
            ∧ (absent (prop (Obj fields) "created_time") → ThreadApi.createdTime r = VNull))
  ∧ (∀ fields,
       ∃ r, formatUserForApi (Obj fields) = Normal (Some r)
            ∧ (absent (prop (Obj fields) "first_post") → UserApi.firstPost r = VNull)
            ∧ (absent (prop (Obj fields) "last_post") → UserApi.lastPost r = VNull))
  ∧ (∀ fields,
       ∃ r, formatPostForApi (Obj fields) = Normal (Some r)
            ∧ (absent (prop (Obj fields) "timestamp") → PostApi.timestamp r = VNull)).
Proof.
split; [reflexivity|]. split; [reflexivity|]. split; [reflexivity|].
split; [|split].
- intros fields p Hpath.
  destruct (formatThreadForApi_object fields p Hpath)
    as (lt & ct & Hlt & Hct & r & Hr & _ & _ & Hrl & Hrc).
  exists r. split; [exact Hr|]. split; intros Habs.
  + rewrite (timestamp_or_null_falsy _ (absent_falsy _ Habs)) in Hlt. congruence.
  + rewrite (timestamp_or_null_falsy _ (absent_falsy _ Habs)) in Hct. congruence.
- intros fields.
  destruct (formatUserForApi_object fields) as (fp & lp & Hfp & Hlp & r & Hr & Hrf & Hrl).
  exists r. split; [exact Hr|]. split; intros Habs.
  + rewrite (timestamp_or_null_falsy _ (absent_falsy _ Habs)) in Hfp. congruence.
  + rewrite (timestamp_or_null_falsy _ (absent_falsy _ Habs)) in Hlp. congruence.
- intros fields.
  destruct (formatPostForApi_object fields) as (ts & Hts & Hr).
  eexists. split; [exact Hr|]. intros Habs. cbn [PostApi.timestamp].
  rewrite (timestamp_or_null_falsy _ (absent_falsy _ Habs)) in Hts. congruence.
Qed.

End Formatting.

(** A timestamp that only the last format parses, and one that none parses,
    with the sample date library. *)
Lemma formatTimestamp_ordered_formats_witness :
  "2008-09-05 09:39 PM" ≠ ""
  ∧ @formatTimestamp sample_moment (VStr "2008-09-05 09:39 PM")
    = Normal (VStr "Sep 5, 2008 at 9:39 PM")
  ∧ @formatTimestamp sample_moment (VStr "yesterday") = Normal (VStr "yesterday").
Proof.
assert (H1 : "2008-09-05 09:39 PM" ≠ "") by discriminate.
assert (H2 : "yesterday" ≠ "") by discriminate.
split; [exact H1|]. split.
- rewrite (proj1 (proj2 (@formatTimestamp_ordered_formats sample_moment _ H1))).
  vm_compute. reflexivity.
- rewrite (proj1 (proj2 (@formatTimestamp_ordered_formats sample_moment _ H2))).
  vm_compute. reflexivity.
Defined.

(** The empty string is a timestamp string that no format parses; it
    comes back as "Unknown", not unchanged. *)
Lemma formatTimestamp_empty_counterexample :
  Forall (@rejects (table_moment []) (VStr "")) knownFormats
  ∧ @formatTimestamp (table_moment []) (VStr "")
    ≠ Normal (@formatTimestamp_spec (table_moment []) "").
Proof.
split.
- repeat constructor; (eexists; split; [vm_compute; reflexivity | reflexivity]).
- vm_compute. discriminate.
Qed.

Example formatTimestamp_samples :
  @formatTimestamp sample_moment (VStr "05-09-2008, 09:39 PM")
  = Normal (VStr "Sep 5, 2008 at 9:39 PM")
  ∧ @formatTimestamp sample_moment (VStr "2008-09-05 09:39 PM")
    = Normal (VStr "Sep 5, 2008 at 9:39 PM")
  ∧ @formatTimestamp sample_moment (VStr "yesterday") = Normal (VStr "yesterday")
  ∧ @formatTimestamp throwing_moment (VStr "yesterday") = Normal (VStr "yesterday")
  ∧ @formatTimestamp throwing_moment (VStr "") = Normal (VStr "Unknown").
Proof. repeat split; vm_compute; reflexivity. Qed.

(** The row of a guest post, formatted. *)
Lemma formatPostForApi_guest_witness :
  absent (prop (Obj guest_fields) "username")
  ∧ ∃ r, @formatPostForApi sample_moment blank_sanitizer (Obj guest_fields) = Normal (Some r)
         ∧ PostApi.username r = VStr "Guest"
         ∧ PostApi.username r ≠ VNull ∧ PostApi.username r ≠ VUndefined.
Proof.
assert (H : absent (prop (Obj guest_fields) "username")) by (right; vm_compute; reflexivity).
split; [exact H|].
exact (@formatPostForApi_guest sample_moment blank_sanitizer guest_fields H).
Defined.

(** A post row with a NULL timestamp, formatted. *)
Lemma absent_timestamp_fields_witness :
  ∃ r, @formatPostForApi sample_moment blank_sanitizer
         (Obj {[ "id" := VNum 9; "timestamp" := VNull ]}) = Normal (Some r)
       ∧ PostApi.timestamp r = VNull.
Proof.
destruct (proj2 (proj2 (proj2 (proj2 (proj2
            (@absent_timestamp_fields sample_moment blank_sanitizer)))))
            {[ "id" := VNum 9; "timestamp" := VNull ]}) as (r & Hr & Hts).
exists r. split; [exact Hr|]. apply Hts. right. vm_compute. reflexivity.
Defined.

(** ** Message sanitisation *)

(** What the source fixes of the sanitiser: a falsy body gives the
    empty string, any other body goes to the library with an allow-list
    that has the paragraph tag and not the script tag, and with the
    schemes http, https and mailto. *)
Lemma sanitizeHtmlContent_options {sanitizer : SanitizeHtmlLib} (html : value) :
  (truthy html = false → sanitizeHtmlContent html = "")
  ∧ (truthy html = true → sanitizeHtmlContent html = (sanitizeHtml html sanitizeOptions))
  ∧ "p" ∈ allowedTags sanitizeOptions
  ∧ ("script" ∉ allowedTags sanitizeOptions)
  ∧ allowedSchemes sanitizeOptions = ["http"; "https"; "mailto"].
Proof.
unfold sanitizeHtmlContent.
split; [intros ->; reflexivity|]. split; [intros ->; reflexivity|].
split; [|split; [|reflexivity]].
- apply (bool_decide_unpack _). vm_compute. exact I.
- apply (bool_decide_unpack _). vm_compute. exact I.
Qed.


(** ** The order of timestamps *)

Lemma string_compare_le_trans (a b c : string) :
  String.compare a b ≠ Gt → String.compare b c ≠ Gt → String.compare a c ≠ Gt.
Proof.
revert b c. induction a as [|x a IH]; intros [|y b] [|z c]; cbn [String.compare];
  try congruence.
unfold Ascii.compare.
destruct (N.compare_spec (N_of_ascii x) (N_of_ascii y)),
         (N.compare_spec (N_of_ascii y) (N_of_ascii z)),
         (N.compare_spec (N_of_ascii x) (N_of_ascii z));
  try congruence; try lia.
apply IH.
Qed.

Lemma string_leb_trans (a b c : string) :
  String.leb a b = true → String.leb b c = true → String.leb a c = true.
Proof.
unfold String.leb. intros Hab Hbc.
pose proof (string_compare_le_trans a b c) as H.
destruct (String.compare a b), (String.compare b c), (String.compare a c);
  try reflexivity; try discriminate; exfalso; apply H; congruence.
Qed.

Lemma string_leb_refl (a : string) : String.leb a a = true.
Proof. destruct (String.leb_total a a); assumption. Qed.

#[local] Instance text_le_preorder : PreOrder text_le.
Proof.
split.
- intros [x|]; simpl; [apply string_leb_refl | exact I].
- intros [x|] [y|] [z|]; simpl; try tauto. apply string_leb_trans.
Qed.

#[local] Instance text_le_total : Total text_le.
Proof. intros [x|] [y|]; simpl; try tauto. apply String.leb_total. Qed.

#[local] Instance text_le_antisym : AntiSymm (=) text_le.
Proof.
intros [x|] [y|]; simpl; try tauto. intros Hxy Hyx. f_equal.
apply String.leb_antisym; assumption.
Qed.

#[local] Instance desc_by_total {A} (key : A → option string) : Total (desc_by key).
Proof. intros a b. unfold desc_by. apply text_le_total. Qed.

Lemma text_max_cases (a b : option string) :
  (text_le a b ∧ text_max a b = b) ∨ (text_le b a ∧ text_max a b = a).
Proof.
unfold text_max. destruct (decide (text_le a b)) as [Hle|Hnle]; [left; auto|].
right. split; [|reflexivity]. destruct (text_le_total a b); tauto.
Qed.


Lemma sql_max_upper (column : list (option string)) (x : option string) :
  x ∈ column → text_le x (sql_max column).
Proof.
induction column as [|a column IH]; [inversion 1|].
cbn [sql_max foldr]. fold (sql_max column). intros Hx.
destruct (text_max_cases a (sql_max column)) as [[Hle ->] | [Hle ->]];
  apply elem_of_cons in Hx as [-> | Hx]; auto.
- reflexivity.
- transitivity (sql_max column); auto.
Qed.



Lemma Sorted_drop {A} (R : relation A) (l : list A) (n : nat) :
  Sorted R l → Sorted R (drop n l).
Proof.
intros Hs. revert l Hs. induction n as [|n IH]; intros l Hs; [exact Hs|].
destruct Hs as [|x l Hs _]; cbn [drop]; [constructor | apply IH, Hs].
Qed.

(** ** Thread search *)

Lemma left_join_elem {A} (rows : list A) (x : option A) :
  x ∈ left_join rows ↔ (rows = [] ∧ x = None) ∨ (∃ a, a ∈ rows ∧ x = Some a).
Proof.
destruct rows as [|a rows]; cbn [left_join].
- rewrite list_elem_of_singleton. split.
  + intros ->. left. auto.
  + intros [[_ ->] | (a & Ha & _)]; [reflexivity | inversion Ha].
- rewrite list_elem_of_fmap. split.
  + intros (b & -> & Hb). right. eauto.
  + intros [[Hnil _] | (b & Hb & ->)]; [discriminate | eauto].
Qed.










(** ** The thread-list route *)

Lemma row_object_props (r : thread_list_row) :
  prop (row_object r) "path" = VStr (r_path r)
  ∧ prop (row_object r) "id" = VNum (r_id r).
Proof. split; vm_compute; reflexivity. Qed.

Section Route.
Context {date_library : MomentLib}.

(** Formatting the rows of a query does not throw: a row has a text
    in its [path]. *)
Lemma format_rows (rows : list thread_list_row) :
  ∃ out, cmap formatThreadForApi (row_object <$> rows) = Normal out
         ∧ Forall2 formats rows out.
Proof.
induction rows as [|r rows (out & Hout & Hall)].
- exists []. split; [reflexivity | constructor].
- destruct (row_object_props r) as [Hpath Hid].
  assert (Hobj : ∃ fields, row_object r = Obj fields) by (eexists; reflexivity).
  destruct Hobj as [fields Hobj]. rewrite Hobj in Hpath, Hid.
  destruct (formatThreadForApi_object _ _ Hpath)
    as (_ & _ & _ & _ & a & Ha & Haid & Halang & _).
  exists (Some a :: out). split.
  + rewrite fmap_cons. cbn [cmap]. rewrite Hobj, Ha.
    cbn [mbind completion_bind]. rewrite Hout. reflexivity.
  + constructor; [|exact Hall]. exists a. rewrite Haid, Hid. auto.
Qed.

Lemma formats_ids (rows : list thread_list_row) (out : list (option ThreadApi.t)) :
  Forall2 formats rows out →
  (fun o => from_option ThreadApi.id VUndefined o) <$> out = (fun r => VNum (r_id r)) <$> rows.
Proof.
induction 1 as [|r o rows out (a & -> & Hid & _) _ IH]; [reflexivity|].
rewrite !fmap_cons, IH. cbn [from_option]. rewrite Hid. reflexivity.
Qed.

Lemma threadsRoute_response (db : Database) (query : ThreadsQuery) :
  let pagination :=
    validatePagination (with_default (q_page query) (VNum 1))
                       (with_default (q_limit query) (VNum 20)) in
  let r := threadsRoute db query in
  success r = true ∧ status r = 200
  ∧ response_ids r = (fun row => VNum (r_id row)) <$> route_rows db query
  ∧ response_pagination r
    = {[ "page" := VNum (page pagination);
         "limit" := VNum (limit pagination);
         "hasMore" := VBool (Z.of_nat (length (route_rows db query)) =? limit pagination) ]}.
Proof.
intros pagination r. subst r. unfold threadsRoute. fold pagination.
change (if truthy (q_search query) then _ else _) with (route_rows db query).
destruct (format_rows (route_rows db query)) as (out & -> & Hall).
unfold response_ids, response_pagination. cbn [createApiResponse success status data
  d_threads d_pagination].
rewrite (formats_ids _ _ Hall), <- (Forall2_length _ _ _ Hall). auto.
Qed.

End Route.

Section ThreadSearch.
Context {date_library : MomentLib}.


End ThreadSearch.


Example timestamp_instant_samples :
  timestamp_instant "05-09-2008, 09:39 PM" = Some 1076055699
  ∧ timestamp_instant "06-01-2007, 10:15 AM" = Some 1075163655
  ∧ timestamp_instant "05-09-2008, 12:05 AM" = Some 1076054405
  ∧ timestamp_instant "05-09-2008, 12:05 PM" = Some 1076055125
  ∧ timestamp_instant "yesterday" = None
  ∧ r_id <$> searchThreads calendar_db (VStr "dragon") VUndefined = [1; 2].
Proof. repeat split; vm_compute; reflexivity. Qed.

Example searchThreads_sample :
  r_id <$> searchThreads search_db (VStr "dragon") VUndefined = [1; 2]
  ∧ (latest_matching_time search_db (VStr "dragon")
       <$> searchThreads search_db (VStr "dragon") VUndefined)
    = [Some "01-01-2008, 09:00 PM"; Some "05-01-2008, 09:00 PM"]
  ∧ (r_last_post_time <$> searchThreads search_db (VStr "dragon") VUndefined)
    = [Some "09-01-2008, 09:00 PM"; Some "05-01-2008, 09:00 PM"].
Proof. repeat split; vm_compute; reflexivity. Qed.


(** ** Guest posts *)

Lemma limit_offset_elem {A} (n k : Z) (rows : list A) (x : A) :
  x ∈ limit_offset n k rows → x ∈ rows.
Proof.
unfold limit_offset. intros Hx.
assert (Hdrop : x ∈ drop (Z.to_nat k) rows).
{ destruct (n <? 0); [exact Hx|].
  apply elem_of_take in Hx as (i & Hx & _). eapply list_elem_of_lookup_2, Hx. }
apply list_elem_of_lookup in Hdrop as (i & Hi). rewrite lookup_drop in Hi.
eapply list_elem_of_lookup_2, Hi.
Qed.

(** The LEFT JOIN gives a guest post a NULL username. *)
Lemma getPosts_guest_username (db : Database) (threadId limit offset : Z) (r : post_list_row) :
  r ∈ getPosts db threadId limit offset →
  guest_post db (pl_post r) →
  pl_username r = None.
Proof.
unfold getPosts. intros Hr Hguest.
apply limit_offset_elem in Hr. rewrite merge_sort_Permutation in Hr.
unfold posts_left_join_users in Hr.
apply list_elem_of_bind in Hr as (p & Hr & _).
apply list_elem_of_bind in Hr as (u & Hr & Hu).
apply list_elem_of_singleton in Hr as ->. cbn [pl_post pl_username] in *.
apply left_join_elem in Hu as [[_ ->] | (u' & Hu' & _)]; [reflexivity|].
apply list_elem_of_filter in Hu' as [Hid Hu']. destruct (Hguest u' Hu' Hid).
Qed.

Lemma post_row_object_username (r : post_list_row) :
  prop (post_row_object r) "username" = null_or_text (pl_username r).
Proof. vm_compute. reflexivity. Qed.

Section GuestPosts.
Context {date_library : MomentLib} {sanitizer : SanitizeHtmlLib}.

(** The rows that [getPosts] returns for guest posts are formatted
    with the username "Guest". *)
Lemma getPosts_guest_formatted (db : Database) (threadId limit offset : Z) (r : post_list_row) :
  r ∈ getPosts db threadId limit offset →
  guest_post db (pl_post r) →
  ∃ a, formatPostForApi (post_row_object r) = Normal (Some a)
       ∧ PostApi.username a = VStr "Guest".
Proof.
intros Hr Hguest.
pose proof (post_row_object_username r) as Huser.
rewrite (getPosts_guest_username _ _ _ _ _ Hr Hguest) in Huser.
assert (Hobj : ∃ fields, post_row_object r = Obj fields) by (eexists; reflexivity).
destruct Hobj as [fields Hobj]. rewrite Hobj in *.
apply formatPostForApi_absent_username. right. exact Huser.
Qed.

End GuestPosts.

(** ** The thread list, page by page *)

(** With a language and no category, the list query selects by the
    language segment alone. *)
Lemma getThreads_language_only (db : Database) (language : string) (limit offset : Z) :
  language ≠ "" →
  getThreads db (VStr language) VUndefined limit offset
  = limit_offset limit offset
      (order_by_desc r_last_post_time
         (thread_list_row_of db
            <$> filter (fun t => like ("%/" +:+ language +:+ "/%") (t_path t)) (threads db))).
Proof.
intros Hne. unfold getThreads. do 3 f_equal.
apply list_filter_iff. intros t.
unfold path_filter, language_pattern. cbn [truthy to_string].
apply String.eqb_neq in Hne. rewrite Hne. cbn [negb]. rewrite andb_true_r. reflexivity.
Qed.

Section ThreadList.
Context {date_library : MomentLib}.

(** Page 2 at 20 a page of a language with 45 threads: the route
    returns the 21st to the 40th thread in the order of last activity,
    and a pagination object of three fields. *)
Lemma threadsRoute_second_page_of_45 (db : Database) :
  let english := filter (fun t => like "%/English/%" (t_path t)) (threads db) in
  length english = 45%nat →
  let r := threadsRoute db english_page_two in
  response_pagination r
    = {[ "page" := VNum 2; "limit" := VNum 20; "hasMore" := VBool true ]}
  ∧ response_ids r
    = (fun row => VNum (r_id row))
        <$> take 20 (drop 20 (order_by_desc r_last_post_time
                                (thread_list_row_of db <$> english)))
  ∧ length (response_ids r) = 20%nat.
Proof.
intros english Hlen r.
destruct (threadsRoute_response db english_page_two) as (_ & _ & Hids & Hpag).
fold r in Hids, Hpag.
assert (Hrows : route_rows db english_page_two
                = take 20 (drop 20 (order_by_desc r_last_post_time
                                      (thread_list_row_of db <$> english)))).
{ unfold route_rows.
  replace (validatePagination _ _) with {| page := 2; limit := 20; offset := 20 |}
    by (vm_compute; reflexivity).
  cbn [english_page_two q_search q_language q_category truthy limit offset].
  rewrite getThreads_language_only by discriminate. reflexivity. }
assert (Hcount : length (route_rows db english_page_two) = 20%nat).
{ rewrite Hrows. unfold order_by_desc.
  rewrite length_take, length_drop, merge_sort_Permutation, length_fmap, Hlen.
  reflexivity. }
rewrite Hcount in Hpag. rewrite Hrows in Hids.
split; [exact Hpag|]. split; [exact Hids|].
rewrite Hids, length_fmap, <- Hrows. exact Hcount.
Qed.

End ThreadList.

(** C5 on the sample archive of 45 English threads: the request
    language=English, page=2, limit=20 is answered with threads 21 to
    40, and with the pagination object page 2, limit 20, hasMore true,
    which has no totalPages, hasNext or hasPrev. *)
Theorem threadsRoute_english_page_two :
  let r := @threadsRoute sample_moment sample_db english_page_two in
  length (filter (fun t => like "%/English/%" (t_path t)) (threads sample_db)) = 45%nat
  ∧ response_ids r = VNum <$> seqZ 21 20
  ∧ response_pagination r
    = {[ "page" := VNum 2; "limit" := VNum 20; "hasMore" := VBool true ]}
  ∧ response_pagination r ≠ claimed_pagination
  ∧ response_pagination r !! "totalPages" = None
  ∧ response_pagination r !! "hasNext" = None
  ∧ response_pagination r !! "hasPrev" = None.
Proof.
intros r.
assert (Hpag : response_pagination r
               = {[ "page" := VNum 2; "limit" := VNum 20; "hasMore" := VBool true ]})
  by (vm_compute; reflexivity).
split; [vm_compute; reflexivity|]. split; [vm_compute; reflexivity|].
split; [exact Hpag|]. rewrite Hpag.
split; [|repeat split; vm_compute; reflexivity].
intros Heq. apply (f_equal (fun m => m !! "totalPages")) in Heq.
vm_compute in Heq. discriminate Heq.
Qed.

(** * Further properties of the helper module *)

(** ** Stripping tags and truncating *)

(** The pattern [<[^>]*>] matches at a [<] exactly when a [>] follows
    somewhere, up to the first one. *)
Lemma strip_tags_from_pending (held s : list N) :
  strip_tags_from (Some held) s
  = match behind_greater_than s with
    | Some rest => strip_tags rest
    | None => (rev held ++ s)%list
    end.
Proof.
revert held. induction s as [|c s IH]; intros held; cbn [strip_tags_from behind_greater_than].
- rewrite app_nil_r. reflexivity.
- destruct (c =? greater_than_sign)%N; [reflexivity|].
  rewrite IH. destruct (behind_greater_than s); [reflexivity|].
  cbn [rev]. rewrite <- app_assoc. reflexivity.
Qed.

Lemma strip_tags_open (s : list N) :
  strip_tags (less_than_sign :: s)
  = match behind_greater_than s with
    | Some rest => strip_tags rest
    | None => less_than_sign :: s
    end.
Proof. unfold strip_tags at 1. cbn [strip_tags_from]. apply strip_tags_from_pending. Qed.

Lemma strip_tags_other (c : N) (s : list N) :
  c ≠ less_than_sign → strip_tags (c :: s) = c :: strip_tags s.
Proof.
intros Hne. unfold strip_tags. cbn [strip_tags_from].
apply N.eqb_neq in Hne. rewrite Hne. reflexivity.
Qed.

Lemma strip_tags_from_tagless (s : list N) (pending : option (list N)) :
  (∀ held, pending = Some held → greater_than_sign ∉ held) →
  tagless (strip_tags_from pending s).
Proof.
revert pending. induction s as [|c s IH]; intros pending Hheld; cbn [strip_tags_from].
- destruct pending as [held|].
  + exists [], (rev held). split; [reflexivity|]. split; [apply not_elem_of_nil|].
    rewrite list_elem_of_In, <- in_rev, <- list_elem_of_In. auto.
  + exists [], []. split; [reflexivity|]. split; apply not_elem_of_nil.
- destruct pending as [held|].
  + destruct (N.eqb_spec c greater_than_sign) as [->|Hne].
    * apply IH. discriminate.
    * apply IH. intros held' [= <-]. rewrite not_elem_of_cons. split; [congruence | auto].
  + destruct (N.eqb_spec c less_than_sign) as [->|Hne].
    * apply IH. intros held' [= <-]. rewrite list_elem_of_singleton. discriminate.
    * destruct (IH None) as (a & b & -> & Ha & Hb); [discriminate|].
      exists (c :: a), b. split; [reflexivity|]. split; [|exact Hb].
      rewrite not_elem_of_cons. split; [congruence | exact Ha].
Qed.

Lemma tagless_take (n : nat) (out : list N) : tagless out → tagless (take n out).
Proof.
intros (a & b & -> & Ha & Hb). rewrite take_app.
exists (take n a), (take (n - length a) b). split; [reflexivity|].
split; intros Hin.
- apply Ha. exact (subseteq_take _ _ _ Hin).
- apply Hb. exact (subseteq_take _ _ _ Hin).
Qed.

Lemma tagless_full_stops (out : list N) :
  tagless out → tagless (out ++ [full_stop; full_stop; full_stop]).
Proof.
intros (a & b & -> & Ha & Hb). rewrite <- app_assoc.
exists a, (b ++ [full_stop; full_stop; full_stop])%list. split; [reflexivity|].
split; [exact Ha|]. rewrite elem_of_app. intros [Hin | Hin]; [auto|].
repeat (apply elem_of_cons in Hin as [Hin | Hin]; [discriminate|]). inversion Hin.
Qed.

Lemma truncateText_tagless (text : text_arg) (len : option Z) :
  tagless (truncateText text len).
Proof.
assert (Hnil : tagless []).
{ exists [], []. split; [reflexivity|]. split; apply not_elem_of_nil. }
destruct text as [| |[|c s]]; cbn [truncateText]; try exact Hnil.
assert (Hplain : tagless (strip_tags (c :: s))).
{ apply strip_tags_from_tagless. discriminate. }
destruct (_ <=? _); [exact Hplain|].
apply tagless_full_stops, tagless_take, Hplain.
Qed.

(** X1: what [truncateText] returns holds no tag: no [<] of it is
    followed, however far behind, by a [>]. *)
Theorem truncateText_no_tag (text : text_arg) (len : option Z) (i j : nat) :
  truncateText text len !! i = Some less_than_sign →
  truncateText text len !! j = Some greater_than_sign →
  (j < i)%nat.
Proof.
destruct (truncateText_tagless text len) as (a & b & -> & Ha & Hb).
intros Hi Hj.
destruct (decide (i < length a)%nat) as [Hia|Hia].
- rewrite lookup_app_l in Hi by exact Hia.
  destruct Ha. eapply list_elem_of_lookup_2, Hi.
- rewrite lookup_app_r in Hi by lia.
  destruct (decide (j < length a)%nat) as [Hja|Hja]; [lia|].
  rewrite lookup_app_r in Hj by lia.
  destruct Hb. eapply list_elem_of_lookup_2, Hj.
Qed.

Lemma strip_tags_without (s : list N) : less_than_sign ∉ s → strip_tags s = s.
Proof.
induction s as [|c s IH]; [reflexivity|].
rewrite not_elem_of_cons. intros [Hne Hs].
rewrite strip_tags_other by congruence. rewrite IH by exact Hs. reflexivity.
Qed.

(** X2: with a length [n] that is not negative, [truncateText]
    returns at most [n + 3] code units, and it returns a text without
    [<] and of at most [n] code units as it is. *)
Theorem truncateText_length (text : text_arg) (n : Z) :
  0 ≤ n →
  Z.of_nat (length (truncateText text (Some n))) ≤ n + 3
  ∧ (∀ s, text = Text s → less_than_sign ∉ s → Z.of_nat (length s) ≤ n →
          truncateText text (Some n) = s).
Proof.
intros Hn. split.
- destruct text as [| |[|c s]]; cbn [truncateText default from_option id length]; try lia.
  destruct (Z.leb_spec (Z.of_nat (length (strip_tags (c :: s)))) n) as [Hle|Hgt]; [lia|].
  rewrite length_app, length_take. cbn [length]. lia.
- intros s -> Hs Hlen. destruct s as [|c s]; [reflexivity|].
  cbn [truncateText default from_option id]. rewrite (strip_tags_without _ Hs).
  rewrite (proj2 (Z.leb_le _ _)) by exact Hlen. reflexivity.
Qed.

(** A text with a tag, cut at five code units, and a short text. *)
Lemma truncateText_length_witness :
  0 ≤ 5
  ∧ truncateText (Text (ascii_units "h<b>ello world")) (Some 5) = ascii_units "hello..."
  ∧ truncateText (Text (ascii_units "hi")) (Some 5) = ascii_units "hi".
Proof.
assert (H : 0 ≤ 5) by lia.
split; [exact H|]. split; [vm_compute; reflexivity|].
apply (proj2 (truncateText_length (Text (ascii_units "hi")) 5 H) (ascii_units "hi")).
- reflexivity.
- apply (bool_decide_unpack _). vm_compute. exact I.
- vm_compute. discriminate.
Defined.

(** A text whose first [>] and last [<] are no tag: they stay, in
    that order. *)
Lemma truncateText_no_tag_witness :
  truncateText (Text (ascii_units "a><b><c")) None = ascii_units "a><c"
  ∧ (1 < 2)%nat.
Proof.
split; [vm_compute; reflexivity|].
apply (truncateText_no_tag (Text (ascii_units "a><b><c")) None 2 1);
  vm_compute; reflexivity.
Defined.

(** ** Escaping a search term *)

Lemma regex_special_backslash : regex_special "\" = true.
Proof. vm_compute. reflexivity. Qed.

(** X3: the pattern that [escapeRegex] makes of a string has no syntax
    of its own: read as a regular expression, it is the string,
    character by character. *)
Theorem escapeRegex_literal (s : string) :
  literal_of_pattern (escapeRegex s) = Some s.
Proof.
induction s as [|c s IH]; [reflexivity|].
cbn [escapeRegex]. destruct (regex_special c) eqn:Hc.
- cbn [literal_of_pattern]. rewrite Ascii.eqb_refl, Hc, IH. reflexivity.
- cbn [literal_of_pattern].
  destruct (Ascii.eqb_spec c "\") as [->|Hne].
  + rewrite regex_special_backslash in Hc. discriminate.
  + rewrite Hc, IH. reflexivity.
Qed.

Example escapeRegex_samples :
  escapeRegex "a.b*c" = "a\.b\*c"
  ∧ escapeRegex "(1+1)?[x]{2}^$|\" = "\(1\+1\)\?\[x\]\{2\}\^\$\|\\"
  ∧ escapeRegex "Discusión general" = "Discusión general"
  ∧ literal_of_pattern "a.b" = None
  ∧ literal_of_pattern "a\.b" = Some "a.b".
Proof. repeat split; vm_compute; reflexivity. Qed.

(** ** The window of page links *)

(** X4: for a current page and a number of items that are safe
    integers and a positive number of items a page, the page links
    of [getPagination] are at most five, numbered
    consecutively upwards from max(1, currentPage - 2); each lies
    within the pages 1..totalPages and within two of the current page,
    carries the url of its number and is active exactly when it is the
    current page; and every page within both ranges has its link, so
    that a current page in range is linked, once. *)
Theorem getPagination_window (currentPage totalItems itemsPerPage : Z) (baseUrl : string) :
  safe_integer currentPage → safe_integer totalItems →
  0 < itemsPerPage ≤ max_safe_integer →
  let w := getPagination currentPage totalItems itemsPerPage baseUrl in
  (length (pages w) ≤ 5)%nat
  ∧ (∀ (i : nat) l, pages w !! i = Some l →
       link_page l = Z.max 1 (currentPage - 2) + Z.of_nat i
       ∧ 1 ≤ link_page l ≤ totalPages w
       ∧ currentPage - 2 ≤ link_page l ≤ currentPage + 2
       ∧ link_url l = baseUrl +:+ "&page=" +:+ pretty (link_page l)
       ∧ (link_active l = true ↔ link_page l = currentPage))
  ∧ (∀ p, 1 ≤ p ≤ totalPages w → currentPage - 2 ≤ p ≤ currentPage + 2 →
       ∃ l, l ∈ pages w ∧ link_page l = p).
Proof.
intros _ _ _ w. subst w. unfold getPagination. cbn [pages totalPages].
set (last := ceil_div totalItems itemsPerPage).
set (first := Z.max 1 (currentPage - 2)).
set (count := Z.min last (currentPage + 2) - first + 1).
split; [|split].
- rewrite length_fmap, length_seqZ. lia.
- intros i l Hl. rewrite list_lookup_fmap in Hl.
  destruct (seqZ first count !! i) as [p|] eqn:Hp; [|discriminate].
  injection Hl as <-. apply lookup_seqZ in Hp as [-> Hlt].
  cbn [link_page link_url link_active].
  split; [reflexivity|]. split; [lia|]. split; [lia|]. split; [reflexivity|].
  apply Z.eqb_eq.
- intros p Hp Hnear. eexists. split.
  + apply list_elem_of_fmap_2. apply elem_of_seqZ. instantiate (1 := p). lia.
  + reflexivity.
Qed.

Lemma getPagination_window_witness :
  (length (pages (getPagination 7 1000 20 "/threads?x=1")) ≤ 5)%nat
  ∧ ∃ l, l ∈ pages (getPagination 7 1000 20 "/threads?x=1") ∧ link_page l = 9.
Proof.
destruct (getPagination_window 7 1000 20 "/threads?x=1") as (Hlen & _ & Hlinked).
- unfold safe_integer, max_safe_integer. lia.
- unfold safe_integer, max_safe_integer. lia.
- unfold max_safe_integer. lia.
- split; [exact Hlen|]. apply Hlinked; [vm_compute; split; discriminate | lia].
Defined.

Example getPagination_samples :
  link_page <$> pages (getPagination 1 45 20 "/threads?x=1") = [1; 2; 3]
  ∧ link_page <$> pages (getPagination 7 1000 20 "/threads?x=1") = [5; 6; 7; 8; 9]
  ∧ link_page <$> pages (getPagination 9 45 20 "/threads?x=1") = []
  ∧ link_url <$> pages (getPagination 3 45 20 "/threads?x=1")
    = ["/threads?x=1&page=1"; "/threads?x=1&page=2"; "/threads?x=1&page=3"]
  ∧ prev (getPagination 1 45 20 "/threads?x=1") = None
  ∧ next (getPagination 1 45 20 "/threads?x=1") = Some "/threads?x=1&page=2".
Proof. repeat split; vm_compute; reflexivity. Qed.

(** * Further properties of the queries *)

(** ** LIKE *)

Lemma like_percent (p text : string) :
  like (String "%" p) text
  = like p text || match text with
                   | EmptyString => false
                   | String _ text' => like (String "%" p) text'
                   end.
Proof. destruct text; reflexivity. Qed.

Lemma like_char (c : ascii) (p text : string) :
  wildcard c = false →
  like (String c p) text
  = match text with
    | EmptyString => false
    | String d text' => Ascii.eqb (to_lower d) (to_lower c) && like p text'
    end.
Proof.
unfold wildcard. intros Hc. apply orb_false_iff in Hc as [Hpercent Hunder].
cbn [like]. rewrite Hpercent, Hunder. destruct text; reflexivity.
Qed.

Lemma like_percent_all (text : string) : like "%" text = true.
Proof.
induction text as [|c text IH]; rewrite like_percent; [reflexivity|].
rewrite IH. apply orb_true_r.
Qed.

(** [%] takes up any text before a match. *)
Lemma like_percent_skip (p before text : string) :
  like (String "%" p) text = true → like (String "%" p) (before +:+ text) = true.
Proof.
intros Hlike. induction before as [|c before IH]; [exact Hlike|].
rewrite append_cons, like_percent, IH. apply orb_true_r.
Qed.

(** A text without wildcards matches itself. *)
Lemma like_literal (needle p text : string) :
  literal needle = true → like p text = true → like (needle +:+ p) (needle +:+ text) = true.
Proof.
intros Hlit Hlike. induction needle as [|c needle IH]; [exact Hlike|].
cbn [literal] in Hlit. apply andb_true_iff in Hlit as [Hc Hlit].
apply negb_true_iff in Hc.
rewrite !append_cons, like_char by exact Hc.
rewrite Ascii.eqb_refl, IH by exact Hlit. reflexivity.
Qed.

(** [text LIKE '%needle%'] holds of every text in which the needle
    occurs. *)
Lemma like_contains (needle text : string) :
  literal needle = true →
  substring_of needle text →
  like ("%" +:+ needle +:+ "%") text = true.
Proof.
intros Hlit (before & after & ->).
change ("%" +:+ needle +:+ "%") with (String "%" (needle +:+ "%")).
apply like_percent_skip. rewrite like_percent.
rewrite like_literal; [reflexivity | exact Hlit | apply like_percent_all].
Qed.

Example like_samples :
  like "%/English/%" "Calendar/Champions of Regnum/english/General" = true
  ∧ like "%/Español/%" "Calendar/Champions of Regnum/ESPAñOL/General" = true
  ∧ like "%/Español/%" "Calendar/Champions of Regnum/ESPAÑOL/General" = false
  ∧ like "%a_c%" "xxabcxx" = true
  ∧ like "%a_c%" "xxañcxx" = true
  ∧ like "%dragon%" "Dragons" = true
  ∧ like "%dragon%" "drago" = false.
Proof. repeat split; vm_compute; reflexivity. Qed.

(** ** The thread list *)

Lemma getThreads_listing (db : Database) (language category : value) (limit offset : Z) :
  getThreads db language category limit offset
  = limit_offset limit offset (thread_listing db language category).
Proof. reflexivity. Qed.

(** A language that resolution gives a path has its segment in it. *)
Lemma language_of_token (path lang : string) :
  language_of path = lang → lang ≠ "Other" →
  (("/" +:+ lang +:+ "/"), lang) ∈ languageTokens
  ∧ substring_of ("/" +:+ lang +:+ "/") path.
Proof.
intros Hlang Hother. rewrite language_of_find in Hlang.
destruct (list_find _ languageTokens) as [[i [tok lang']]|] eqn:Hfind; [|congruence].
cbn [snd] in Hlang. subst lang'.
apply list_find_Some in Hfind as (Hi & Hinc & _). cbn [fst] in Hinc.
apply includes_spec in Hinc.
assert (Hel : (tok, lang) ∈ languageTokens) by (eapply list_elem_of_lookup_2, Hi).
unfold languageTokens in Hel.
repeat (apply elem_of_cons in Hel as [Heq | Hel];
        [injection Heq as -> ->; split; [apply (bool_decide_unpack _); vm_compute; exact I
                                        | exact Hinc] |]).
inversion Hel.
Qed.

(** X5: the language filter of the thread list keeps every thread
    that the formatter labels with that language: a thread whose path
    resolves to one of the six languages is in the list asked for that
    language. *)
Theorem thread_listing_language_complete (db : Database) (t : thread_row) (lang : string) :
  t ∈ threads db →
  getLanguageFromPath (VStr (t_path t)) = Normal lang →
  lang ≠ "Other" →
  thread_list_row_of db t ∈ thread_listing db (VStr lang) VUndefined.
Proof.
intros Ht Hlang Hother. rewrite getLanguageFromPath_string in Hlang.
injection Hlang as Hlang.
destruct (language_of_token _ _ Hlang Hother) as [Hel Hsub].
unfold thread_listing, order_by_desc. rewrite merge_sort_Permutation.
apply list_elem_of_fmap_2, list_elem_of_filter. split; [|exact Ht].
apply Is_true_true. rewrite andb_true_r.
unfold path_filter, language_pattern. cbn [to_string truthy].
assert (Hne : lang ≠ "").
{ intros ->. unfold languageTokens in Hel.
  repeat (apply elem_of_cons in Hel as [Heq | Hel]; [discriminate Heq|]). inversion Hel. }
apply String.eqb_neq in Hne. rewrite Hne. cbn [negb].
assert (Hlit : literal ("/" +:+ lang +:+ "/") = true).
{ unfold languageTokens in Hel.
  repeat (apply elem_of_cons in Hel as [Heq | Hel];
          [injection Heq as _ ->; reflexivity|]).
  inversion Hel. }
pose proof (like_contains _ _ Hlit Hsub) as Hlike.
replace ("%/" +:+ lang +:+ "/%") with ("%" +:+ ("/" +:+ lang +:+ "/") +:+ "%"); [exact Hlike|].
change (String "%" (String "/" ((lang +:+ "/") +:+ "%")) = String "%" (String "/" (lang +:+ "/%"))).
do 2 f_equal. generalize lang. intros s. induction s as [|c s IH]; [reflexivity|].
rewrite !append_cons, IH. reflexivity.
Qed.

Lemma thread_listing_language_complete_witness :
  thread_list_row_of search_db {| t_id := 2; t_name := "Guilds"; t_path := english_path |}
  ∈ thread_listing search_db (VStr "English") VUndefined.
Proof.
apply (thread_listing_language_complete search_db
         {| t_id := 2; t_name := "Guilds"; t_path := english_path |} "English").
- apply (bool_decide_unpack _). vm_compute. exact I.
- vm_compute. reflexivity.
- discriminate.
Defined.

(** The filter is by [LIKE], which is looser than the resolution of
    the formatter: it ignores the case of ASCII letters, and a path
    with the segments of two languages is listed under both. *)
Example thread_listing_language_loose :
  let lower := {| t_id := 1; t_name := "a"; t_path := "Calendar/Champions of Regnum/english/General" |} in
  let both := {| t_id := 2; t_name := "b"; t_path := "Calendar/Champions of Regnum/English/Español/" |} in
  let db := {| threads := [lower; both]; posts := []; users := [] |} in
  length (thread_listing db (VStr "English") VUndefined) = 2%nat
  ∧ length (thread_listing db (VStr "Español") VUndefined) = 1%nat
  ∧ getLanguageFromPath (VStr (t_path lower)) = Normal "Other"
  ∧ getLanguageFromPath (VStr (t_path both)) = Normal "Español".
Proof. repeat split; vm_compute; reflexivity. Qed.

(** ** Paging through a list *)

Lemma limit_offset_window {A} (n k : Z) (rows : list A) :
  0 ≤ n → limit_offset n k rows = take (Z.to_nat n) (drop (Z.to_nat k) rows).
Proof.
intros Hn. unfold limit_offset. rewrite (proj2 (Z.ltb_ge _ _)) by lia. reflexivity.
Qed.

Lemma limit_offset_length {A} (n k : Z) (rows : list A) :
  0 ≤ n → Z.of_nat (length (limit_offset n k rows)) ≤ n.
Proof.
intros Hn. rewrite limit_offset_window, length_take by exact Hn. lia.
Qed.

Lemma limit_offset_lookup {A} (n k : Z) (rows : list A) (i : nat) (x : A) :
  limit_offset n k rows !! i = Some x → rows !! (Z.to_nat k + i)%nat = Some x.
Proof.
unfold limit_offset. intros Hx.
assert (Hdrop : drop (Z.to_nat k) rows !! i = Some x).
{ destruct (n <? 0); [exact Hx|]. apply lookup_take_Some in Hx as [Hx _]. exact Hx. }
rewrite lookup_drop in Hdrop. exact Hdrop.
Qed.


Lemma StronglySorted_lookup {A} (R : relation A) (l : list A) (i j : nat) (x y : A) :
  StronglySorted R l → (i < j)%nat → l !! i = Some x → l !! j = Some y → R x y.
Proof.
intros Hs. revert i j. induction Hs as [|a l Hs IH Hall]; intros i j Hij Hi Hj.
- rewrite lookup_nil in Hi. discriminate.
- destruct j as [|j]; [lia|]. cbn in Hj. destruct i as [|i].
  + cbn in Hi. injection Hi as ->.
    rewrite Forall_forall in Hall. apply Hall.
    eapply list_elem_of_lookup_2, Hj.
  + cbn in Hi. apply (IH i j); [lia | exact Hi | exact Hj].
Qed.

#[local] Instance desc_by_transitive {A} (key : A → option string) : Transitive (desc_by key).
Proof. intros a b c Hab Hbc. unfold desc_by in *. transitivity (key b); assumption. Qed.

Lemma order_by_desc_lookup {A} (key : A → option string) (rows : list A)
      (i j : nat) (x y : A) :
  (i < j)%nat → order_by_desc key rows !! i = Some x → order_by_desc key rows !! j = Some y →
  text_le (key y) (key x).
Proof.
intros Hij Hi Hj.
exact (StronglySorted_lookup (desc_by key) _ i j x y
         (StronglySorted_merge_sort (desc_by key) rows) Hij Hi Hj).
Qed.

(** [MIN] is NULL or one of the values of the column. *)
Lemma sql_min_elem (column : list (option string)) :
  sql_min column = None ∨ sql_min column ∈ column.
Proof.
induction column as [|a column IH]; [left; reflexivity|].
cbn [sql_min foldr]. fold (sql_min column).
destruct a as [x|], (sql_min column) as [y|] eqn:Hmin; cbn [text_min].
- destruct (String.leb x y); [right; left|].
  destruct IH as [IH | IH]; [discriminate | right; right; exact IH].
- right. left.
- destruct IH as [IH | IH]; [discriminate | right; right; exact IH].
- left. reflexivity.
Qed.

Lemma sql_min_le_max (column : list (option string)) :
  text_le (sql_min column) (sql_max column).
Proof.
destruct (sql_min_elem column) as [-> | Hel]; [exact I|].
apply sql_max_upper, Hel.
Qed.



(** X7: the rows of a page of the thread list.  A row nearer the top
    has the later last post, a thread without a dated post coming
    after all dated ones; a row is a thread of the table that passes
    both filters, it counts the posts of that thread, and the time of
    its first post is not after the time of its last. *)
Theorem getThreads_rows (db : Database) (language category : value) (n k : Z) :
  let rows := getThreads db language category n k in
  (∀ i j ri rj, (i < j)%nat → rows !! i = Some ri → rows !! j = Some rj →
     text_le (r_last_post_time rj) (r_last_post_time ri))
  ∧ (∀ r, r ∈ rows →
       (∃ t, t ∈ threads db ∧ r = thread_list_row_of db t
             ∧ path_filter language (language_pattern language) t = true
             ∧ path_filter category (category_pattern category) t = true)
       ∧ r_post_count r
         = Z.of_nat (length (filter (fun p => p_thread_id p = r_id r) (posts db)))
       ∧ text_le (r_created_time r) (r_last_post_time r)
       ∧ (r_post_count r = 0 → r_last_post_time r = None)).
Proof.
intros rows. split.
- intros i j ri rj Hij Hi Hj. unfold rows in Hi, Hj. rewrite getThreads_listing in Hi, Hj.
  apply limit_offset_lookup in Hi, Hj.
  unfold thread_listing in Hi, Hj.
  eapply (order_by_desc_lookup r_last_post_time); [|exact Hi|exact Hj]. lia.
- intros r Hr. unfold rows in Hr. rewrite getThreads_listing in Hr.
  apply limit_offset_elem in Hr. unfold thread_listing, order_by_desc in Hr.
  rewrite merge_sort_Permutation in Hr.
  apply list_elem_of_fmap in Hr as (t & -> & Ht).
  apply list_elem_of_filter in Ht as [Hpass Ht].
  apply Is_true_true, andb_true_iff in Hpass as [Hlang Hcat].
  split; [exists t; auto|]. cbn [thread_list_row_of r_post_count r_id r_created_time
                                  r_last_post_time].
  split; [reflexivity|]. split; [apply sql_min_le_max|].
  unfold posts_of. intros Hnone.
  destruct (filter _ (posts db)) as [|p ps]; [reflexivity | cbn in Hnone; lia].
Qed.

Example getThreads_rows_sample :
  let db := {| threads := [ {| t_id := 1; t_name := "empty"; t_path := english_path |};
                            {| t_id := 2; t_name := "old"; t_path := english_path |};
                            {| t_id := 3; t_name := "new"; t_path := english_path |} ];
               posts := [ {| p_id := 1; p_thread_id := 2; p_post_no := 1; p_user_id := None;
                             p_timestamp := Some "01-01-2008, 09:00 PM"; p_message := None |};
                          {| p_id := 2; p_thread_id := 3; p_post_no := 1; p_user_id := None;
                             p_timestamp := Some "02-01-2008, 09:00 PM"; p_message := None |};
                          {| p_id := 3; p_thread_id := 3; p_post_no := 2; p_user_id := None;
                             p_timestamp := None; p_message := None |} ];
               users := [] |} in
  (fun r => (r_id r, r_post_count r, r_created_time r, r_last_post_time r))
    <$> getThreads db VUndefined VUndefined 20 0
  = [ (3, 2, Some "02-01-2008, 09:00 PM", Some "02-01-2008, 09:00 PM");
      (2, 1, Some "01-01-2008, 09:00 PM", Some "01-01-2008, 09:00 PM");
      (1, 0, None, None) ].
Proof. vm_compute. reflexivity. Qed.

(** * Further properties of pagination *)

(** ** Reading back a printed number *)

Lemma pretty_N_char_digit (d : N) :
  (d < 10)%N → digit_of 10 (pretty_N_char d) = Some (Z.of_N d).
Proof.
intros Hd.
assert (Hcases : (d = 0 ∨ d = 1 ∨ d = 2 ∨ d = 3 ∨ d = 4 ∨ d = 5 ∨ d = 6 ∨ d = 7 ∨ d = 8
                  ∨ d = 9)%N) by lia.
repeat (destruct Hcases as [-> | Hcases]; [reflexivity|]). subst d. reflexivity.
Qed.

(** The digits of [x], read from no number, give [x]. *)
Lemma parse_digits_pretty (x : N) (s : string) :
  (0 < x)%N →
  parse_digits 10 None (pretty_N_go x s) = parse_digits 10 (Some (Z.of_N x)) s.
Proof.
revert s. induction (N.lt_wf_0 x) as [x _ IH]. intros s Hx.
rewrite pretty_N_go_step by exact Hx.
assert (Hd : (x `mod` 10 < 10)%N) by (apply N.mod_lt; lia).
assert (Hx10 : Z.of_N x = 10 * Z.of_N (x `div` 10) + Z.of_N (x `mod` 10)).
{ pose proof (N.div_mod x 10). lia. }
destruct (decide (x `div` 10 = 0)%N) as [Hzero | Hpos].
- rewrite Hzero in *. rewrite pretty_N_go_0. cbn [parse_digits].
  rewrite pretty_N_char_digit by exact Hd. cbn [default from_option id].
  do 2 f_equal. lia.
- rewrite IH; [|apply N.div_lt; lia | lia]. cbn [parse_digits].
  rewrite pretty_N_char_digit by exact Hd. cbn [default from_option id].
  do 2 f_equal. lia.
Qed.

(** A printed positive number starts with a digit from 1 to 9. *)
Lemma pretty_N_go_head (x : N) (s : string) :
  (0 < x)%N →
  ∃ d rest, pretty_N_go x s = String (pretty_N_char d) rest ∧ (0 < d < 10)%N.
Proof.
revert s. induction (N.lt_wf_0 x) as [x _ IH]. intros s Hx.
rewrite pretty_N_go_step by exact Hx.
destruct (decide (x `div` 10 = 0)%N) as [Hzero | Hpos].
- rewrite Hzero, pretty_N_go_0. exists (x `mod` 10)%N, s. split; [reflexivity|].
  pose proof (N.div_mod x 10). pose proof (N.mod_lt x 10). lia.
- apply IH; [apply N.div_lt; lia | apply N.neq_0_lt_0, Hpos].
Qed.

Lemma parseInt_string_digits (d : N) (rest : string) :
  (0 < d < 10)%N →
  parseInt_string (String (pretty_N_char d) rest)
  = parse_digits 10 None (String (pretty_N_char d) rest).
Proof.
intros Hd.
assert (Hcases : (d = 1 ∨ d = 2 ∨ d = 3 ∨ d = 4 ∨ d = 5 ∨ d = 6 ∨ d = 7 ∨ d = 8 ∨ d = 9)%N)
  by lia.
unfold parseInt_string.
assert (Htrim : trim_start (String (pretty_N_char d) rest) = String (pretty_N_char d) rest).
{ repeat (destruct Hcases as [-> | Hcases];
          [destruct rest as [|c2 [|c3 rest]]; reflexivity|]).
  subst d. destruct rest as [|c2 [|c3 rest]]; reflexivity. }
rewrite Htrim.
assert (Hsign : strip_sign (String (pretty_N_char d) rest)
                = (1, String (pretty_N_char d) rest)).
{ repeat (destruct Hcases as [-> | Hcases]; [reflexivity|]). subst d. reflexivity. }
rewrite Hsign.
assert (Hradix : strip_radix_prefix (String (pretty_N_char d) rest)
                 = (10, String (pretty_N_char d) rest)).
{ repeat (destruct Hcases as [-> | Hcases]; [reflexivity|]). subst d. reflexivity. }
rewrite Hradix.
destruct (parse_digits 10 None (String (pretty_N_char d) rest)) as [n|]; [|reflexivity].
f_equal. lia.
Qed.

Lemma parseInt_positive (p : positive) : parseInt (VNum (Z.pos p)) = Some (Z.pos p).
Proof.
unfold parseInt. cbn [to_string].
change (pretty (Z.pos p)) with (pretty_N_go (N.pos p) "").
destruct (pretty_N_go_head (N.pos p) "") as (d & rest & Heq & Hd); [lia|].
rewrite Heq, parseInt_string_digits, <- Heq, parse_digits_pretty by (exact Hd || lia).
reflexivity.
Qed.

Lemma parseInt_negative (p : positive) : parseInt (VNum (Z.neg p)) = Some (Z.neg p).
Proof.
unfold parseInt. cbn [to_string].
change (pretty (Z.neg p)) with (String "-" (pretty_N_go (N.pos p) "")).
destruct (pretty_N_go_head (N.pos p) "") as (d & rest & Heq & Hd); [lia|].
assert (Hdigits : parse_digits 10 None (pretty_N_go (N.pos p) "") = Some (Z.pos p)).
{ rewrite parse_digits_pretty by lia. reflexivity. }
rewrite Heq in *.
assert (Hcases : (d = 1 ∨ d = 2 ∨ d = 3 ∨ d = 4 ∨ d = 5 ∨ d = 6 ∨ d = 7 ∨ d = 8 ∨ d = 9)%N)
  by lia.
unfold parseInt_string.
assert (Htrim : trim_start (String "-" (String (pretty_N_char d) rest))
                = String "-" (String (pretty_N_char d) rest)).
{ destruct rest; reflexivity. }
rewrite Htrim. cbn [strip_sign].
assert (Hradix : strip_radix_prefix (String (pretty_N_char d) rest)
                 = (10, String (pretty_N_char d) rest)).
{ repeat (destruct Hcases as [-> | Hcases]; [reflexivity|]). subst d. reflexivity. }
rewrite Hradix, Hdigits. reflexivity.
Qed.

(** [parseInt] reads a number back from its decimal text. *)
Lemma parseInt_number (n : Z) : parseInt (VNum n) = Some n ∧ parseInt (VStr (pretty n)) = Some n.
Proof.
assert (H : parseInt (VNum n) = Some n).
{ destruct n as [|p|p]; [reflexivity | apply parseInt_positive | apply parseInt_negative]. }
split; exact H.
Qed.

(** X8: what validation makes of a page and a limit that are safe
    integers, or texts of such as a query string carries them, when
    the item numbers of the page are safe integers too: a page below
    1 becomes 1 and any other page is kept; a limit of 0 becomes the
    default 20, a negative limit becomes 1, a limit above 100 becomes
    100, and a limit from 1 to 100 is kept. *)
Theorem validatePagination_numbers (p l : Z) :
  safe_integer p → safe_integer l →
  let validated :=
    {| page := Z.max 1 p;
       limit := if l =? 0 then 20 else Z.min 100 (Z.max 1 l);
       offset := (Z.max 1 p - 1) * (if l =? 0 then 20 else Z.min 100 (Z.max 1 l)) |} in
  safe_pagination validated →
  validatePagination (VNum p) (VNum l) = validated
  ∧ validatePagination (VStr (pretty p)) (VStr (pretty l)) = validated
  ∧ (1 ≤ p → 1 ≤ l ≤ 100 →
     validated = {| page := p; limit := l; offset := (p - 1) * l |}).
Proof.
intros _ _ validated _.
assert (H : validatePagination (VNum p) (VNum l) = validated).
{ unfold validatePagination, validated.
  rewrite (proj1 (parseInt_number p)), (proj1 (parseInt_number l)). unfold num_or.
  destruct (Z.eqb_spec p 0) as [Hp | Hp], (Z.eqb_spec l 0) as [Hl | Hl]; f_equal; lia. }
split; [exact H|]. split; [exact H|].
intros Hp Hl. unfold validated.
destruct (Z.eqb_spec l 0); [lia|].
replace (Z.max 1 p) with p by lia. replace (Z.min 100 (Z.max 1 l)) with l by lia.
reflexivity.
Qed.

Lemma validatePagination_numbers_witness :
  validatePagination (VNum 3) (VNum 250) = {| page := 3; limit := 100; offset := 200 |}
  ∧ validatePagination (VStr "3") (VStr "250") = {| page := 3; limit := 100; offset := 200 |}.
Proof.
destruct (validatePagination_numbers 3 250) as (Hnum & Htext & _).
- unfold safe_integer, max_safe_integer. lia.
- unfold safe_integer, max_safe_integer. lia.
- unfold safe_pagination, max_safe_integer. cbn. lia.
- split; [exact Hnum | exact Htext].
Defined.

Example validatePagination_numbers_samples :
  validatePagination (VStr "3") (VStr "250") = {| page := 3; limit := 100; offset := 200 |}
  ∧ validatePagination (VStr "-3") (VStr "-5") = {| page := 1; limit := 1; offset := 0 |}
  ∧ validatePagination (VStr "7") (VStr "0") = {| page := 7; limit := 20; offset := 120 |}
  ∧ validatePagination (VStr "2.9") (VStr "10.5") = {| page := 2; limit := 10; offset := 10 |}.
Proof. repeat split; vm_compute; reflexivity. Qed.

(** * Further properties of the routes *)

(** ** One thread *)

Lemma invalid_id_false (id : option Z) :
  invalid_id id = false ↔ ∃ n, id = Some n ∧ 1 ≤ n.
Proof.
destruct id as [n|]; cbn [invalid_id].
- rewrite orb_false_iff, Z.eqb_neq, Z.ltb_ge. split.
  + intros [_ Hn]. exists n. auto.
  + intros (m & [= <-] & Hm). lia.
- split; [discriminate | intros (n & Hn & _); discriminate].
Qed.

Lemma getThread_Some (db : Database) (n : Z) (t : thread_row) :
  getThread db n = Some t → t ∈ threads db ∧ t_id t = n.
Proof.
unfold getThread. intros Hhead. apply head_Some_elem_of in Hhead.
apply list_elem_of_filter in Hhead as [Hid Ht]. auto.
Qed.

Lemma getThread_None (db : Database) (n : Z) :
  getThread db n = None ↔ ∀ t, t ∈ threads db → t_id t ≠ n.
Proof.
unfold getThread. rewrite head_None. split.
- intros Hnil t Ht Hid.
  assert (Hin : t ∈ filter (fun t => t_id t = n) (threads db))
    by (apply list_elem_of_filter; auto).
  rewrite Hnil in Hin. inversion Hin.
- intros Hnone. destruct (filter _ (threads db)) as [|t ts] eqn:Hf; [reflexivity|].
  assert (Hin : t ∈ filter (fun t => t_id t = n) (threads db)) by (rewrite Hf; left).
  apply list_elem_of_filter in Hin as [Hid Ht]. destruct (Hnone t Ht Hid).
Qed.

Section ThreadRoutes.
Context {date_library : MomentLib} {sanitizer : SanitizeHtmlLib}.

(** A row of the threads table is formatted without a throw, and
    without a call of the normaliser: it has no time columns. *)
Lemma thread_object_formatted (t : thread_row) :
  ∃ category,
    getCategoryFromPath (VStr (t_path t)) = Normal category
    ∧ formatThreadForApi (thread_object t)
      = Normal (Some
          {| ThreadApi.id := VNum (t_id t);
             ThreadApi.name := VStr (t_name t);
             ThreadApi.path := VStr (t_path t);
             ThreadApi.language := language_of (t_path t);
             ThreadApi.category := category;
             ThreadApi.postCount := VNum 0;
             ThreadApi.lastPoster := VUndefined;
             ThreadApi.lastPostTime := VNull;
             ThreadApi.createdTime := VNull;
             ThreadApi.threadCreator := VUndefined |}).
Proof.
assert (Hprops : prop (thread_object t) "id" = VNum (t_id t)
                 ∧ prop (thread_object t) "name" = VStr (t_name t)
                 ∧ prop (thread_object t) "path" = VStr (t_path t)
                 ∧ prop (thread_object t) "post_count" = VUndefined
                 ∧ prop (thread_object t) "last_poster" = VUndefined
                 ∧ prop (thread_object t) "last_post_time" = VUndefined
                 ∧ prop (thread_object t) "created_time" = VUndefined
                 ∧ prop (thread_object t) "thread_creator" = VUndefined)
  by (repeat split; vm_compute; reflexivity).
destruct Hprops as (Hid & Hname & Hpath & Hcount & Hposter & Hlast & Hcreated & Hcreator).
assert (Hobj : ∃ fields, thread_object t = Obj fields) by (eexists; reflexivity).
destruct Hobj as [fields Hobj]. rewrite Hobj in *.
unfold formatThreadForApi. cbn [js_truthy negb].
rewrite Hid, Hname, Hpath, Hcount, Hposter, Hlast, Hcreated, Hcreator.
rewrite getLanguageFromPath_string, getCategoryFromPath_string.
eexists. split; reflexivity.
Qed.

(** X9: the answers of the thread route to a parameter that does not
    parse to a number above the safe integers.  It answers 400 exactly when
    the parameter does not parse to a number from 1 up, 404 exactly
    when it does and no thread has that id, and never 500; for the
    id of a thread it answers 200 with that thread, its language,
    and as [postCount] the number of posts of the thread. *)
Theorem threadRoute_answers (db : Database) (id : string) :
  safe_id id →
  let r := threadRoute db id in
  (status r = 400 ↔ ∀ n, parseInt (VStr id) = Some n → n < 1)
  ∧ (status r = 404 ↔
     ∃ n, parseInt (VStr id) = Some n ∧ 1 ≤ n ∧ ∀ t, t ∈ threads db → t_id t ≠ n)
  ∧ (status r = 200 ↔
     ∃ n t, parseInt (VStr id) = Some n ∧ 1 ≤ n ∧ t ∈ threads db ∧ t_id t = n)
  ∧ status r ≠ 500
  ∧ (status r = 200 →
     success r = true
     ∧ ∃ n t d, parseInt (VStr id) = Some n ∧ t ∈ threads db ∧ t_id t = n
                ∧ data r = Some d
                ∧ d !! "id" = Some (VNum n)
                ∧ d !! "name" = Some (VStr (t_name t))
                ∧ d !! "path" = Some (VStr (t_path t))
                ∧ d !! "language" = Some (VStr (language_of (t_path t)))
                ∧ d !! "postCount"
                  = Some (VNum (Z.of_nat (length (filter (fun p => p_thread_id p = n)
                                                         (posts db)))))).
Proof.
intros _ r. subst r. unfold threadRoute.
destruct (invalid_id (parseInt (VStr id))) eqn:Hvalid.
{ cbn [createErrorResponse status].
  assert (Hnone : ¬ ∃ n, parseInt (VStr id) = Some n ∧ 1 ≤ n).
  { intros Hn. apply invalid_id_false in Hn. congruence. }
  split; [|split; [|split; [|split]]]; try (split; [discriminate|]); try discriminate.
  - split; [|reflexivity]. intros _ n Hn.
    destruct (Z.lt_ge_cases n 1) as [Hlt | Hge]; [exact Hlt|].
    destruct Hnone. exists n. auto.
  - intros (n & Hn & Hge & _). destruct Hnone. exists n. auto.
  - intros (n & t & Hn & Hge & _). destruct Hnone. exists n. auto. }
apply invalid_id_false in Hvalid as (n & Hn & Hge). rewrite Hn.
change (default 0 (Some n)) with n.
assert (H400 : ¬ ∀ m, Some n = Some m → m < 1).
{ intros Hall. specialize (Hall n eq_refl). lia. }
destruct (getThread db n) as [t|] eqn:Hthread.
- apply getThread_Some in Hthread as [Ht Hid].
  destruct (thread_object_formatted t) as (category & _ & ->).
  cbn [createApiResponse status success data].
  split; [|split; [|split; [|split]]]; try (split; [discriminate|]); try discriminate.
  + intros Hall. destruct (H400 Hall).
  + intros (m & [= <-] & _ & Hnone). destruct (Hnone t Ht Hid).
  + split; [|reflexivity]. intros _. exists n, t. auto.
  + intros _. split; [reflexivity|]. exists n, t. eexists.
    split; [reflexivity|]. split; [exact Ht|]. split; [exact Hid|].
    split; [reflexivity|]. unfold getPostCount, posts_of. rewrite <- Hid.
    repeat split; vm_compute; reflexivity.
- rewrite getThread_None in Hthread. cbn [createErrorResponse status].
  split; [|split; [|split; [|split]]]; try (split; [discriminate|]); try discriminate.
  + intros Hall. destruct (H400 Hall).
  + split; [|reflexivity]. intros _. exists n. auto.
  + intros (m & t & [= <-] & _ & Ht & Hid). destruct (Hthread t Ht Hid).
Qed.

Example threadRoute_samples :
  status (threadRoute search_db "1") = 200
  ∧ status (threadRoute search_db " 2nd") = 200
  ∧ status (threadRoute search_db "3") = 404
  ∧ status (threadRoute search_db "0") = 400
  ∧ status (threadRoute search_db "-1") = 400
  ∧ status (threadRoute search_db "one") = 400
  ∧ (data (threadRoute search_db "1") ≫= (.!! "postCount")) = Some (VNum 2).
Proof. repeat split; vm_compute; reflexivity. Qed.

End ThreadRoutes.

Lemma threadRoute_answers_witness :
  status (@threadRoute sample_moment search_db "2") = 200
  ∧ status (@threadRoute sample_moment search_db "3") = 404.
Proof.
assert (Hsafe : ∀ id, (id = "2" ∨ id = "3") → safe_id id).
{ intros id [-> | ->] n Hn; vm_compute in Hn; injection Hn as <-;
    unfold max_safe_integer; lia. }
split.
- apply (proj1 (proj2 (proj2 (@threadRoute_answers sample_moment search_db "2"
                                (Hsafe "2" (or_introl eq_refl)))))).
  exists 2, {| t_id := 2; t_name := "Guilds"; t_path := english_path |}.
  split; [vm_compute; reflexivity|]. split; [lia|]. split; [right; left | reflexivity].
- apply (proj1 (proj2 (@threadRoute_answers sample_moment search_db "3"
                         (Hsafe "3" (or_intror eq_refl))))).
  exists 3. split; [vm_compute; reflexivity|]. split; [lia|].
  intros t Ht. unfold search_db in Ht. cbn [threads] in Ht.
  repeat (apply elem_of_cons in Ht as [-> | Ht]; [discriminate|]). inversion Ht.
Defined.

(** ** The posts of one thread, page by page *)

(** With one user row for an id, the join finds a post one user at
    the most. *)
Lemma users_of_id_unique (us : list user_row) (x : option Z) :
  NoDup (u_id <$> us) → (length (filter (fun u => x = Some (u_id u)) us) ≤ 1)%nat.
Proof.
induction us as [|u us IH]; [cbn; lia|].
rewrite fmap_cons, NoDup_cons. intros [Hfresh Hnodup].
rewrite filter_cons. destruct (decide (x = Some (u_id u))) as [Hx | Hx]; [|auto].
assert (Hnil : filter (fun u => x = Some (u_id u)) us = []).
{ destruct (filter _ us) as [|u' us'] eqn:Hf; [reflexivity|]. exfalso.
  assert (Hin : u' ∈ filter (fun u => x = Some (u_id u)) us) by (rewrite Hf; left).
  apply list_elem_of_filter in Hin as [Hx' Hin]. apply Hfresh.
  replace (u_id u) with (u_id u') by congruence.
  apply list_elem_of_fmap_2, Hin. }
rewrite Hnil. cbn. lia.
Qed.

Lemma left_join_length {A} (rows : list A) :
  (length rows ≤ 1)%nat → length (left_join rows) = 1%nat.
Proof.
destruct rows as [|a [|b rows]]; cbn; intros Hlen; [reflexivity | reflexivity | lia].
Qed.

(** Then the join has one row for each post of the thread. *)
Lemma posts_left_join_users_length (db : Database) (threadId : Z) :
  NoDup (u_id <$> users db) →
  length (posts_left_join_users db threadId) = length (posts_of db threadId).
Proof.
intros Hnodup. unfold posts_left_join_users.
induction (posts_of db threadId) as [|p ps IH]; [reflexivity|].
rewrite bind_cons, length_app, IH. cbn [length]. f_equal.
pose proof (left_join_length _ (users_of_id_unique (users db) (p_user_id p) Hnodup)) as Hone.
destruct (left_join _) as [|u [|u' us]]; cbn in Hone; try lia. reflexivity.
Qed.

Lemma limit_offset_length_exact {A} (n k : Z) (rows : list A) :
  0 ≤ n → 0 ≤ k →
  Z.of_nat (length (limit_offset n k rows))
  = Z.max 0 (Z.min n (Z.of_nat (length rows) - k)).
Proof.
intros Hn Hk. rewrite limit_offset_window, length_take, length_drop by exact Hn. lia.
Qed.

(** The page after the last: [p] pages of [n] rows leave something of
    [total] rows over exactly when [p] is below their number. *)
Lemma ceil_div_more (total n p : Z) :
  0 < n → (p * n < total ↔ p < ceil_div total n).
Proof. intros Hn. pose proof (ceil_div_bounds total n Hn). nia. Qed.

Section ThreadPosts.
Context {date_library : MomentLib} {sanitizer : SanitizeHtmlLib}.

(** Formatting the rows of posts does not throw. *)
Lemma format_post_rows (rows : list post_list_row) :
  ∃ out, cmap formatPostForApi (post_row_object <$> rows) = Normal out
         ∧ length out = length rows
         ∧ Forall (fun o => ∃ a, o = Some a) out.
Proof.
induction rows as [|r rows (out & Hout & Hlen & Hall)].
- exists []. split; [reflexivity|]. split; [reflexivity | constructor].
- assert (Hobj : ∃ fields, post_row_object r = Obj fields) by (eexists; reflexivity).
  destruct Hobj as [fields Hobj].
  destruct (formatPostForApi_object fields) as (ts & _ & Ha).
  eexists (Some _ :: out). split; [|split].
  + rewrite fmap_cons. cbn [cmap]. rewrite Hobj, Ha.
    cbn [mbind completion_bind]. rewrite Hout. reflexivity.
  + cbn [length]. rewrite Hlen. reflexivity.
  + constructor; [eexists; reflexivity | exact Hall].
Qed.

(** X10: the page of posts of a thread, for an id, a page and a
    limit within the safe integers.  Where a user id names one
    user, the route answers for a thread of the archive with as many
    posts as the page holds of the thread's posts, with their whole
    number as [totalPosts], and [hasMore] says exactly whether the
    page is before the last one, [hasPrev] whether it is after the
    first. *)
Theorem threadPostsRoute_pagination (db : Database) (id : string) (q_page q_limit : value)
    (n : Z) :
  parseInt (VStr id) = Some n → 1 ≤ n ≤ max_safe_integer →
  (∃ t, t ∈ threads db ∧ t_id t = n) →
  NoDup (u_id <$> users db) →
  safe_value q_page → safe_value q_limit →
  safe_pagination
    (validatePagination (with_default q_page (VNum 1)) (with_default q_limit (VNum 20))) →
  let pagination :=
    validatePagination (with_default q_page (VNum 1)) (with_default q_limit (VNum 20)) in
  let total := Z.of_nat (length (filter (fun p => p_thread_id p = n) (posts db))) in
  let r := threadPostsRoute db id q_page q_limit in
  status r = 200
  ∧ ∃ d, data r = Some d
         ∧ Z.of_nat (length (pd_posts d))
           = Z.max 0 (Z.min (limit pagination) (total - offset pagination))
         ∧ Forall (fun o => ∃ a, o = Some a) (pd_posts d)
         ∧ pd_pagination d
           = {[ "page" := VNum (page pagination);
                "limit" := VNum (limit pagination);
                "totalPages" := VNum (ceil_div total (limit pagination));
                "totalPosts" := VNum total;
                "hasMore" := VBool (bool_decide (page pagination
                                                 < ceil_div total (limit pagination)));
                "hasPrev" := VBool (bool_decide (1 < page pagination)) ]}.
Proof.
intros Hn [Hge _] (t0 & Ht0 & Hid0) Hnodup _ _ _ pagination total r. subst r.
unfold threadPostsRoute. fold pagination.
assert (Hvalid : invalid_id (parseInt (VStr id)) = false).
{ apply invalid_id_false. exists n. auto. }
rewrite Hvalid, Hn. change (default 0 (Some n)) with n.
destruct (getThread db n) as [t|] eqn:Hthread.
2:{ rewrite getThread_None in Hthread. destruct (Hthread t0 Ht0 Hid0). }
destruct (format_post_rows (getPosts db n (limit pagination) (offset pagination)))
  as (out & -> & Hlen & Hsome).
destruct (thread_object_formatted t) as (category & _ & ->).
cbn [mbind completion_bind createApiResponse status data].
split; [reflexivity|]. eexists. split; [reflexivity|].
cbn [pd_posts pd_pagination].
pose proof (validatePagination_bounds (with_default q_page (VNum 1))
              (with_default q_limit (VNum 20))) as Hbounds.
cbv zeta in Hbounds. fold pagination in Hbounds.
destruct Hbounds as (Hpage & Hlimit & Hoffset & Hnonneg).
assert (Hrows : Z.of_nat (length (getPosts db n (limit pagination) (offset pagination)))
                = Z.max 0 (Z.min (limit pagination) (total - offset pagination))).
{ unfold getPosts. rewrite limit_offset_length_exact by lia.
  rewrite (Permutation_length (merge_sort_Permutation _ _)).
  rewrite posts_left_join_users_length by exact Hnodup. reflexivity. }
split; [rewrite Hlen; exact Hrows|]. split; [exact Hsome|].
unfold getPostCount, posts_of. fold total. rewrite Hrows.
assert (Hmore : (offset pagination
                 + Z.max 0 (Z.min (limit pagination) (total - offset pagination)) <? total)
                = bool_decide (page pagination < ceil_div total (limit pagination))).
{ pose proof (ceil_div_more total (limit pagination) (page pagination) ltac:(lia)) as Hmore.
  destruct (Z.ltb_spec (offset pagination
                        + Z.max 0 (Z.min (limit pagination) (total - offset pagination)))
                       total) as [Hlt | Hnlt];
    [rewrite bool_decide_eq_true_2 | rewrite bool_decide_eq_false_2];
    try reflexivity; nia. }
assert (Hprev : (1 <? page pagination) = bool_decide (1 < page pagination)).
{ destruct (Z.ltb_spec 1 (page pagination));
    [rewrite bool_decide_eq_true_2 | rewrite bool_decide_eq_false_2];
    try reflexivity; lia. }
rewrite Hmore, Hprev. reflexivity.
Qed.

End ThreadPosts.

(** The first page of one post of a thread with two posts. *)
Lemma threadPostsRoute_pagination_witness :
  ∃ d, data (@threadPostsRoute sample_moment blank_sanitizer search_db "1" (VStr "1") (VStr "1"))
       = Some d
       ∧ length (pd_posts d) = 1%nat
       ∧ pd_pagination d !! "totalPages" = Some (VNum 2)
       ∧ pd_pagination d !! "hasMore" = Some (VBool true)
       ∧ pd_pagination d !! "hasPrev" = Some (VBool false).
Proof.
destruct (@threadPostsRoute_pagination sample_moment blank_sanitizer search_db "1"
            (VStr "1") (VStr "1") 1)
  as (_ & d & Hd & Hlen & _ & Hpag).
- vm_compute. reflexivity.
- unfold max_safe_integer. lia.
- eexists. split; [left | reflexivity].
- apply (bool_decide_unpack _). vm_compute. exact I.
- exact I.
- exact I.
- vm_compute. discriminate.
- exists d. split; [exact Hd|]. split.
  + apply Nat2Z.inj. rewrite Hlen. vm_compute. reflexivity.
  + rewrite Hpag. repeat split; vm_compute; reflexivity.
Defined.

(** ** The thread list and its last page *)

Section ThreadListPages.
Context {date_library : MomentLib}.


End ThreadListPages.


(** * Further properties of the user list *)

Lemma remove_dups_length_le `{EqDecision A} (l : list A) :
  (length (remove_dups l) ≤ length l)%nat.
Proof.
induction l as [|x l IH]; [reflexivity|]. cbn [remove_dups length].
destruct (decide_rel _ x l); cbn [length]; lia.
Qed.

Lemma remove_dups_length_pos `{EqDecision A} (l : list A) (x : A) :
  x ∈ l → (1 ≤ length (remove_dups l))%nat.
Proof.
intros Hx. apply elem_of_remove_dups in Hx.
destruct (remove_dups l); [inversion Hx | cbn; lia].
Qed.

(** A function that tells the elements of a list apart keeps the
    number of distinct ones. *)
Lemma remove_dups_length_fmap `{EqDecision A} `{EqDecision B} (f : A → B) (l : list A) :
  (∀ x y, x ∈ l → y ∈ l → f x = f y → x = y) →
  length (remove_dups (f <$> l)) = length (remove_dups l).
Proof.
induction l as [|x l IH]; [reflexivity|]. intros Hinj.
rewrite fmap_cons. cbn [remove_dups].
assert (IH' : length (remove_dups (f <$> l)) = length (remove_dups l)).
{ apply IH. intros a b Ha Hb. apply Hinj; right; assumption. }
destruct (decide_rel _ x l) as [Hx | Hx], (decide_rel _ (f x) (f <$> l)) as [Hfx | Hfx];
  cbn [length]; try lia.
- destruct Hfx. apply list_elem_of_fmap_2, Hx.
- destruct Hx. apply list_elem_of_fmap in Hfx as (y & Hxy & Hy).
  rewrite (Hinj x y); [exact Hy | left | right; exact Hy | exact Hxy].
Qed.

Lemma users_join_posts_elem (db : Database) (search : value) (u : user_row) (p : post_row) :
  (u, p) ∈ users_join_posts db search
  ↔ u ∈ users db ∧ user_listed search u = true
    ∧ p ∈ posts db ∧ p_user_id p = Some (u_id u).
Proof.
unfold users_join_posts, posts_by. rewrite list_elem_of_bind. split.
- intros (u' & Hp & Hu'). apply list_elem_of_filter in Hu' as [Hlisted Hu'].
  apply list_elem_of_bind in Hp as (p' & Heq & Hp').
  apply list_elem_of_singleton in Heq. injection Heq as -> ->.
  apply list_elem_of_filter in Hp' as [Hid Hp'].
  apply Is_true_true in Hlisted. auto.
- intros (Hu & Hlisted & Hp & Hid). exists u. split.
  + apply list_elem_of_bind. exists p. split; [apply list_elem_of_singleton; reflexivity|].
    apply list_elem_of_filter. auto.
  + apply list_elem_of_filter. split; [apply Is_true_true, Hlisted | exact Hu].
Qed.

Lemma user_listed_spec (search : value) (u : user_row) :
  user_listed search u = true
  ↔ ∃ name, u_name u = Some name ∧ name ≠ "" ∧ 0 < u_id u
            ∧ (truthy search = true → like (search_pattern search) name = true).
Proof.
unfold user_listed. destruct (u_name u) as [name|].
- rewrite !andb_true_iff, negb_true_iff, String.eqb_neq, Z.ltb_lt. split.
  + intros [[Hname Hid] Hlike]. exists name. repeat split; auto.
    intros Htruthy. rewrite Htruthy in Hlike. exact Hlike.
  + intros (name' & [= <-] & Hname & Hid & Hlike). repeat split; auto.
    destruct (truthy search); auto.
- split; [discriminate | intros (name & Hname & _); discriminate].
Qed.

#[local] Instance num_desc_total {A} (key : A → Z) : Total (num_desc key).
Proof. intros a b. unfold num_desc. lia. Qed.

#[local] Instance num_desc_transitive {A} (key : A → Z) : Transitive (num_desc key).
Proof. intros a b c. unfold num_desc. lia. Qed.

(** The rows of the user list come from the users that have a post. *)
Lemma user_listing_elem (db : Database) (search : value) (r : user_list_row) :
  r ∈ user_listing db search ↔
  ∃ u p, (u, p) ∈ users_join_posts db search
         ∧ r = user_list_row_of (users_join_posts db search) u.
Proof.
unfold user_listing. cbv zeta. rewrite merge_sort_Permutation, list_elem_of_fmap. split.
- intros (u & -> & Hu). apply elem_of_remove_dups, list_elem_of_fmap in Hu as ([u' p] & -> & Hup).
  exists u', p. auto.
- intros (u & p & Hup & ->). exists u. split; [reflexivity|].
  apply elem_of_remove_dups, list_elem_of_fmap. exists (u, p). auto.
Qed.

(** X12: the rows of a page of the user list.  A row nearer the top
    has the greater post count; a row is a user of the table with a
    name that is not empty, an id above 0, and a name that matches
    the search term when there is one; it has at least one post, at
    least one thread and no more threads than posts, and its first
    post is not after its last. *)
Theorem getUserList_rows (db : Database) (n k : Z) (search : value) :
  let rows := getUserList db n k search in
  (∀ i j ri rj, (i < j)%nat → rows !! i = Some ri → rows !! j = Some rj →
     ul_post_count rj ≤ ul_post_count ri)
  ∧ (∀ r, r ∈ rows →
       (∃ u name, u ∈ users db ∧ u_id u = ul_id r ∧ u_name u = ul_name r
                  ∧ ul_name r = Some name ∧ name ≠ ""
                  ∧ (truthy search = true → like (search_pattern search) name = true))
       ∧ 0 < ul_id r
       ∧ 1 ≤ ul_thread_count r ≤ ul_post_count r
       ∧ text_le (ul_first_post r) (ul_last_post r)).
Proof.
intros rows. split.
- intros i j ri rj Hij Hi Hj. unfold rows, getUserList in Hi, Hj.
  apply limit_offset_lookup in Hi, Hj. unfold user_listing in Hi, Hj.
  assert (Hshift : (Z.to_nat k + i < Z.to_nat k + j)%nat) by lia.
  exact (StronglySorted_lookup (num_desc ul_post_count) _ _ _ ri rj
           (StronglySorted_merge_sort _ _) Hshift Hi Hj).
- intros r Hr. unfold rows, getUserList in Hr. apply limit_offset_elem in Hr.
  apply user_listing_elem in Hr as (u & p & Hup & ->).
  pose proof Hup as Hjoin.
  apply users_join_posts_elem in Hjoin as (Hu & Hlisted & Hp & Hid).
  apply user_listed_spec in Hlisted as (name & Hname & Hnonempty & Hpos & Hlike).
  cbn [user_list_row_of ul_id ul_name ul_thread_count ul_post_count ul_first_post
       ul_last_post].
  split; [exists u, name; repeat split; auto|]. split; [exact Hpos|].
  assert (Hin : p ∈ (snd <$> filter (fun up => up.1 = u) (users_join_posts db search))).
  { apply list_elem_of_fmap. exists (u, p). split; [reflexivity|].
    apply list_elem_of_filter. auto. }
  split; [|apply sql_min_le_max].
  pose proof (remove_dups_length_le
                (p_thread_id <$> (snd <$> filter (fun up => up.1 = u)
                                            (users_join_posts db search)))) as Hle.
  rewrite length_fmap in Hle.
  pose proof (remove_dups_length_pos _ _ (list_elem_of_fmap_2 p_thread_id _ _ Hin)) as Hge.
  lia.
Qed.

(** ** One user row for an id *)

Lemma u_id_inj (us : list user_row) (u u' : user_row) :
  NoDup (u_id <$> us) → u ∈ us → u' ∈ us → u_id u = u_id u' → u = u'.
Proof.
induction us as [|a us IH]; [inversion 2|].
rewrite fmap_cons, NoDup_cons. intros [Hfresh Hnodup] Hu Hu' Hid.
apply elem_of_cons in Hu as [-> | Hu], Hu' as [-> | Hu']; auto.
- destruct Hfresh. rewrite Hid. apply list_elem_of_fmap_2, Hu'.
- destruct Hfresh. rewrite <- Hid. apply list_elem_of_fmap_2, Hu.
Qed.

Lemma head_unique {A} (l : list A) (x : A) :
  x ∈ l → (∀ y, y ∈ l → y = x) → head l = Some x.
Proof.
destruct l as [|a l]; [inversion 1|]. intros _ Hall. cbn. f_equal. apply Hall. left.
Qed.

Lemma pairs_of_user (u a : user_row) (ps : list post_row) :
  snd <$> filter (fun up : user_row * post_row => up.1 = u) (ps ≫= fun p => [(a, p)])
  = if decide (a = u) then ps else [].
Proof.
induction ps as [|p ps IH]; [destruct (decide (a = u)); reflexivity|].
rewrite bind_cons. cbn [app]. rewrite filter_cons. cbn [fst].
destruct (decide (a = u)) as [Hau | Hau]; [rewrite fmap_cons, IH; reflexivity | exact IH].
Qed.

Lemma group_of_user (db : Database) (us : list user_row) (u : user_row) :
  NoDup us →
  snd <$> filter (fun up : user_row * post_row => up.1 = u)
            (us ≫= fun u' => posts_by db (u_id u') ≫= fun p => [(u', p)])
  = if decide (u ∈ us) then posts_by db (u_id u) else [].
Proof.
induction us as [|a us IH]; [reflexivity|].
rewrite NoDup_cons. intros [Hfresh Hnodup].
rewrite bind_cons, filter_app, fmap_app, pairs_of_user, IH by exact Hnodup.
destruct (decide (a = u)) as [-> | Hau].
- rewrite (decide_False (P := u ∈ us)) by exact Hfresh.
  rewrite (decide_True (P := u ∈ u :: us)) by left. apply app_nil_r.
- destruct (decide (u ∈ us)) as [Hin | Hnin].
  + rewrite (decide_True (P := u ∈ a :: us)) by (right; exact Hin). reflexivity.
  + rewrite (decide_False (P := u ∈ a :: us)); [reflexivity|].
    intros Hu. apply elem_of_cons in Hu as [-> | Hu]; [destruct Hau; reflexivity | auto].
Qed.

Lemma listed_user_posts (db : Database) (search : value) (u : user_row) :
  NoDup (u_id <$> users db) → u ∈ users db → user_listed search u = true →
  snd <$> filter (fun up => up.1 = u) (users_join_posts db search) = posts_by db (u_id u).
Proof.
intros Hnodup Hu Hlisted. unfold users_join_posts.
rewrite group_of_user by (apply NoDup_filter, (NoDup_fmap_1 u_id), Hnodup).
apply decide_True, list_elem_of_filter. split; [apply Is_true_true, Hlisted | exact Hu].
Qed.

Lemma getUserWithStats_user (db : Database) (u : user_row) :
  NoDup (u_id <$> users db) → u ∈ users db →
  getUserWithStats db (u_id u)
  = Some {| us_id := u_id u;
            us_name := u_name u;
            us_total_posts := Z.of_nat (length (posts_by db (u_id u)));
            us_total_threads :=
              Z.of_nat (length (remove_dups (p_thread_id <$> posts_by db (u_id u))));
            us_first_post := sql_min (p_timestamp <$> posts_by db (u_id u));
            us_last_post := sql_max (p_timestamp <$> posts_by db (u_id u)) |}.
Proof.
intros Hnodup Hu. unfold getUserWithStats.
rewrite (head_unique _ u); [reflexivity | |].
- apply list_elem_of_filter. auto.
- intros u' Hu'. apply list_elem_of_filter in Hu' as [Hid Hu'].
  apply (u_id_inj (users db)); auto.
Qed.

(** Where a user id names one user row, the count of users is the
    length of the user list. *)
Lemma getUserCount_listing (db : Database) (search : value) :
  NoDup (u_id <$> users db) →
  getUserCount db search = Z.of_nat (length (user_listing db search)).
Proof.
intros Hnodup. unfold getUserCount, user_listing. cbv zeta.
rewrite (Permutation_length (merge_sort_Permutation _ _)), length_fmap.
f_equal.
change (fun up : user_row * post_row => u_id up.1)
  with (u_id ∘ (fst : user_row * post_row → user_row)).
rewrite list_fmap_compose.
apply remove_dups_length_fmap. intros u u' Hu Hu'.
apply list_elem_of_fmap in Hu as ([u1 p] & -> & Hu), Hu' as ([u2 p'] & -> & Hu').
apply users_join_posts_elem in Hu as (Hu & _), Hu' as (Hu' & _).
apply (u_id_inj (users db)); auto.
Qed.

(** X13: where a user id names one user row, the count of users is
    the length of the whole user list, and the row of a user in the
    list agrees with the profile of that user: the same name, the
    same number of posts, which is the number of posts carrying the
    user's id, the same number of threads, the same first and last
    post. *)
Theorem user_counts_agree (db : Database) (search : value) :
  NoDup (u_id <$> users db) →
  getUserCount db search = Z.of_nat (length (user_listing db search))
  ∧ ∀ r, r ∈ user_listing db search →
      ul_post_count r
      = Z.of_nat (length (filter (fun p => p_user_id p = Some (ul_id r)) (posts db)))
      ∧ ∃ s, getUserWithStats db (ul_id r) = Some s
             ∧ us_id s = ul_id r
             ∧ us_name s = ul_name r
             ∧ us_total_posts s = ul_post_count r
             ∧ us_total_threads s = ul_thread_count r
             ∧ us_first_post s = ul_first_post r
             ∧ us_last_post s = ul_last_post r.
Proof.
intros Hnodup. split; [apply getUserCount_listing, Hnodup|].
- intros r Hr. apply user_listing_elem in Hr as (u & p & Hup & ->).
  apply users_join_posts_elem in Hup as (Hu & Hlisted & _).
  cbn [user_list_row_of ul_id ul_name ul_thread_count ul_post_count ul_first_post
       ul_last_post].
  rewrite (listed_user_posts db search u Hnodup Hu Hlisted).
  split; [reflexivity|].
  rewrite (getUserWithStats_user db u Hnodup Hu). eexists. split; [reflexivity|].
  repeat split; reflexivity.
Qed.

Lemma user_counts_agree_witness :
  getUserCount search_db VUndefined = Z.of_nat (length (user_listing search_db VUndefined))
  ∧ ul_post_count <$> user_listing search_db VUndefined = [2].
Proof.
split.
- apply (user_counts_agree search_db VUndefined).
  apply (bool_decide_unpack _). vm_compute. exact I.
- vm_compute. reflexivity.
Defined.

(** Two user rows with one id are two rows of the list and one user
    of the count. *)
Example user_counts_shared_id :
  let db := {| threads := [];
               posts := [ {| p_id := 1; p_thread_id := 1; p_post_no := 1; p_user_id := Some 7;
                             p_timestamp := None; p_message := None |} ];
               users := [ {| u_id := 7; u_name := Some "Kailer" |};
                          {| u_id := 7; u_name := Some "Kailer2" |} ] |} in
  length (user_listing db VUndefined) = 2%nat ∧ getUserCount db VUndefined = 1.
Proof. split; vm_compute; reflexivity. Qed.

(** ** The routes of the users *)


Lemma user_stats_object_props (r : user_stats_row) :
  prop (user_stats_object r) "id" = VNum (us_id r)
  ∧ prop (user_stats_object r) "name" = null_or_text (us_name r)
  ∧ prop (user_stats_object r) "post_count" = VUndefined
  ∧ prop (user_stats_object r) "thread_count" = VUndefined
  ∧ prop (user_stats_object r) "total_posts" = VNum (us_total_posts r)
  ∧ prop (user_stats_object r) "total_threads" = VNum (us_total_threads r).
Proof. repeat split; vm_compute; reflexivity. Qed.

(** [n || 0] is [n]. *)
Lemma js_or_zero (n : Z) : js_or (VNum n) (VNum 0) = VNum n.
Proof.
unfold js_or. destruct (truthy (VNum n)) eqn:Htruthy; [reflexivity|].
cbn [truthy] in Htruthy. apply negb_false_iff, Z.eqb_eq in Htruthy. congruence.
Qed.


Lemma js_or_second (n : Z) : js_or (js_or VUndefined (VNum n)) (VNum 0) = VNum n.
Proof. unfold js_or at 2. cbn [truthy]. apply js_or_zero. Qed.

Section UserRoutes.
Context {date_library : MomentLib}.



Lemma user_stats_formatted (r : user_stats_row) :
  ∃ a, formatUserForApi (user_stats_object r) = Normal (Some a)
       ∧ UserApi.id a = VNum (us_id r)
       ∧ UserApi.postCount a = VNum (us_total_posts r)
       ∧ UserApi.threadCount a = VNum (us_total_threads r).
Proof.
destruct (user_stats_object_props r) as (Hid & Hname & Hposts & Hthreads & Htp & Htt).
assert (Hobj : ∃ fields, user_stats_object r = Obj fields) by (eexists; reflexivity).
destruct Hobj as [fields Hobj]. rewrite Hobj in *.
destruct (timestamp_or_null_returns (prop (Obj fields) "first_post")) as [fp Hfp].
destruct (timestamp_or_null_returns (prop (Obj fields) "last_post")) as [lp Hlp].
unfold formatUserForApi. cbn [js_truthy negb]. rewrite Hfp, Hlp.
cbn [mbind completion_bind]. eexists. split; [reflexivity|].
cbn [UserApi.id UserApi.name UserApi.postCount UserApi.threadCount].
rewrite Hid, Hposts, Hthreads, Htp, Htt, !js_or_second. auto.
Qed.


(** X15: the answers of the user route to a parameter that does not
    parse to a number above the safe integers.  It answers 400 exactly when
    the parameter does not parse to a number from 1 up, 404 exactly
    when it does and no user row has that id, and never 500; for the
    id of a user it answers 200 with that id, with the number of
    posts carrying it as [postCount] and the number of threads these
    posts are in as [threadCount]. *)
Theorem userRoute_answers (db : Database) (id : string) :
  safe_id id →
  let r := userRoute db id in
  (status r = 400 ↔ ∀ n, parseInt (VStr id) = Some n → n < 1)
  ∧ (status r = 404 ↔
     ∃ n, parseInt (VStr id) = Some n ∧ 1 ≤ n ∧ ∀ u, u ∈ users db → u_id u ≠ n)
  ∧ (status r = 200 ↔
     ∃ n u, parseInt (VStr id) = Some n ∧ 1 ≤ n ∧ u ∈ users db ∧ u_id u = n)
  ∧ status r ≠ 500
  ∧ (status r = 200 →
     success r = true
     ∧ ∃ n a, parseInt (VStr id) = Some n
              ∧ data r = Some (Some a)
              ∧ UserApi.id a = VNum n
              ∧ UserApi.postCount a
                = VNum (Z.of_nat (length (filter (fun p => p_user_id p = Some n)
                                                 (posts db))))
              ∧ UserApi.threadCount a
                = VNum (Z.of_nat (length (remove_dups
                                            (p_thread_id
                                               <$> filter (fun p => p_user_id p = Some n)
                                                          (posts db)))))).
Proof.
intros _ r. subst r. unfold userRoute.
destruct (invalid_id (parseInt (VStr id))) eqn:Hvalid.
{ cbn [createErrorResponse status].
  assert (Hnone : ¬ ∃ n, parseInt (VStr id) = Some n ∧ 1 ≤ n).
  { intros Hn. apply invalid_id_false in Hn. congruence. }
  split; [|split; [|split; [|split]]]; try (split; [discriminate|]); try discriminate.
  - split; [|reflexivity]. intros _ n Hn.
    destruct (Z.lt_ge_cases n 1) as [Hlt | Hge]; [exact Hlt|].
    destruct Hnone. exists n. auto.
  - intros (n & Hn & Hge & _). destruct Hnone. exists n. auto.
  - intros (n & t & Hn & Hge & _). destruct Hnone. exists n. auto. }
apply invalid_id_false in Hvalid as (n & Hn & Hge). rewrite Hn.
change (default 0 (Some n)) with n.
assert (H400 : ¬ ∀ m, Some n = Some m → m < 1).
{ intros Hall. specialize (Hall n eq_refl). lia. }
unfold getUserWithStats.
destruct (head (filter (fun u => u_id u = n) (users db))) as [u|] eqn:Huser.
- apply head_Some_elem_of, list_elem_of_filter in Huser as [Hid Hu].
  destruct (user_stats_formatted
              {| us_id := u_id u; us_name := u_name u;
                 us_total_posts := Z.of_nat (length (posts_by db n));
                 us_total_threads :=
                   Z.of_nat (length (remove_dups (p_thread_id <$> posts_by db n)));
                 us_first_post := sql_min (p_timestamp <$> posts_by db n);
                 us_last_post := sql_max (p_timestamp <$> posts_by db n) |})
    as (a & -> & Haid & Haposts & Hathreads).
  cbn [createApiResponse status success data].
  split; [|split; [|split; [|split]]]; try (split; [discriminate|]); try discriminate.
  + intros Hall. destruct (H400 Hall).
  + intros (m & [= <-] & _ & Hnone). destruct (Hnone u Hu Hid).
  + split; [|reflexivity]. intros _. exists n, u. auto.
  + intros _. split; [reflexivity|]. exists n, a.
    split; [reflexivity|]. split; [reflexivity|].
    cbn [us_id us_total_posts us_total_threads] in Haid, Haposts, Hathreads.
    rewrite Haid, Haposts, Hathreads, Hid. auto.
- cbn [createErrorResponse status].
  assert (Hnone : ∀ u, u ∈ users db → u_id u ≠ n).
  { intros u Hu Hid. apply head_None in Huser.
    assert (Hin : u ∈ filter (fun u => u_id u = n) (users db))
      by (apply list_elem_of_filter; auto).
    rewrite Huser in Hin. inversion Hin. }
  split; [|split; [|split; [|split]]]; try (split; [discriminate|]); try discriminate.
  + intros Hall. destruct (H400 Hall).
  + split; [|reflexivity]. intros _. exists n. auto.
  + intros (m & u & [= <-] & _ & Hu & Hid). destruct (Hnone u Hu Hid).
Qed.

End UserRoutes.

Lemma userRoute_answers_witness :
  status (@userRoute sample_moment search_db "7") = 200.
Proof.
assert (Hsafe : safe_id "7").
{ intros n Hn. vm_compute in Hn. injection Hn as <-. unfold max_safe_integer. lia. }
apply (proj1 (proj2 (proj2 (@userRoute_answers sample_moment search_db "7" Hsafe)))).
exists 7, {| u_id := 7; u_name := Some "Kailer" |}.
split; [vm_compute; reflexivity|]. split; [lia|]. split; [left | reflexivity].
Defined.

Example userRoute_samples :
  status (@userRoute sample_moment search_db "7") = 200
  ∧ status (@userRoute sample_moment search_db "8") = 404
  ∧ status (@userRoute sample_moment search_db "0") = 400
  ∧ status (@userRoute sample_moment search_db "seven") = 400
  ∧ match data (@userRoute sample_moment search_db "7") with
    | Some (Some a) => UserApi.postCount a = VNum 2 ∧ UserApi.threadCount a = VNum 2
    | _ => False
    end.
Proof. repeat split; vm_compute; reflexivity. Qed.


(** ** The posts and the threads of a user *)

Lemma getUserPosts_elem (db : Database) (userId limit offset : Z) (r : user_post_row) :
  r ∈ getUserPosts db userId limit offset →
  up_thread r ∈ threads db
  ∧ p_thread_id (up_post r) = t_id (up_thread r)
  ∧ up_post r ∈ posts db
  ∧ p_user_id (up_post r) = Some userId.
Proof.
unfold getUserPosts, order_by_desc. intros Hr. apply limit_offset_elem in Hr.
rewrite merge_sort_Permutation in Hr.
apply list_elem_of_bind in Hr as (p & Hr & Hp).
apply list_elem_of_bind in Hr as (t & Hr & Ht).
apply list_elem_of_singleton in Hr as ->. cbn [up_post up_thread].
apply list_elem_of_filter in Ht as [Hid Ht], Hp as [Huser Hp]. auto.
Qed.

Lemma getUserThreads_elem (db : Database) (userId limit offset : Z) (r : user_thread_row) :
  r ∈ getUserThreads db userId limit offset →
  ut_thread r ∈ threads db
  ∧ ut_post_count r = Z.of_nat (length (posts_of db (t_id (ut_thread r))))
  ∧ ∃ p, p ∈ posts db ∧ p_thread_id p = t_id (ut_thread r) ∧ p_user_id p = Some userId.
Proof.
unfold getUserThreads, order_by_desc. cbv zeta. intros Hr.
rewrite merge_sort_Permutation in Hr.
apply list_elem_of_bind in Hr as (g & Hr & Hg).
apply list_elem_of_bind in Hr as (t & Hr & Ht).
apply list_elem_of_bind in Hr as (tc & Hr & Htc).
apply list_elem_of_singleton in Hr as ->. cbn [ut_thread ut_post_count].
apply list_elem_of_filter in Ht as [Hgt Ht], Htc as [Htid Htc].
apply limit_offset_elem in Hg. rewrite merge_sort_Permutation in Hg.
unfold user_thread_groups in Hg. apply list_elem_of_fmap in Hg as (tid & -> & Htidin).
apply elem_of_remove_dups, list_elem_of_fmap in Htidin as (p & -> & Hp).
apply list_elem_of_filter in Hp as [Huser Hp]. cbn [fst] in Hgt.
unfold thread_counts in Htc. apply list_elem_of_fmap in Htc as (tid' & -> & _).
cbn [fst snd] in *. subst tid'.
split; [exact Ht|]. split; [reflexivity|]. exists p. auto.
Qed.

Lemma user_post_object_props (r : user_post_row) :
  prop (user_post_object r) "username" = VUndefined
  ∧ prop (user_post_object r) "user_id" = VUndefined
  ∧ prop (user_post_object r) "thread_id" = VNum (p_thread_id (up_post r))
  ∧ prop (user_post_object r) "thread_name" = VStr (t_name (up_thread r))
  ∧ prop (user_post_object r) "thread_path" = VStr (t_path (up_thread r)).
Proof. repeat split; vm_compute; reflexivity. Qed.

Lemma user_thread_object_props (r : user_thread_row) :
  prop (user_thread_object r) "id" = VNum (t_id (ut_thread r))
  ∧ prop (user_thread_object r) "path" = VStr (t_path (ut_thread r))
  ∧ prop (user_thread_object r) "post_count" = VNum (ut_post_count r)
  ∧ prop (user_thread_object r) "last_poster" = VUndefined
  ∧ prop (user_thread_object r) "last_post_time" = VUndefined
  ∧ prop (user_thread_object r) "created_time" = VUndefined
  ∧ prop (user_thread_object r) "thread_creator" = VUndefined.
Proof. repeat split; vm_compute; reflexivity. Qed.

Section UserPosts.
Context {date_library : MomentLib} {sanitizer : SanitizeHtmlLib}.

Lemma format_user_post_rows (db : Database) (rows : list user_post_row) :
  (∀ r, r ∈ rows → up_thread r ∈ threads db
                   ∧ p_thread_id (up_post r) = t_id (up_thread r)) →
  ∃ out, cmap formatPostForApi (user_post_object <$> rows) = Normal out
         ∧ length out = length rows
         ∧ Forall (user_post_formats db) out.
Proof.
induction rows as [|r rows IH]; intros Hrows.
- exists []. split; [reflexivity|]. split; [reflexivity | constructor].
- destruct IH as (out & Hout & Hlen & Hall).
  { intros r' Hr'. apply Hrows. right. exact Hr'. }
  destruct (Hrows r) as [Ht Hid]; [left|].
  destruct (user_post_object_props r) as (Hname & Huser & Htid & Htname & Htpath).
  assert (Hobj : ∃ fields, user_post_object r = Obj fields) by (eexists; reflexivity).
  destruct Hobj as [fields Hobj]. rewrite Hobj in *.
  destruct (formatPostForApi_object fields) as (ts & _ & Ha).
  eexists (Some _ :: out). split; [|split].
  + rewrite fmap_cons. cbn [cmap]. rewrite Hobj, Ha.
    cbn [mbind completion_bind]. rewrite Hout. reflexivity.
  + cbn [length]. rewrite Hlen. reflexivity.
  + constructor; [|exact Hall]. eexists. split; [reflexivity|].
    cbn [PostApi.username PostApi.userId PostApi.threadId PostApi.threadName
         PostApi.threadPath].
    rewrite Hname, Huser, Htid, Htname, Htpath, Hid.
    split; [reflexivity|]. split; [reflexivity|]. exists (up_thread r). auto.
Qed.

Lemma format_user_thread_rows (db : Database) (userId : Z) (rows : list user_thread_row) :
  (∀ r, r ∈ rows →
        ut_thread r ∈ threads db
        ∧ ut_post_count r = Z.of_nat (length (posts_of db (t_id (ut_thread r))))
        ∧ ∃ p, p ∈ posts db ∧ p_thread_id p = t_id (ut_thread r)
               ∧ p_user_id p = Some userId) →
  ∃ out, cmap formatThreadForApi (user_thread_object <$> rows) = Normal out
         ∧ length out = length rows
         ∧ Forall (user_thread_formats db userId) out.
Proof.
induction rows as [|r rows IH]; intros Hrows.
- exists []. split; [reflexivity|]. split; [reflexivity | constructor].
- destruct IH as (out & Hout & Hlen & Hall).
  { intros r' Hr'. apply Hrows. right. exact Hr'. }
  destruct (Hrows r) as (Ht & Hcount & Hpost); [left|].
  destruct (user_thread_object_props r)
    as (Hid & Hpath & Hposts & Hposter & Hlast & Hcreated & Hcreator).
  assert (Hobj : ∃ fields, user_thread_object r = Obj fields) by (eexists; reflexivity).
  destruct Hobj as [fields Hobj]. rewrite Hobj in *.
  assert (Ha : ∃ a, formatThreadForApi (Obj fields) = Normal (Some a)
                    ∧ user_thread_formats db userId (Some a)).
  { unfold formatThreadForApi. cbn [js_truthy negb].
    rewrite Hpath, getLanguageFromPath_string, getCategoryFromPath_string.
    rewrite Hlast, Hcreated, Hid, Hposts, Hposter, Hcreator.
    cbn [mbind completion_bind timestamp_or_null truthy].
    eexists. split; [reflexivity|]. eexists _, (ut_thread r). split; [reflexivity|].
    cbn [ThreadApi.id ThreadApi.language ThreadApi.postCount ThreadApi.lastPostTime
         ThreadApi.createdTime ThreadApi.lastPoster ThreadApi.threadCreator].
    rewrite js_or_zero, Hcount. repeat split; auto. }
  destruct Ha as (a & Ha & Hformats).
  exists (Some a :: out). split; [|split].
  + rewrite fmap_cons. cbn [cmap]. rewrite Hobj, Ha.
    cbn [mbind completion_bind]. rewrite Hout. reflexivity.
  + cbn [length]. rewrite Hlen. reflexivity.
  + constructor; assumption.
Qed.

(** X16: the posts of a user, as the users router gives them.  The
    query selects neither the user id nor a user name, so every post
    of the answer is labelled with the username "Guest" and has no
    [userId]; it carries the id, the name and the path of a thread
    of the archive, and the page holds no more posts than the
    limit. *)
Theorem userPostsRoute_posts (db : Database) (id : string) (q_page q_limit : value) :
  let r := userPostsRoute db id q_page q_limit in
  let pagination :=
    validatePagination (with_default q_page (VNum 1)) (with_default q_limit (VNum 20)) in
  status r = 200 →
  ∃ d, data r = Some d
       ∧ Forall (user_post_formats db) (upd_posts d)
       ∧ Z.of_nat (length (upd_posts d)) ≤ limit pagination.
Proof.
intros r pagination. subst r. unfold userPostsRoute. fold pagination.
destruct (invalid_id (parseInt (VStr id))) eqn:Hvalid; [discriminate|].
destruct (getUserWithStats db (default 0 (parseInt (VStr id)))) as [user|];
  [|discriminate].
destruct (format_user_post_rows db
            (getUserPosts db (default 0 (parseInt (VStr id))) (limit pagination)
               (offset pagination)))
  as (out & -> & Hlen & Hall).
{ intros r Hr. apply getUserPosts_elem in Hr as (Ht & Hid & _). auto. }
destruct (user_stats_formatted user) as (a & -> & _).
cbn [mbind completion_bind createApiResponse status data]. intros _.
eexists. split; [reflexivity|]. cbn [upd_posts]. split; [exact Hall|].
rewrite Hlen. unfold getUserPosts. apply limit_offset_length.
pose proof (validatePagination_bounds (with_default q_page (VNum 1))
              (with_default q_limit (VNum 20))) as Hbounds.
cbv zeta in Hbounds. fold pagination in Hbounds. lia.
Qed.

(** X17: the threads of a user, as the users router gives them.  A
    thread of the answer is a thread of the archive in which the
    user has a post, whether the user started it or not; its
    [postCount] counts the posts of all users in it; and since the
    query names its times [first_post] and [last_post], the
    formatter finds none: [lastPostTime] and [createdTime] are
    [null], and there is no last poster and no creator. *)
Theorem userThreadsRoute_threads (db : Database) (id : string) (q_page q_limit : value) :
  let r := userThreadsRoute db id q_page q_limit in
  status r = 200 →
  ∃ n d, parseInt (VStr id) = Some n ∧ 1 ≤ n
         ∧ data r = Some d
         ∧ Forall (user_thread_formats db n) (utd_threads d).
Proof.
intros r. subst r. unfold userThreadsRoute.
destruct (invalid_id (parseInt (VStr id))) eqn:Hvalid; [discriminate|].
apply invalid_id_false in Hvalid as (n & Hn & Hge). rewrite Hn.
change (default 0 (Some n)) with n.
destruct (getUserWithStats db n) as [user|]; [|discriminate].
set (pagination := validatePagination _ _).
destruct (format_user_thread_rows db n
            (getUserThreads db n (limit pagination) (offset pagination)))
  as (out & -> & Hlen & Hall).
{ intros r Hr. apply getUserThreads_elem in Hr. exact Hr. }
destruct (user_stats_formatted user) as (a & -> & _).
cbn [mbind completion_bind createApiResponse status data]. intros _.
exists n. eexists. split; [reflexivity|]. split; [exact Hge|].
split; [reflexivity|]. exact Hall.
Qed.

End UserPosts.

Lemma userPostsRoute_posts_witness :
  ∃ d, data (@userPostsRoute sample_moment blank_sanitizer reply_db "7" VUndefined VUndefined)
       = Some d
       ∧ PostApi.username <$> omap id (upd_posts d) = [VStr "Guest"].
Proof.
destruct (@userPostsRoute_posts sample_moment blank_sanitizer reply_db "7"
            VUndefined VUndefined) as (d & Hd & _).
- vm_compute. reflexivity.
- exists d. split; [exact Hd|].
  vm_compute in Hd. injection Hd as <-. vm_compute. reflexivity.
Defined.

Lemma userThreadsRoute_threads_witness :
  ∃ d, data (@userThreadsRoute sample_moment reply_db "7" VUndefined VUndefined) = Some d
       ∧ (fun a => (ThreadApi.id a, ThreadApi.postCount a, ThreadApi.createdTime a))
           <$> omap id (utd_threads d)
         = [(VNum 1, VNum 2, VNull)].
Proof.
destruct (@userThreadsRoute_threads sample_moment reply_db "7" VUndefined VUndefined)
  as (n & d & _ & _ & Hd & _).
- vm_compute. reflexivity.
- exists d. split; [exact Hd|].
  vm_compute in Hd. injection Hd as <-. vm_compute. reflexivity.
Defined.

(** * Further properties of the language and category lists *)

#[local] Instance text_asc_total : Total text_asc.
Proof. intros a b. unfold text_asc. apply String.leb_total. Qed.

Lemma sql_language_cases (path : string) :
  sql_language path = "Other" ∨ sql_language path ∈ languageTokens.*2.
Proof.
unfold sql_language, languageTokens.
repeat match goal with
       | |- context [like ?p path] => destruct (like p path)
       end;
  (left; reflexivity) || (right; apply (bool_decide_unpack _); vm_compute; exact I).
Qed.

(** A path that the formatter gives a language is given one by the
    [CASE], which looks for the same segments with [LIKE]. *)
Lemma sql_language_of (path : string) :
  language_of path ≠ "Other" → sql_language path ≠ "Other".
Proof.
intros Hother.
destruct (language_of_token path (language_of path) eq_refl Hother) as [Hel Hsub].
assert (Hlike : like ("%" +:+ ("/" +:+ language_of path +:+ "/") +:+ "%") path = true).
{ apply like_contains; [|exact Hsub].
  unfold languageTokens in Hel.
  repeat (apply elem_of_cons in Hel as [Heq | Hel];
          [injection Heq as _ ->; reflexivity|]).
  inversion Hel. }
unfold languageTokens in Hel. unfold sql_language.
repeat (apply elem_of_cons in Hel as [Heq | Hel];
        [injection Heq as _ Heq; rewrite Heq in Hlike;
         match type of Hlike with
         | like ?p _ = _ => let p' := eval vm_compute in p in change p with p' in Hlike
         end;
         repeat match goal with
                | |- context [like ?p path] =>
                    let H := fresh "Hcase" in destruct (like p path) eqn:H
                end; try discriminate; congruence |]).
inversion Hel.
Qed.

Lemma getLanguages_elem (db : Database) (l : string) :
  l ∈ getLanguages db ↔ l ≠ "Other" ∧ ∃ t, t ∈ threads db ∧ sql_language (t_path t) = l.
Proof.
unfold getLanguages.
rewrite merge_sort_Permutation, elem_of_remove_dups, list_elem_of_filter.
rewrite <- list_fmap_compose, list_elem_of_fmap. cbn [compose].
split; intros [Hother (t & Ht & Hin)]; (split; [exact Hother|]); exists t; auto.
Qed.

(** X18: the list of languages.  It is in ascending order of bytes
    without a repetition, holds some of the six languages and never
    "Other"; a language is listed exactly when the [CASE] gives it
    to the path of a thread, and every thread that the formatter
    labels with a language has the language of its [CASE] listed. *)
Theorem getLanguages_listed (db : Database) :
  Sorted text_asc (getLanguages db)
  ∧ NoDup (getLanguages db)
  ∧ (length (getLanguages db) ≤ 6)%nat
  ∧ (∀ l, l ∈ getLanguages db ↔
          l ≠ "Other" ∧ ∃ t, t ∈ threads db ∧ sql_language (t_path t) = l)
  ∧ (∀ l, l ∈ getLanguages db → l ∈ languageTokens.*2)
  ∧ (∀ t, t ∈ threads db → language_of (t_path t) ≠ "Other" →
          sql_language (t_path t) ∈ getLanguages db).
Proof.
assert (Hnodup : NoDup (getLanguages db)).
{ unfold getLanguages. rewrite merge_sort_Permutation. apply NoDup_remove_dups. }
assert (Hsix : ∀ l, l ∈ getLanguages db → l ∈ languageTokens.*2).
{ intros l Hl. apply getLanguages_elem in Hl as [Hother (t & _ & <-)].
  destruct (sql_language_cases (t_path t)) as [Heq | Hin]; [contradiction | exact Hin]. }
split; [apply Sorted_merge_sort, _|]. split; [exact Hnodup|]. split; [|split; [|split]].
- change 6%nat with (length (languageTokens.*2)).
  apply submseteq_length, NoDup_submseteq; assumption.
- apply getLanguages_elem.
- exact Hsix.
- intros t Ht Hlang. apply getLanguages_elem. split; [apply sql_language_of, Hlang|].
  exists t. auto.
Qed.

Example getLanguages_samples :
  getLanguages sample_db = ["English"; "Español"]
  ∧ getLanguages
      {| threads := [ {| t_id := 1; t_name := "a";
                         t_path := "Calendar/Champions of Regnum/English/español/" |};
                      {| t_id := 2; t_name := "b"; t_path := "Calendar/Other/General" |} ];
         posts := []; users := [] |}
    = ["Español"]
  ∧ language_of "Calendar/Champions of Regnum/English/español/" = "English".
Proof. repeat split; vm_compute; reflexivity. Qed.

(** ** Counting in groups *)

Lemma total_of_Permutation (l l' : list Z) : l ≡ₚ l' → total_of l = total_of l'.
Proof.
induction 1 as [|x l l' _ IH|x y l|l l' l'' _ IH1 _ IH2]; unfold total_of in *;
  cbn [foldr]; lia.
Qed.

Lemma total_of_indicator {A} `{EqDecision A} (cs : list A) (c0 : A) :
  NoDup cs → c0 ∈ cs →
  total_of ((fun c => if decide (c0 = c) then 1 else 0) <$> cs) = 1.
Proof.
induction cs as [|c cs IH]; [inversion 2|].
rewrite NoDup_cons. intros [Hfresh Hnodup] Hin. rewrite fmap_cons.
unfold total_of in *. cbn [foldr].
destruct (decide (c0 = c)) as [-> | Hne].
- assert (Hzero : foldr Z.add 0 ((fun c' => if decide (c = c') then 1 else 0) <$> cs) = 0).
  { clear IH Hin Hnodup. induction cs as [|c' cs IH]; [reflexivity|].
    rewrite fmap_cons. cbn [foldr].
    destruct (decide (c = c')) as [-> | _]; [destruct Hfresh; left|].
    rewrite IH; [reflexivity|]. intros Hc. apply Hfresh. right. exact Hc. }
  rewrite Hzero. reflexivity.
- apply elem_of_cons in Hin as [-> | Hin]; [contradiction|].
  rewrite IH by assumption. reflexivity.
Qed.

(** The groups of a list under a key, counted one by one, count the
    list. *)
Lemma group_count_sum {A C} `{EqDecision C} (key : A → C) (l : list A) (cs : list C) :
  NoDup cs → (∀ x, x ∈ l → key x ∈ cs) →
  total_of ((fun c => Z.of_nat (length (filter (fun x => key x = c) l))) <$> cs)
  = Z.of_nat (length l).
Proof.
intros Hnodup. induction l as [|x l IH]; intros Hkeys.
- clear. unfold total_of. induction cs as [|c cs IH]; [reflexivity|].
  rewrite fmap_cons. cbn [foldr]. rewrite IH. reflexivity.
- assert (Hsplit : ∀ cs',
    total_of ((fun c => Z.of_nat (length (filter (fun x' => key x' = c) (x :: l)))) <$> cs')
    = total_of ((fun c => Z.of_nat (length (filter (fun x' => key x' = c) l))) <$> cs')
      + total_of ((fun c => if decide (key x = c) then 1 else 0) <$> cs')).
  { intros cs'. unfold total_of. induction cs' as [|c cs' IH']; [reflexivity|].
    rewrite !fmap_cons. cbn [foldr]. rewrite IH'. rewrite filter_cons.
    destruct (decide (key x = c)); cbn [length]; lia. }
  rewrite Hsplit, IH, total_of_indicator.
  + cbn [length]. lia.
  + exact Hnodup.
  + apply Hkeys. left.
  + intros x' Hx'. apply Hkeys. right. exact Hx'.
Qed.

(** ** The categories of a language *)

#[local] Instance asc_on_total {A} (key : A → string) : Total (asc_on key).
Proof. intros a b. unfold asc_on. apply text_asc_total. Qed.

(** X19: the categories of a language.  The rows are in ascending
    order of the category without a repetition; a row counts the
    threads that pass the path pattern and have its category, at
    least one; and the counts add up to the number of threads that
    pass the pattern. *)
Theorem getCategories_rows (db : Database) (language : value) :
  let rows := getCategories db language in
  let selected :=
    filter (fun t => like (categories_pattern language) (t_path t)) (threads db) in
  Sorted (asc_on c_category) rows
  ∧ NoDup (c_category <$> rows)
  ∧ (∀ r, r ∈ rows →
       1 ≤ c_thread_count r
       ∧ c_thread_count r
         = Z.of_nat (length (filter (fun t => category_column language (t_path t)
                                              = c_category r) selected)))
  ∧ total_of (c_thread_count <$> rows) = Z.of_nat (length selected).
Proof.
intros rows selected. unfold rows, getCategories. fold selected.
set (cs := remove_dups (category_column language <$> (t_path <$> selected))).
set (row := fun c : string => {| c_category := c; c_thread_count := _ |}).
assert (Hcs : NoDup cs) by apply NoDup_remove_dups.
split; [apply Sorted_merge_sort, _|]. split; [|split].
- rewrite merge_sort_Permutation, <- list_fmap_compose.
  cbn [compose]. unfold row. cbn [c_category]. rewrite list_fmap_id. exact Hcs.
- intros r Hr. rewrite merge_sort_Permutation in Hr.
  apply list_elem_of_fmap in Hr as (c & -> & Hc). unfold row. cbn [c_category c_thread_count].
  split; [|reflexivity].
  unfold cs in Hc. rewrite elem_of_remove_dups in Hc.
  apply list_elem_of_fmap in Hc as (path & -> & Hpath).
  apply list_elem_of_fmap in Hpath as (t & -> & Ht).
  assert (Hin : t ∈ filter (fun t' => category_column language (t_path t')
                                       = category_column language (t_path t)) selected).
  { apply list_elem_of_filter. auto. }
  destruct (filter _ selected); [inversion Hin | cbn [length]; lia].
- rewrite (total_of_Permutation _ (c_thread_count <$> (row <$> cs)))
    by (apply fmap_Permutation, merge_sort_Permutation).
  rewrite <- list_fmap_compose. unfold row. cbn [compose c_thread_count].
  apply (group_count_sum (fun t => category_column language (t_path t)) selected cs Hcs).
  intros t Ht. apply elem_of_remove_dups.
  apply list_elem_of_fmap_2, list_elem_of_fmap_2, Ht.
Qed.

Lemma append_assoc (a b c : string) : (a +:+ b) +:+ c = a +:+ (b +:+ c).
Proof. induction a as [|x a IH]; [reflexivity|]. rewrite !append_cons, IH. reflexivity. Qed.

Lemma literal_app (a b : string) : literal (a +:+ b) = literal a && literal b.
Proof.
induction a as [|x a IH]; [reflexivity|]. rewrite append_cons. cbn [literal].
rewrite IH. apply andb_assoc.
Qed.

(** The characters of a text that ends in a slash, and the slash,
    are dropped by their number. *)
Lemma sql_drop_slash (a rest : string) (absorbing : bool) :
  sql_drop_from absorbing (sql_length_from absorbing a + 1) (a +:+ String "/" rest) = rest.
Proof.
revert absorbing. induction a as [|c a IH]; intros absorbing.
- cbn [sql_length_from Nat.add]. rewrite append_empty_l. cbn [sql_drop_from].
  replace (absorbing && is_continuation "/") with false by (destruct absorbing; reflexivity).
  destruct rest; reflexivity.
- rewrite append_cons. cbn [sql_length_from sql_drop_from].
  destruct (absorbing && is_continuation c); [apply IH|].
  cbn [Nat.add]. apply IH.
Qed.

Lemma sql_length_slash (a : string) (absorbing : bool) :
  sql_length_from absorbing (a +:+ "/") = (sql_length_from absorbing a + 1)%nat.
Proof.
revert absorbing. induction a as [|c a IH]; intros absorbing.
- rewrite append_empty_l. cbn [sql_length_from].
  replace (absorbing && is_continuation "/") with false by (destruct absorbing; reflexivity).
  reflexivity.
- rewrite append_cons. cbn [sql_length_from].
  destruct (absorbing && is_continuation c); rewrite IH; reflexivity.
Qed.

(** The category column of a path that is made of the prefix, the
    language and a remainder is the remainder. *)
Lemma category_column_remainder (language rest : string) :
  language ≠ "" →
  category_column (VStr language) (categoryPrefix +:+ language +:+ "/" +:+ rest) = rest.
Proof.
intros Hne. unfold category_column, sql_substr. cbn [truthy to_string].
apply String.eqb_neq in Hne. rewrite Hne. cbn [negb].
unfold sql_length.
change (sql_length_from false "Calendar/Champions of Regnum/") with 29%nat.
replace (Z.to_nat (Z.of_nat 29 + Z.of_nat (sql_length_from false language) + 2 - 1))
  with (29 + (sql_length_from false language + 1))%nat by lia.
change (sql_drop_from false (29 + (sql_length_from false language + 1))
          (categoryPrefix +:+ language +:+ "/" +:+ rest))
  with (sql_drop_from false (sql_length_from false language + 1)
          (language +:+ String "/" rest)).
apply sql_drop_slash.
Qed.

(** A text is [LIKE] itself, wildcards and all. *)
Lemma like_refl (s : string) : like s s = true.
Proof.
induction s as [|c s IH]; [reflexivity|].
destruct (Ascii.eqb c "%") eqn:Hpercent.
{ apply Ascii.eqb_eq in Hpercent as ->.
  rewrite like_percent, (like_percent s s), IH. apply orb_true_r. }
destruct (Ascii.eqb c "_") eqn:Hunder.
{ apply Ascii.eqb_eq in Hunder as ->. cbn [like]. exact IH. }
rewrite like_char by (unfold wildcard; rewrite Hpercent, Hunder; reflexivity).
rewrite Ascii.eqb_refl, IH. reflexivity.
Qed.

Lemma getCategories_rows_of (db : Database) (language : value) (t : thread_row) :
  t ∈ threads db → like (categories_pattern language) (t_path t) = true →
  ∃ r, r ∈ getCategories db language
       ∧ c_category r = category_column language (t_path t)
       ∧ 1 ≤ c_thread_count r.
Proof.
intros Ht Hlike.
assert (Hsel : t ∈ filter (fun t => like (categories_pattern language) (t_path t))
                     (threads db)).
{ apply list_elem_of_filter. split; [apply Is_true_true, Hlike | exact Ht]. }
eexists {| c_category := category_column language (t_path t); c_thread_count := _ |}.
split; [|split; [reflexivity|]].
- unfold getCategories. rewrite merge_sort_Permutation.
  apply list_elem_of_fmap. eexists. split; [reflexivity|].
  apply elem_of_remove_dups, list_elem_of_fmap_2, list_elem_of_fmap_2, Hsel.
- cbn [c_thread_count].
  assert (Hin : t ∈ filter (fun t' => category_column language (t_path t')
                                       = category_column language (t_path t))
                      (filter (fun t => like (categories_pattern language) (t_path t))
                              (threads db))).
  { apply list_elem_of_filter. auto. }
  destruct (filter _ (filter _ (threads db))); [inversion Hin | cbn [length]; lia].
Qed.

(** X20: from the list of categories back to the list of threads.  A
    thread whose path is made of the prefix, a language without
    wildcards and a remainder, with wildcards or not and both
    without the byte 0, is counted by the categories of that
    language under its remainder; and the thread list asked for that
    language and that category holds the thread. *)
Theorem category_round_trip (db : Database) (t : thread_row) (language rest : string) :
  t ∈ threads db →
  t_path t = categoryPrefix +:+ language +:+ "/" +:+ rest →
  language ≠ "" → literal language = true →
  nul_free language = true → nul_free rest = true →
  (∃ r, r ∈ getCategories db (VStr language)
        ∧ c_category r = rest ∧ 1 ≤ c_thread_count r)
  ∧ thread_list_row_of db t ∈ thread_listing db (VStr language) (VStr rest).
Proof.
intros Ht Hpath Hne Hlanguage _ _.
assert (Htruthy : truthy (VStr language) = true).
{ cbn [truthy]. apply negb_true_iff, String.eqb_neq, Hne. }
assert (Hselected : like (categories_pattern (VStr language)) (t_path t) = true).
{ unfold categories_pattern. rewrite Htruthy, Hpath. cbn [to_string].
  apply like_literal; [reflexivity|]. apply like_literal; [exact Hlanguage|].
  change ("/" +:+ rest) with (String "/" rest). change "/%" with (String "/" "%").
  rewrite like_char by reflexivity. rewrite Ascii.eqb_refl. apply like_percent_all. }
assert (Hcolumn : category_column (VStr language) (t_path t) = rest).
{ rewrite Hpath. apply category_column_remainder, Hne. }
split.
- destruct (getCategories_rows_of db (VStr language) t Ht Hselected) as (r & Hr & Hcat & Hcount).
  exists r. rewrite Hcat, Hcolumn. auto.
- unfold thread_listing, order_by_desc. rewrite merge_sort_Permutation.
  apply list_elem_of_fmap_2, list_elem_of_filter. split; [|exact Ht].
  apply Is_true_true, andb_true_iff. unfold path_filter. rewrite Htruthy. split.
  + unfold language_pattern. cbn [to_string].
    replace ("%/" +:+ language +:+ "/%")
      with ("%" +:+ ("/" +:+ language +:+ "/") +:+ "%").
    2:{ change (String "%" (("/" +:+ language +:+ "/") +:+ "%")
                = String "%" (String "/" (language +:+ "/%"))).
        f_equal. rewrite !append_assoc. reflexivity. }
    apply like_contains.
    * change ("/" +:+ language +:+ "/") with (String "/" (language +:+ "/")).
      cbn [literal]. rewrite literal_app, Hlanguage. reflexivity.
    * exists "Calendar/Champions of Regnum", rest. rewrite Hpath.
      change categoryPrefix with ("Calendar/Champions of Regnum" +:+ "/").
      rewrite !append_assoc. reflexivity.
  + destruct (truthy (VStr rest)); [|reflexivity].
    unfold category_pattern. cbn [to_string]. rewrite Hpath.
    change ("%/" +:+ rest) with (String "%" ("/" +:+ rest)).
    rewrite <- append_assoc. apply like_percent_skip. rewrite like_percent.
    rewrite like_refl. reflexivity.
Qed.

Lemma category_round_trip_witness :
  (∃ r, r ∈ getCategories sample_db (VStr "English")
        ∧ c_category r = "General discussion" ∧ 1 ≤ c_thread_count r)
  ∧ thread_list_row_of sample_db
      {| t_id := 1; t_name := "Thread 1"; t_path := english_path |}
    ∈ thread_listing sample_db (VStr "English") (VStr "General discussion").
Proof.
apply (category_round_trip sample_db
         {| t_id := 1; t_name := "Thread 1"; t_path := english_path |}
         "English" "General discussion").
- apply (bool_decide_unpack _). vm_compute. exact I.
- reflexivity.
- discriminate.
- reflexivity.
- reflexivity.
- reflexivity.
Defined.

Example getCategories_samples :
  getCategories sample_db (VStr "English")
  = [ {| c_category := "General discussion"; c_thread_count := 45 |} ]
  ∧ getCategories sample_db (VStr "Español")
    = [ {| c_category := "Discusión general"; c_thread_count := 5 |} ]
  ∧ getCategories
      {| threads := [ {| t_id := 1; t_name := "a";
                         t_path := "Calendar/Champions of Regnum/English/Guilds/Recruitment" |};
                      {| t_id := 2; t_name := "b";
                         t_path := "Calendar/Champions of Regnum/english/Guilds" |};
                      {| t_id := 3; t_name := "c";
                         t_path := "Calendar/Champions of Regnum/English/Guilds" |} ];
         posts := []; users := [] |} (VStr "English")
    = [ {| c_category := "Guilds"; c_thread_count := 2 |};
        {| c_category := "Guilds/Recruitment"; c_thread_count := 1 |} ].
Proof. repeat split; vm_compute; reflexivity. Qed.

(** * Further properties of the statistics *)

(** ** The activity of the years *)

Lemma counted_years_of (ps : list post_row) (y : string) :
  year_counted y = true →
  length (filter (fun y' => y' = y)
            (filter (fun y => year_counted y) (year_of <$> (p_timestamp <$> ps))))
  = length (filter (fun p => year_of (p_timestamp p) = y) ps).
Proof.
intros Hy. induction ps as [|p ps IH]; [reflexivity|].
rewrite !fmap_cons, (filter_cons (fun p => _ = y)), filter_cons.
destruct (decide (year_of (p_timestamp p) = y)) as [Heq | Hne].
- rewrite Heq, Hy. rewrite decide_True by exact I.
  rewrite filter_cons, decide_True by reflexivity. cbn [length]. rewrite <- IH.
  reflexivity.
- destruct (decide (year_counted (year_of (p_timestamp p)))); [|exact IH].
  rewrite filter_cons, decide_False by exact Hne. exact IH.
Qed.

Lemma counted_years_length (ps : list post_row) :
  length (filter (fun y => year_counted y) (year_of <$> (p_timestamp <$> ps)))
  = length (filter (fun p => year_counted (year_of (p_timestamp p))) ps).
Proof.
induction ps as [|p ps IH]; [reflexivity|].
rewrite !fmap_cons, !filter_cons.
destruct (decide (year_counted (year_of (p_timestamp p)))); cbn [length]; lia.
Qed.

(** X21: the yearly statistics.  The rows are in ascending order of
    the year without a repetition; a year is a text from "2005" to
    "2025" in the order of bytes; a row counts the posts whose
    timestamp gives its year, at least one; and the counts add up to
    the number of posts whose year is counted. *)
Theorem getYearlyStats_rows (db : Database) :
  let rows := getYearlyStats db in
  Sorted (asc_on y_year) rows
  ∧ NoDup (y_year <$> rows)
  ∧ (∀ r, r ∈ rows →
       String.leb "2005" (y_year r) = true ∧ String.leb (y_year r) "2025" = true
       ∧ 1 ≤ y_post_count r
       ∧ y_post_count r
         = Z.of_nat (length (filter (fun p => year_of (p_timestamp p) = y_year r)
                                    (posts db))))
  ∧ total_of (y_post_count <$> rows)
    = Z.of_nat (length (filter (fun p => year_counted (year_of (p_timestamp p)))
                               (posts db))).
Proof.
intros rows. unfold rows, getYearlyStats.
set (years := filter (fun y => year_counted y) (year_of <$> (p_timestamp <$> posts db))).
set (row := fun y : string => {| y_year := y; y_post_count := _ |}).
assert (Hnodup : NoDup (remove_dups years)) by apply NoDup_remove_dups.
pose proof (counted_years_of (posts db)) as Hcount. fold years in Hcount.
pose proof (counted_years_length (posts db)) as Hlen. fold years in Hlen.
split; [apply Sorted_merge_sort, _|]. split; [|split].
- rewrite merge_sort_Permutation, <- list_fmap_compose.
  cbn [compose]. unfold row. cbn [y_year]. rewrite list_fmap_id. exact Hnodup.
- intros r Hr. rewrite merge_sort_Permutation in Hr.
  apply list_elem_of_fmap in Hr as (y & -> & Hy). unfold row. cbn [y_year y_post_count].
  rewrite elem_of_remove_dups in Hy.
  assert (Hcounted : year_counted y = true).
  { unfold years in Hy. apply list_elem_of_filter in Hy as [Hy _].
    apply Is_true_true, Hy. }
  pose proof Hcounted as Hbounds. unfold year_counted in Hbounds.
  apply andb_true_iff in Hbounds as [Hbounds Hupper].
  apply andb_true_iff in Hbounds as [_ Hlower].
  split; [exact Hlower|]. split; [exact Hupper|].
  rewrite <- (Hcount y Hcounted). split; [|reflexivity].
  assert (Hin : y ∈ filter (fun y' => y' = y) years) by (apply list_elem_of_filter; auto).
  destruct (filter _ years); [inversion Hin | cbn [length]; lia].
- rewrite (total_of_Permutation _ (y_post_count <$> (row <$> remove_dups years)))
    by (apply fmap_Permutation, merge_sort_Permutation).
  rewrite <- list_fmap_compose. unfold row. cbn [compose y_post_count].
  rewrite <- Hlen.
  apply (group_count_sum (fun y : string => y) years (remove_dups years) Hnodup).
  intros y Hy. apply elem_of_remove_dups, Hy.
Qed.

Example getYearlyStats_sample :
  getYearlyStats dated_db
  = [ {| y_year := "2007"; y_post_count := 2 |}; {| y_year := "2008"; y_post_count := 2 |} ]
  ∧ year_of (Some "05-09-2008, 09:39 PM") = "9 PM"
  ∧ year_of (Some "2009") = "Unknown".
Proof. repeat split; vm_compute; reflexivity. Qed.

(** ** Timestamps that end in AM or PM *)

Lemma sql_length_drop (s : string) (absorbing : bool) (n : nat) :
  sql_length_from false (sql_drop_from absorbing n s)
  = (sql_length_from absorbing s - n)%nat.
Proof.
revert absorbing n. induction s as [|c s IH]; intros absorbing n; [reflexivity|].
cbn [sql_drop_from sql_length_from].
destruct (absorbing && is_continuation c) eqn:Hskip; [apply IH|].
destruct n as [|n]; [|rewrite IH; reflexivity].
cbn [sql_length_from andb]. lia.
Qed.

Lemma sql_length_bytes (s : string) (absorbing : bool) :
  (sql_length_from absorbing s ≤ String.length s)%nat.
Proof.
revert absorbing. induction s as [|c s IH]; intros absorbing; [reflexivity|].
cbn [sql_length_from String.length].
destruct (absorbing && is_continuation c).
- specialize (IH true). lia.
- specialize (IH (is_lead c)). lia.
Qed.

Lemma sql_length_zero (s : string) : sql_length_from false s = 0%nat → s = "".
Proof. destruct s; [reflexivity | discriminate]. Qed.

Section Meridiem.
Variable half : ascii.
Hypothesis half_letter : is_continuation half = false.

Let tail : string := String " " (String half "M").

Lemma sql_length_tail (x : string) (absorbing : bool) :
  sql_length_from absorbing (x +:+ tail) = (sql_length_from absorbing x + 3)%nat.
Proof.
revert absorbing. induction x as [|c x IH]; intros absorbing.
- rewrite append_empty_l. unfold tail. cbn [sql_length_from].
  change (is_continuation " ") with false. change (is_continuation "M") with false.
  rewrite half_letter, !andb_false_r. reflexivity.
- rewrite append_cons. cbn [sql_length_from].
  destruct (absorbing && is_continuation c); rewrite IH; reflexivity.
Qed.

(** What is left of such a text behind some characters ends in the
    same way, or is shorter than the ending. *)
Lemma sql_drop_tail (body : string) (absorbing : bool) (n : nat) :
  (∃ x, sql_drop_from absorbing n (body +:+ tail) = x +:+ tail)
  ∨ (String.length (sql_drop_from absorbing n (body +:+ tail)) < 3)%nat.
Proof.
revert absorbing n. induction body as [|c body IH]; intros absorbing n.
- rewrite append_empty_l. unfold tail. cbn [sql_drop_from].
  change (is_continuation " ") with false. change (is_continuation "M") with false.
  rewrite half_letter, !andb_false_r.
  destruct n as [|[|[|n]]]; [left; exists ""; reflexivity | right; cbn; lia ..].
- rewrite append_cons. cbn [sql_drop_from].
  destruct (absorbing && is_continuation c); [apply IH|].
  destruct n as [|n]; [|apply IH].
  left. exists (String c body). rewrite append_cons. reflexivity.
Qed.

Lemma year_between_first (c : ascii) (rest : string) :
  String.leb "2005" (String c rest) = true → String.leb (String c rest) "2025" = true →
  c = "2"%char.
Proof.
unfold String.leb. cbn [String.compare]. unfold Ascii.compare.
intros Hlower Hupper.
assert (Heq : N_of_ascii c = N_of_ascii "2").
{ destruct (N.compare_spec (N_of_ascii "2") (N_of_ascii c)) as [Heq | Hlt | Hgt];
    [congruence | | discriminate].
  destruct (N.compare_spec (N_of_ascii c) (N_of_ascii "2")) as [Heq' | Hlt' | Hgt'];
    [congruence | lia | discriminate]. }
rewrite <- (ascii_N_embedding c), Heq. reflexivity.
Qed.

(** The year that the statistics cut from such a timestamp is not
    counted. *)
Lemma year_of_tail (body : string) : year_counted (year_of (Some (body +:+ tail))) = false.
Proof.
unfold year_of.
destruct (like "%-%-%" (body +:+ tail) && (10 <=? sql_length (body +:+ tail))) eqn:Hcase;
  [|reflexivity].
apply andb_true_iff in Hcase as [_ Hlen]. apply Z.leb_le in Hlen. unfold sql_length in Hlen.
unfold sql_substr_last.
pose proof (sql_length_drop (body +:+ tail) false
              (sql_length_from false (body +:+ tail) - 4)) as Hfour.
destruct (sql_drop_tail body false (sql_length_from false (body +:+ tail) - 4))
  as [[x Hx] | Hshort].
2:{ pose proof (sql_length_bytes
                  (sql_drop_from false (sql_length_from false (body +:+ tail) - 4)
                     (body +:+ tail)) false). lia. }
rewrite Hx in *. rewrite sql_length_tail in Hfour.
destruct (year_counted (x +:+ tail)) eqn:Hcounted; [exfalso | reflexivity].
unfold year_counted in Hcounted.
apply andb_true_iff in Hcounted as [Hcounted Hupper].
apply andb_true_iff in Hcounted as [_ Hlower].
destruct x as [|c x]; [cbn in Hfour; lia|].
rewrite append_cons in Hlower, Hupper.
pose proof (year_between_first c _ Hlower Hupper) as ->.
cbn [sql_length_from andb] in Hfour.
assert (Hx' : x = "") by (apply sql_length_zero; change (is_lead "2") with false in Hfour; lia).
subst x. rewrite append_empty_l in Hlower. unfold tail in Hlower.
vm_compute in Hlower. discriminate.
Qed.

End Meridiem.

Lemma year_of_meridiem (timestamp : option string) :
  meridiem_time timestamp → year_counted (year_of timestamp) = false.
Proof.
intros [-> | (body & [-> | ->])]; [reflexivity | |].
- apply (year_of_tail "A"). reflexivity.
- apply (year_of_tail "P"). reflexivity.
Qed.

(** X22: the yearly statistics on timestamps of the primary format.
    The year is cut from the end of the timestamp, where that format
    has AM or PM: no post with a timestamp that ends so is counted,
    and an archive in which every timestamp is NULL or ends so has
    no yearly statistics at all. *)
Theorem getYearlyStats_meridiem (db : Database) :
  (∀ p, p ∈ posts db → meridiem_time (p_timestamp p)) →
  getYearlyStats db = [].
Proof.
intros Hall. unfold getYearlyStats.
assert (Hnone : filter (fun y => year_counted y) (year_of <$> (p_timestamp <$> posts db))
                = []).
{ induction (posts db) as [|p ps IH]; [reflexivity|].
  rewrite !fmap_cons, filter_cons.
  rewrite (year_of_meridiem (p_timestamp p)) by (apply Hall; left).
  rewrite decide_False by (intros []). apply IH. intros p' Hp'. apply Hall. right. exact Hp'. }
rewrite Hnone. reflexivity.
Qed.

Lemma getYearlyStats_meridiem_witness : getYearlyStats search_db = [].
Proof.
apply getYearlyStats_meridiem. intros p Hp. right.
unfold search_db in Hp. cbn [posts] in Hp.
repeat (apply elem_of_cons in Hp as [-> | Hp];
        [first [ solve [exists "01-01-2008, 09:00"; right; reflexivity]
               | solve [exists "09-01-2008, 09:00"; right; reflexivity]
               | solve [exists "05-01-2008, 09:00"; right; reflexivity] ] |]).
inversion Hp.
Defined.

(** ** The insights of the activity route *)

Lemma getYearlyStats_total (db : Database) :
  total_of (y_post_count <$> getYearlyStats db)
  = Z.of_nat (length (filter (fun p => year_counted (year_of (p_timestamp p)))
                             (posts db))).
Proof.
unfold getYearlyStats.
set (years := filter (fun y => year_counted y) (year_of <$> (p_timestamp <$> posts db))).
set (row := fun y : string => {| y_year := y; y_post_count := _ |}).
rewrite (total_of_Permutation _ (y_post_count <$> (row <$> remove_dups years)))
  by (apply fmap_Permutation, merge_sort_Permutation).
rewrite <- list_fmap_compose. unfold row. cbn [compose y_post_count].
rewrite <- (counted_years_length (posts db)). fold years.
apply (group_count_sum (fun y : string => y) years (remove_dups years)).
- apply NoDup_remove_dups.
- intros y Hy. apply elem_of_remove_dups, Hy.
Qed.

Lemma getYearlyStats_positive (db : Database) (r : year_row) :
  r ∈ getYearlyStats db → 1 ≤ y_post_count r.
Proof.
unfold getYearlyStats. rewrite merge_sort_Permutation. intros Hr.
apply list_elem_of_fmap in Hr as (y & -> & Hy). cbn [y_post_count].
rewrite elem_of_remove_dups in Hy.
assert (Hin : y ∈ filter (fun y' => y' = y)
                    (filter (fun y => year_counted y)
                            (year_of <$> (p_timestamp <$> posts db))))
  by (apply list_elem_of_filter; auto).
destruct (filter _ (filter _ _)); [inversion Hin | cbn [length]; lia].
Qed.

#[local] Instance asc_on_transitive {A} (key : A → string) : Transitive (asc_on key).
Proof. intros a b c. unfold asc_on, text_asc. apply string_leb_trans. Qed.

Lemma fold_left_sum (rows : list year_row) (start : Z) :
  fold_left (fun sum year => sum + y_post_count year) rows start
  = start + total_of (y_post_count <$> rows).
Proof.
revert start. induction rows as [|r rows IH]; intros start; unfold total_of in *.
- cbn. lia.
- rewrite fmap_cons. cbn [fold_left foldr]. rewrite IH. lia.
Qed.

(** The peak of the reduction: the start while no row is above it,
    and else the first row that no row is above. *)
Lemma fold_left_peak (rows : list year_row) (start : year_row) :
  let peak :=
    fold_left (fun peak year => if y_post_count peak <? y_post_count year then year else peak)
      rows start in
  (peak = start ∧ ∀ r, r ∈ rows → y_post_count r ≤ y_post_count start)
  ∨ (∃ i, rows !! i = Some peak
          ∧ y_post_count start < y_post_count peak
          ∧ (∀ r, r ∈ rows → y_post_count r ≤ y_post_count peak)
          ∧ (∀ j r, (j < i)%nat → rows !! j = Some r → y_post_count r < y_post_count peak)).
Proof.
revert start. induction rows as [|r0 rows IH]; intros start peak.
- left. split; [reflexivity | inversion 1].
- subst peak. cbn [fold_left].
  destruct (Z.ltb_spec (y_post_count start) (y_post_count r0)) as [Hlt | Hge].
  + destruct (IH r0) as [[Heq Hall] | (i & Hi & Hlt' & Hall & Hfirst)].
    * right. exists 0%nat. rewrite Heq. split; [reflexivity|]. split; [exact Hlt|].
      split; [|intros j r Hj; lia].
      intros r Hr. apply elem_of_cons in Hr as [-> | Hr]; [lia | auto].
    * right. exists (S i). split; [exact Hi|]. split; [lia|]. split.
      -- intros r Hr. apply elem_of_cons in Hr as [-> | Hr]; [lia | auto].
      -- intros [|j] r Hj Hr; [injection Hr as <-; lia|].
         apply (Hfirst j); [lia | exact Hr].
  + destruct (IH start) as [[Heq Hall] | (i & Hi & Hlt' & Hall & Hfirst)].
    * left. split; [exact Heq|].
      intros r Hr. apply elem_of_cons in Hr as [-> | Hr]; [lia | auto].
    * right. exists (S i). split; [exact Hi|]. split; [exact Hlt'|]. split.
      -- intros r Hr. apply elem_of_cons in Hr as [-> | Hr]; [lia | auto].
      -- intros [|j] r Hj Hr; [injection Hr as <-; lia|].
         apply (Hfirst j); [lia | exact Hr].
Qed.

Lemma round_div_bounds (a b : Z) :
  0 < b → 2 * b * round_div a b ≤ 2 * a + b < 2 * b * (round_div a b + 1).
Proof.
intros Hb. unfold round_div.
pose proof (Z.div_mod (2 * a + b) (2 * b) ltac:(lia)) as Hdm.
pose proof (Z.mod_pos_bound (2 * a + b) (2 * b) ltac:(lia)) as Hr.
nia.
Qed.

(** X23: the insights of the activity route on the yearly
    statistics.  The years are counted, their posts add up to the
    number of counted posts, and the average is that sum over the
    number of years, rounded to the nearest whole number.  Without a
    year the peak is "N/A" with no posts; else the peak is a year of
    the statistics that no year exceeds, and of the years that reach
    it the first in the order of the list. *)
Theorem activityInsights_yearly (db : Database) :
  let rows := getYearlyStats db in
  let insights := activityInsights rows in
  totalYears insights = Z.of_nat (length rows)
  ∧ totalPosts insights
    = Z.of_nat (length (filter (fun p => year_counted (year_of (p_timestamp p)))
                               (posts db)))
  ∧ (rows = [] →
     peakYear insights = "N/A" ∧ peakYearPosts insights = 0
     ∧ averagePostsPerYear insights = 0)
  ∧ (rows ≠ [] →
     (∃ r, r ∈ rows ∧ y_year r = peakYear insights
           ∧ y_post_count r = peakYearPosts insights)
     ∧ (∀ r, r ∈ rows → y_post_count r ≤ peakYearPosts insights)
     ∧ (∀ r, r ∈ rows → y_post_count r = peakYearPosts insights →
             String.leb (peakYear insights) (y_year r) = true)
     ∧ 2 * totalYears insights * averagePostsPerYear insights
       ≤ 2 * totalPosts insights + totalYears insights
       < 2 * totalYears insights * (averagePostsPerYear insights + 1)).
Proof.
intros rows insights.
assert (Hpos : ∀ r, r ∈ rows → 1 ≤ y_post_count r)
  by (intros r; apply getYearlyStats_positive).
pose proof (getYearlyStats_total db) as Htotal. fold rows in Htotal.
assert (Hsorted : StronglySorted (asc_on y_year) rows)
  by (apply StronglySorted_merge_sort; apply _).
clearbody rows. subst insights. unfold activityInsights.
cbn [totalYears totalPosts peakYear peakYearPosts averagePostsPerYear].
rewrite fold_left_sum, Z.add_0_l.
split; [reflexivity|]. split; [exact Htotal|]. split.
- intros ->. repeat split; reflexivity.
- intros Hrows.
  destruct (fold_left_peak rows {| y_year := "N/A"; y_post_count := 0 |})
    as [[_ Hall] | (i & Hi & _ & Hall & Hfirst)].
  { destruct rows as [|r rows']; [contradiction|].
    pose proof (Hpos r ltac:(left)). specialize (Hall r ltac:(left)).
    cbn [y_post_count] in Hall. lia. }
  set (peak := fold_left _ rows _) in *.
  split; [exists peak; split; [eapply list_elem_of_lookup_2, Hi | auto]|].
  split; [exact Hall|]. split.
  + intros r Hr Heq. apply list_elem_of_lookup in Hr as (j & Hj).
    destruct (decide (j < i)%nat) as [Hlt | Hge].
    { specialize (Hfirst j r Hlt Hj). lia. }
    destruct (decide (j = i)) as [-> | Hne].
    { rewrite Hi in Hj. injection Hj as <-. apply string_leb_refl. }
    exact (StronglySorted_lookup (asc_on y_year) rows i j peak r Hsorted
             ltac:(lia) Hi Hj).
  + assert (Hlen : 0 < Z.of_nat (length rows)) by (destruct rows; [contradiction | cbn; lia]).
    rewrite (proj2 (Z.ltb_lt _ _) Hlen).
    apply round_div_bounds, Hlen.
Qed.

Example activityInsights_sample :
  activityInsights (getYearlyStats dated_db)
  = {| totalYears := 2; totalPosts := 4; peakYear := "2007"; peakYearPosts := 2;
       averagePostsPerYear := 2 |}
  ∧ activityInsights (getYearlyStats sample_db)
    = {| totalYears := 0; totalPosts := 0; peakYear := "N/A"; peakYearPosts := 0;
         averagePostsPerYear := 0 |}.
Proof. split; vm_compute; reflexivity. Qed.

(** * Further properties of validation and formatting *)

(** X24: validation is idempotent, and the client validates as the
    server does, for a request of texts or safe integers whose page
    has safe integers for its item numbers.  What the server makes of a page and a limit it
    leaves as it is when it gets it again, as numbers or as their
    decimal texts; and the page and the limit that the client makes
    of a request are the ones that the server makes of it, so that
    the server keeps what the client sends. *)
Theorem validatePagination_idempotent (requestedPage requestedLimit : value) :
  safe_value requestedPage → safe_value requestedLimit →
  safe_pagination
    (validatePagination requestedPage (with_default requestedLimit (VNum 20))) →
  let server := validatePagination requestedPage (with_default requestedLimit (VNum 20)) in
  let client := clientValidatePagination requestedPage requestedLimit in
  validatePagination (VNum (page server)) (VNum (limit server)) = server
  ∧ validatePagination (VStr (pretty (page server))) (VStr (pretty (limit server))) = server
  ∧ cp_page client = page server ∧ cp_limit client = limit server
  ∧ validatePagination (VNum (cp_page client)) (VNum (cp_limit client)) = server.
Proof.
intros _ _ _ server client.
pose proof (validatePagination_bounds requestedPage (with_default requestedLimit (VNum 20)))
  as Hbounds.
cbv zeta in Hbounds. fold server in Hbounds.
destruct Hbounds as (Hpage & Hlimit & Hoffset & _).
assert (Hsame : validatePagination (VNum (page server)) (VNum (limit server)) = server).
{ unfold validatePagination at 1.
  rewrite (proj1 (parseInt_number (page server))), (proj1 (parseInt_number (limit server))).
  unfold num_or.
  destruct (Z.eqb_spec (page server) 0) as [Hp | _]; [lia|].
  destruct (Z.eqb_spec (limit server) 0) as [Hl | _]; [lia|].
  replace (Z.max 1 (page server)) with (page server) by lia.
  replace (Z.min 100 (Z.max 1 (limit server))) with (limit server) by lia.
  rewrite <- Hoffset. destruct server; reflexivity. }
split; [exact Hsame|]. split; [exact Hsame|].
split; [reflexivity|]. split; [reflexivity|]. exact Hsame.
Qed.

Lemma validatePagination_idempotent_witness :
  validatePagination (VNum 7) (VNum 100)
  = validatePagination (VStr "7") (VStr "250")
  ∧ cp_limit (clientValidatePagination (VStr "7") (VStr "250")) = 100.
Proof.
destruct (validatePagination_idempotent (VStr "7") (VStr "250"))
  as (Hsame & _ & _ & Hlimit & _).
- exact I.
- exact I.
- vm_compute. discriminate.
- split; [exact Hsame | exact Hlimit].
Defined.

Section FormatterThrows.
Context {date_library : MomentLib} {sanitizer : SanitizeHtmlLib}.

(** X25: which formatter throws.  The formatters of users and of
    posts return on every input, whatever the date library does;
    the formatter of threads throws a TypeError exactly on a truthy
    input whose [path] is not a string, and returns on every other
    input. *)
Theorem formatters_throw (x : js) :
  (∃ r, formatUserForApi x = Normal r)
  ∧ (∃ r, formatPostForApi x = Normal r)
  ∧ ((∃ msg, formatThreadForApi x = Throw (TypeError msg))
     ↔ js_truthy x = true ∧ ∀ s, prop x "path" ≠ VStr s)
  ∧ ((∃ r, formatThreadForApi x = Normal r)
     ↔ js_truthy x = false ∨ ∃ s, prop x "path" = VStr s).
Proof.
split; [|split].
- unfold formatUserForApi. destruct (js_truthy x); cbn [negb]; [|eauto].
  destruct (timestamp_or_null_returns (prop x "first_post")) as [fp ->].
  destruct (timestamp_or_null_returns (prop x "last_post")) as [lp ->].
  cbn [mbind completion_bind]. eauto.
- unfold formatPostForApi. destruct (js_truthy x); cbn [negb]; [|eauto].
  destruct (timestamp_or_null_returns (prop x "timestamp")) as [ts ->].
  cbn [mbind completion_bind]. eauto.
- unfold formatThreadForApi. destruct (js_truthy x); cbn [negb].
  2:{ split; split.
      - intros (msg & Hthrow). discriminate.
      - intros [Hfalse _]. discriminate.
      - intros _. left. reflexivity.
      - intros _. eauto. }
  destruct (prop x "path") as [| |b|n|s] eqn:Hpath;
    cbn [getLanguageFromPath as_string_receiver mbind completion_bind].
  5:{ rewrite getCategoryFromPath_string. cbn [mbind completion_bind].
      destruct (timestamp_or_null_returns (prop x "last_post_time")) as [lt ->].
      destruct (timestamp_or_null_returns (prop x "created_time")) as [ct ->].
      cbn [mbind completion_bind]. split; split.
      - intros (msg & Hthrow). discriminate.
      - intros [_ Hnone]. destruct (Hnone s eq_refl).
      - intros _. right. eauto.
      - intros _. eauto. }
  all: split; split;
    [ intros _; split; [reflexivity | discriminate]
    | intros _; eauto
    | intros (r & Hr); discriminate
    | intros [Hfalse | (s & Hs)]; discriminate ].
Qed.

End FormatterThrows.

Example formatters_throw_samples :
  @formatThreadForApi sample_moment (Obj {[ "id" := VNum 1 ]})
  = Throw (TypeError "Cannot read properties of undefined or null, reading includes")
  ∧ @formatThreadForApi sample_moment (Prim (VNum 5))
    = Throw (TypeError "Cannot read properties of undefined or null, reading includes")
  ∧ @formatThreadForApi sample_moment (Obj {[ "path" := VNum 1 ]})
    = Throw (TypeError "path.includes is not a function")
  ∧ ∃ r, @formatUserForApi throwing_moment (Obj {[ "first_post" := VStr "soon" ]})
         = Normal (Some r) ∧ UserApi.firstPost r = VStr "soon".
Proof.
split; [vm_compute; reflexivity|]. split; [vm_compute; reflexivity|].
split; [vm_compute; reflexivity|]. eexists. split; vm_compute; reflexivity.
Qed.

(** ** The ranking of the users *)

Lemma getMostActiveUsers_rows (db : Database) (n : Z) :
  let rows := getMostActiveUsers db n in
  (∀ i j ri rj, (i < j)%nat → rows !! i = Some ri → rows !! j = Some rj →
     au_post_count rj ≤ au_post_count ri)
  ∧ (∀ r, r ∈ rows →
       1 ≤ au_post_count r ∧ ∃ name, au_name r = Some name ∧ name ≠ "").
Proof.
intros rows. unfold rows, getMostActiveUsers. cbv zeta.
set (joined := filter _ (users db) ≫= _).
split.
- intros i j ri rj Hij Hi Hj. apply limit_offset_lookup in Hi, Hj.
  assert (Hshift : (Z.to_nat 0 + i < Z.to_nat 0 + j)%nat) by lia.
  exact (StronglySorted_lookup (num_desc au_post_count) _ _ _ ri rj
           (StronglySorted_merge_sort _ _) Hshift Hi Hj).
- intros r Hr. apply limit_offset_elem in Hr. rewrite merge_sort_Permutation in Hr.
  apply list_elem_of_fmap in Hr as (u & -> & Hu). cbn [au_post_count au_name].
  rewrite elem_of_remove_dups in Hu. apply list_elem_of_fmap in Hu as ([u' p] & -> & Hup).
  cbn [fst]. split.
  + assert (Hin : (u', p) ∈ filter (fun up : user_row * post_row => up.1 = u') joined)
      by (apply list_elem_of_filter; auto).
    destruct (filter _ joined); [inversion Hin | cbn [length]; lia].
  + unfold joined in Hup. apply list_elem_of_bind in Hup as (u & Hin & Hu).
    apply list_elem_of_bind in Hin as (p0 & Hin & _).
    apply list_elem_of_singleton in Hin. injection Hin as -> ->.
    apply list_elem_of_filter in Hu as [Hnamed _]. apply Is_true_true in Hnamed.
    unfold user_named in Hnamed. destruct (u_name u) as [name|]; [|discriminate].
    exists name. split; [reflexivity|]. apply String.eqb_neq, negb_true_iff, Hnamed.
Qed.

(** X26: the ranking of the most active users.  The route answers
    with at most 100 users, and with no more than the limit asked
    for when that is a number from 1 to 100; the user at position
    [i] has the rank [i + 1], the first three have the medals in
    their order and no other user has one; every user has a name
    and at least one post, and no user has more posts than a user
    of a better rank. *)
Theorem statsUsersRoute_ranking (db : Database) (q_limit : value) :
  let r := statsUsersRoute db q_limit in
  status r = 200
  ∧ ∃ d, data r = Some d
         ∧ (length d ≤ 100)%nat
         ∧ (∀ n, parseInt q_limit = Some n → 1 ≤ n ≤ 100 → Z.of_nat (length d) ≤ n)
         ∧ (∀ i u, d !! i = Some u →
              ru_rank u = Z.of_nat i + 1
              ∧ ru_medal u = (if (i <? 3)%nat then medals !! i else None)
              ∧ (is_Some (ru_medal u) ↔ ru_rank u ≤ 3)
              ∧ 1 ≤ ru_post_count u
              ∧ (∃ name, ru_name u = VStr name ∧ name ≠ "")
              ∧ (∀ j u', (i < j)%nat → d !! j = Some u' →
                         ru_post_count u' ≤ ru_post_count u)).
Proof.
intros r. subst r. unfold statsUsersRoute. cbv zeta.
set (validatedLimit := Z.min 100 (Z.max 1 _)).
cbn [createApiResponse status data]. split; [reflexivity|].
eexists. split; [reflexivity|].
destruct (getMostActiveUsers_rows db validatedLimit) as [Hsorted Hrows].
cbv zeta in Hsorted, Hrows.
assert (Hlen : Z.of_nat (length (getMostActiveUsers db validatedLimit)) ≤ validatedLimit).
{ unfold getMostActiveUsers. apply limit_offset_length. unfold validatedLimit. lia. }
assert (Hcap : validatedLimit ≤ 100) by (unfold validatedLimit; lia).
rewrite length_imap. split; [lia|]. split.
- intros n Hn Hrange.
  assert (Hlimit : validatedLimit = n).
  { unfold validatedLimit.
    replace (parseInt (with_default q_limit (VNum 20))) with (Some n)
      by (destruct q_limit; try exact (eq_sym Hn); discriminate Hn).
    unfold num_or. destruct (Z.eqb_spec n 0); lia. }
  lia.
- intros i u Hu. rewrite list_lookup_imap in Hu.
  destruct (getMostActiveUsers db validatedLimit !! i) as [row|] eqn:Hrow; [|discriminate].
  cbn [fmap option_fmap option_map] in Hu. injection Hu as <-.
  cbn [ru_rank ru_medal ru_post_count ru_name].
  assert (Hin : row ∈ getMostActiveUsers db validatedLimit)
    by (eapply list_elem_of_lookup_2, Hrow).
  destruct (Hrows row Hin) as (Hposts & name & Hname & Hnonempty).
  split; [reflexivity|]. split; [reflexivity|]. split; [|split; [exact Hposts|split]].
  + destruct i as [|[|[|i]]]; cbn; split; intros H; try lia; try (eexists; reflexivity).
    destruct H as [m Hm]. discriminate.
  + exists name. rewrite Hname. auto.
  + intros j u' Hij Hu'. rewrite list_lookup_imap in Hu'.
    destruct (getMostActiveUsers db validatedLimit !! j) as [row'|] eqn:Hrow'; [|discriminate].
    cbn [fmap option_fmap option_map] in Hu'. injection Hu' as <-. cbn [ru_post_count].
    exact (Hsorted i j row row' Hij Hrow Hrow').
Qed.

Example statsUsersRoute_sample :
  (fun u => (ru_post_count u, ru_rank u, ru_medal u))
    <$> default [] (data (statsUsersRoute reply_db VUndefined))
  = [ (1, 1, Some "🥇"); (1, 2, Some "🥈") ]
  ∧ length (default [] (data (statsUsersRoute reply_db (VStr "1")))) = 1%nat.
Proof. split; vm_compute; reflexivity. Qed.

(** * Further properties of the overview of categories *)

#[local] Instance overview_order_total : Total overview_order.
Proof.
intros a b. unfold overview_order.
rewrite (String.eqb_sym (ac_language b) (ac_language a)).
destruct (String.eqb (ac_language a) (ac_language b)); [lia | apply text_asc_total].
Qed.

Lemma left_join_count {A} (rows : list A) :
  Z.of_nat (length (left_join rows))
  = Z.of_nat (length rows) + (if decide (rows = []) then 1 else 0).
Proof. destruct rows as [|a rows]; cbn [left_join length]; [reflexivity|].
rewrite length_fmap. cbn [length]. rewrite decide_False by discriminate. lia. Qed.

(** The rows that the join gives the threads of one group, counted
    thread by thread. *)
Lemma threads_join_count (db : Database) (k : string * string) (ts : list thread_row) :
  let joined : list (thread_row * option post_row) :=
    t ← ts; p ← left_join (posts_of db (t_id t)); [(t, p)] in
  let group := filter (fun tp => overview_key tp.1 = k) joined in
  let members := filter (fun t => overview_key t = k) ts in
  Z.of_nat (length (filter (fun tp => is_Some tp.2) group))
  = total_of ((fun t => Z.of_nat (length (posts_of db (t_id t)))) <$> members)
  ∧ Z.of_nat (length group)
    = total_of ((fun t => Z.of_nat (length (posts_of db (t_id t)))) <$> members)
      + Z.of_nat (length (filter (fun t => posts_of db (t_id t) = []) members)).
Proof.
cbv zeta. induction ts as [|t ts [IHposts IHrows]]; [split; reflexivity|].
assert (Hone : ∀ (ps : list (option post_row)),
          filter (fun tp : thread_row * option post_row => overview_key tp.1 = k)
            (ps ≫= fun p => [(t, p)])
          = if decide (overview_key t = k) then ps ≫= fun p => [(t, p)] else []).
{ induction ps as [|p ps IH]; [destruct (decide (overview_key t = k)); reflexivity|].
  rewrite bind_cons. cbn [app]. rewrite filter_cons. cbn [fst]. rewrite IH.
  destruct (decide (overview_key t = k)); reflexivity. }
assert (Hlen : ∀ (ps : list (option post_row)),
          length (ps ≫= fun p => [(t, p)]) = length ps).
{ induction ps as [|p ps IH]; [reflexivity|]. rewrite bind_cons. cbn. rewrite IH. reflexivity. }
assert (Hsome : ∀ (ps : list post_row),
          length (filter (fun tp : thread_row * option post_row => is_Some tp.2)
                    (left_join ps ≫= fun p => [(t, p)]))
          = length ps).
{ intros [|p ps]; [cbn; rewrite decide_False; [reflexivity | intros [x Hx]; discriminate]|].
  cbn [left_join]. generalize (p :: ps). clear. intros ps.
  induction ps as [|p ps IH]; [reflexivity|].
  rewrite fmap_cons, bind_cons. cbn [app]. rewrite filter_cons. cbn [snd].
  rewrite decide_True by (eexists; reflexivity). cbn [length]. rewrite IH. reflexivity. }
rewrite bind_cons, filter_app, Hone, (filter_cons (fun t => overview_key t = k)).
destruct (decide (overview_key t = k)) as [Hk | Hk].
- rewrite fmap_cons, filter_app, !length_app, !Nat2Z.inj_add, IHposts, IHrows.
  rewrite Hsome, Hlen, left_join_count, filter_cons.
  unfold total_of. cbn [foldr]. fold (total_of ((fun t => Z.of_nat (length (posts_of db (t_id t))))
                                              <$> filter (fun t => overview_key t = k) ts)).
  destruct (decide (posts_of db (t_id t) = [])) as [Hnil | Hnil]; cbn [length]; split; lia.
- cbn [app]. split; [exact IHposts | exact IHrows].
Qed.

(** X27: the overview of the categories of all languages.  The rows
    are in the order of the language and, within a language, of the
    falling thread count, and no row is of "Other".  Both counts are
    taken over the rows of the join of threads and posts: the post
    count is the number of posts of the threads of the group, and
    the thread count is that number and one more for each thread
    without a post, so that it is the number of the threads of the
    group only when none of them has more than one post. *)
Theorem getAllCategories_counts (db : Database) :
  let rows := getAllCategories db in
  Sorted overview_order rows
  ∧ ∀ r, r ∈ rows →
      let group :=
        filter (fun t => overview_key t = (ac_language r, ac_category r)) (threads db) in
      ac_language r ≠ "Other"
      ∧ group ≠ []
      ∧ ac_post_count r
        = total_of ((fun t => Z.of_nat (length (posts_of db (t_id t)))) <$> group)
      ∧ ac_thread_count r
        = ac_post_count r
          + Z.of_nat (length (filter (fun t => posts_of db (t_id t) = []) group))
      ∧ Z.of_nat (length group) ≤ ac_thread_count r.
Proof.
intros rows. split; [apply Sorted_merge_sort, _|].
intros r Hr. unfold rows, getAllCategories in Hr. cbv zeta in Hr.
rewrite merge_sort_Permutation in Hr.
apply list_elem_of_fmap in Hr as (k & -> & Hk).
rewrite elem_of_remove_dups in Hk. apply list_elem_of_fmap in Hk as ([t0 p0] & -> & Hjoin).
cbn [fst] in *. cbn [ac_language ac_category ac_thread_count ac_post_count].
rewrite <- surjective_pairing.
assert (Ht0 : t0 ∈ threads db ∧ sql_language (t_path t0) ≠ "Other").
{ unfold threads_join_posts in Hjoin. apply list_elem_of_bind in Hjoin as (t & Hin & Ht).
  apply list_elem_of_bind in Hin as (p & Hin & _).
  apply list_elem_of_singleton in Hin. injection Hin as -> ->.
  apply list_elem_of_filter in Ht as [Hother Ht]. auto. }
destruct Ht0 as [Ht0 Hother].
assert (Hmembers : filter (fun t => overview_key t = overview_key t0)
                     (filter (fun t => sql_language (t_path t) ≠ "Other") (threads db))
                   = filter (fun t => overview_key t = overview_key t0) (threads db)).
{ rewrite list_filter_filter. apply list_filter_iff. intros t. split; [tauto|].
  intros Hkey. split; [exact Hkey|]. unfold overview_key in Hkey.
  injection Hkey as Hlang _. rewrite Hlang. exact Hother. }
destruct (threads_join_count db (overview_key t0)
            (filter (fun t => sql_language (t_path t) ≠ "Other") (threads db)))
  as [Hposts Hrows].
cbv zeta in Hposts, Hrows. rewrite Hmembers in Hposts, Hrows.
fold (threads_join_posts db) in Hposts, Hrows.
split; [exact Hother|]. split; [|split; [exact Hposts|split]].
- intros Hnil.
  assert (Hin : t0 ∈ filter (fun t => overview_key t = overview_key t0) (threads db))
    by (apply list_elem_of_filter; auto).
  rewrite Hnil in Hin. inversion Hin.
- rewrite Hrows, Hposts. reflexivity.
- rewrite Hrows.
  set (members := filter (fun t => overview_key t = overview_key t0) (threads db)).
  clearbody members. clear. induction members as [|t ts IH]; [cbn; lia|].
  rewrite fmap_cons, filter_cons. unfold total_of in *. cbn [foldr length].
  destruct (decide (posts_of db (t_id t) = [])) as [Hnil | Hnil].
  + rewrite Hnil. cbn [length]. lia.
  + destruct (posts_of db (t_id t)) as [|p ps]; [contradiction|]. cbn [length]. lia.
Qed.

Example getAllCategories_sample :
  getAllCategories search_db
  = [ {| ac_language := "English"; ac_category := "General discussion";
         ac_thread_count := 3; ac_post_count := 3 |} ]
  ∧ length (threads search_db) = 2%nat.
Proof. split; vm_compute; reflexivity. Qed.
